(** * ig_miner: a shallow embedding of the harvesting core

    The development follows the Python package module by module:
    [Constants] (constants.py), [Api] (api.py), the storage backends
    ([SQLiteStorage], [JSONStorage] behind the [StorageBackend] interface),
    [Scraper] (scraper.py) and [Daemon] (daemon.py).

    Conventions.
    - A Python [dict] that the code uses as a record is a Rocq record whose
      fields are [entry]s: a key may be missing, hold [None], or hold a value,
      and [d.get(k)], [d.get(k, default)] and [d[k]] tell these apart exactly
      as Python does.
    - Python integers are [Z], unbounded as in Python; where a library
      accepts only machine integers (SQLite's INTEGER, the platform's
      [time_t]) the [OverflowError] it raises beyond them is part of the
      model. [str] values are [string]s (byte strings: every character the
      code compares against is ASCII).
    - Exceptions are explicit: a call that may raise returns a [result].
    - The network, the host clock and the file system are oracles; requests,
      sleeps and storage writes are recorded as events so that call
      sequences can be stated. Log lines are left out, except where
      formatting one can raise or reads storage.
    - The Supabase backend is a remote service behind HTTP and has no model
      here. *)

From Stdlib Require Import ZArith String Ascii List Lia QArith_base Sorted.
From stdpp Require Import base option list gmap strings sets.

#[local] Set Warnings "-clear-no-such-hyp".

Local Open Scope Z_scope.
Local Open Scope string_scope.

(** ** Python values *)

Module Py.

(** One key of a dict: missing, present with [None], or present with a value. *)
Inductive entry (A : Type) : Type :=
| Absent
| PyNone
| Val (a : A).
Arguments Absent {A}.
Arguments PyNone {A}.
Arguments Val {A} a.

(** [d.get(k)]: [None] when the key is missing or holds [None]. *)
Definition get {A} (e : entry A) : option A :=
  match e with
  | Val a => Some a
  | Absent | PyNone => None
  end.

(** [d.get(k, default)]: the default only replaces a missing key. *)
Definition get_or {A} (e : entry A) (default : A) : option A :=
  match e with
  | Absent => Some default
  | PyNone => None
  | Val a => Some a
  end.

(** Storing the result of an expression under a key. *)
Definition store {A} (o : option A) : entry A :=
  match o with
  | Some a => Val a
  | None => PyNone
  end.

(** A JSON number as Python reads it: an [int] or a (finite) [float]. *)
Inductive number : Type :=
| Int (z : Z)
| Float (q : Q).

(** Exceptions. [SystemExit] is not an [Exception] subclass. *)
Inductive exn : Type :=
| Exception (cls msg : string)
| SystemExit (code : Z).

Inductive result (A : Type) : Type :=
| Returned (a : A)
| Raised (e : exn).
Arguments Returned {A} a.
Arguments Raised {A} e.

(** [d[k]]: raises [KeyError] when the key is missing. *)
Definition subscript {A} (k : string) (e : entry A) : result (option A) :=
  match e with
  | Absent => Raised (Exception "KeyError" k)
  | PyNone => Returned None
  | Val a => Returned (Some a)
  end.

(** Truth values of the objects the code tests. *)
Definition truthy_str (o : option string) : bool :=
  match o with
  | Some s => negb (String.eqb s "")
  | None => false
  end.

Definition truthy_int (o : option Z) : bool :=
  match o with
  | Some z => negb (Z.eqb z 0)
  | None => false
  end.

(** [x or ""] and [x or 0]. *)
Definition or_str (o : option string) (d : string) : string :=
  match o with
  | Some s => if String.eqb s "" then d else s
  | None => d
  end.

Definition or_int (o : option Z) (d : Z) : Z :=
  match o with
  | Some z => if Z.eqb z 0 then d else z
  | None => d
  end.

(** [str.index(c)] for a one-character [c]: position of the first
    occurrence, [None] standing for the [ValueError]. *)
Fixpoint index_from (c : ascii) (s : string) (i : Z) : option Z :=
  match s with
  | EmptyString => None
  | String a rest => if Ascii.eqb a c then Some i else index_from c rest (i + 1)
  end.

Definition index (s : string) (c : ascii) : option Z := index_from c s 0.

(** [sub in s] on strings. *)
Fixpoint startswith (p s : string) : bool :=
  match p, s with
  | EmptyString, _ => true
  | String a p', String b s' => Ascii.eqb a b && startswith p' s'
  | String _ _, EmptyString => false
  end.

Fixpoint contains (sub s : string) : bool :=
  startswith sub s ||
  match s with
  | EmptyString => false
  | String _ s' => contains sub s'
  end.

(** [str.lower()] on the ASCII range. *)
Definition lower_ascii (a : ascii) : ascii :=
  let n := nat_of_ascii a in
  if (Nat.leb 65 n && Nat.leb n 90)%bool then ascii_of_nat (n + 32)%nat else a.

Fixpoint lower (s : string) : string :=
  match s with
  | EmptyString => EmptyString
  | String a s' => String (lower_ascii a) (lower s')
  end.

(** [str(e)] of an exception. *)
Definition str_exn (e : exn) : string :=
  match e with
  | Exception _ msg => msg
  | SystemExit _ => ""
  end.

End Py.
Import Py.

(** ** constants.py *)

Module Constants.

Definition SHORTCODE_ALPHABET : string :=
  "ABCDEFGHIJKLMNOPQRSTUVWXYZabcdefghijklmnopqrstuvwxyz0123456789-_".


End Constants.
Import Constants.

(** ** The records that travel between the modules *)

(** What [datetime.fromtimestamp(t).isoformat()] does with an integer [t]:
    it renders the local time, it raises the [ValueError] (year out of range)
    or [OSError] (the C library rejects the value) that the callers catch, or
    it raises [OverflowError] (the value does not fit the platform's
    [time_t]), which no caller catches. *)
Inductive timestamp : Type :=
| Isoformat (s : string)
| OutOfRange
| Overflow.

(** The bounds of a signed 64-bit integer. *)
Definition int64 (z : Z) : bool :=
  Z.leb (-9223372036854775808) z && Z.ltb z 9223372036854775808.

(** Host library functions whose results depend on the machine (local time
    zone, width of [time_t]) or on Unicode tables. *)
Class Host : Type := {
  fromtimestamp_isoformat : Z -> timestamp;
  (** [time_t] has at most 64 bits *)
  fromtimestamp_overflow : forall t,
    int64 t = false -> fromtimestamp_isoformat t = Overflow;
  (** [re.findall(r"#\w+", caption)] *)
  findall_hashtags : string -> list string;
  (** [len(caption.split())] *)
  split_len : string -> Z
}.

(** The parsed post dict built by [parse_media]; [storage_url] and
    [local_image_path] are the keys the scraper adds later. *)
Module Post.
Record t : Type := mk {
  code : entry string;
  id : entry string;
  username : entry string;
  user_id : entry string;
  full_name : entry string;
  is_verified : entry bool;
  caption : entry string;
  hashtags : entry (list string);
  likes : entry Z;
  comments_count : entry Z;
  views : entry Z;
  media_type : entry Z;
  image_url : entry string;
  image_width : entry Z;
  image_height : entry Z;
  posted_at : entry string;
  location_name : entry string;
  location_lat : entry number;
  location_lng : entry number;
  word_count : entry Z;
  storage_url : entry string;
  local_image_path : entry string
}.

(** [post["storage_url"] = url; post["local_image_path"] = url] *)
Definition set_image_paths (p : t) (url : string) : t :=
  mk (code p) (id p) (username p) (user_id p) (full_name p) (is_verified p)
     (caption p) (hashtags p) (likes p) (comments_count p) (views p)
     (media_type p) (image_url p) (image_width p) (image_height p)
     (posted_at p) (location_name p) (location_lat p) (location_lng p)
     (word_count p) (Val url) (Val url).
End Post.

(** The user dict handed to [upsert_user]: the scraper's minimal record sets
    three keys, [fetch_user_profile] sets all nine. *)
Module User.
Record t : Type := mk {
  username : entry string;
  full_name : entry string;
  bio : entry string;
  followers : entry Z;
  following : entry Z;
  post_count : entry Z;
  is_verified : entry bool;
  is_private : entry bool;
  profile_pic_url : entry string
}.
End User.

(** The comment dict built by [fetch_comments]. *)
Module Comment.
Record t : Type := mk {
  id : entry string;
  post_id : entry string;
  username : entry string;
  text : entry string;
  likes : entry Z;
  posted_at : entry string
}.

(** [c["post_id"] = code] *)
Definition set_post_id (c : t) (code : option string) : t :=
  mk (id c) (store code) (username c) (text c) (likes c) (posted_at c).
End Comment.

(** The JSON objects of the sections endpoint, as far as the code reads them. *)
Module Raw.
Record user : Type := mk_user {
  u_username : entry string;
  u_pk : entry string;
  u_full_name : entry string;
  u_is_verified : entry bool
}.

(** An image candidate. A null [width] would make [max] raise a
    [TypeError]; the payload type has the key missing or an integer. *)
Record candidate : Type := mk_candidate {
  c_url : entry string;
  c_width : option Z;
  c_height : entry Z
}.

Record location : Type := mk_location {
  l_name : entry string;
  l_lat : entry number;
  l_lng : entry number
}.

Record media : Type := mk_media {
  m_code : entry string;
  m_user : entry user;
  (** the ["text"] key of the caption object *)
  m_caption : entry (entry string);
  m_location : entry location;
  (** the ["candidates"] key of [image_versions2] *)
  m_image_versions2 : entry (entry (list candidate));
  m_taken_at : entry Z;
  m_like_count : entry Z;
  m_comment_count : entry Z;
  m_play_count : entry Z;
  m_view_count : entry Z;
  m_media_type : entry Z
}.

(** One page of [/api/v1/tags/<tag>/sections/]. A section without
    [layout_content] or [medias] is an empty list; a media wrapper without
    ["media"] is a media object with every key missing. *)
Record page : Type := mk_page {
  sections : list (list media);
  more_available : entry bool;
  next_max_id : entry string
}.

(** One page of [/api/v1/media/<pk>/comments/]. *)
Record comment : Type := mk_comment {
  cm_pk : entry string;
  cm_user : entry user;
  cm_text : entry string;
  cm_comment_like_count : entry Z;
  cm_created_at : entry Z
}.

Record comments_page : Type := mk_comments_page {
  comments : list comment;
  has_more_comments : entry bool;
  next_min_id : entry string
}.

(** The ["user"] object of [web_profile_info]; each [edge_*] field is the
    ["count"] key of the edge object. *)
Record profile : Type := mk_profile {
  p_full_name : entry string;
  p_biography : entry string;
  p_edge_followed_by : entry (entry Z);
  p_edge_follow : entry (entry Z);
  p_edge_owner_to_timeline_media : entry (entry Z);
  p_is_verified : entry bool;
  p_is_private : entry bool;
  p_profile_pic_url_hd : entry string;
  p_profile_pic_url : entry string
}.

Definition empty_user : user := mk_user Absent Absent Absent Absent.
Definition empty_location : location := mk_location Absent Absent Absent.
Definition empty_candidate : candidate := mk_candidate Absent None Absent.
End Raw.

(** ** The outside world: HTTP endpoints and the trace of effects *)

Module Net.

(** Session cookies: a key-value bag. *)
Abbreviation cookies := (gmap string string).

(** What a [requests] call produces: it raises a [RequestException], or
    yields a response with a status code, a content type and a body that
    parses as JSON (to an [A]) or does not. *)
Inductive response (A : Type) : Type :=
| RequestException (msg : string)
| Response (status_code : Z) (content_type : string) (json : option A).
Arguments RequestException {A} msg.
Arguments Response {A} status_code content_type json.

(** [r.ok]: false exactly for 4xx and 5xx. *)
Definition ok (status_code : Z) : bool :=
  negb (Z.leb 400 status_code && Z.ltb status_code 600).

(** The request of one iteration of [fetch_hashtag_posts]: the URL's
    hashtag, the form data ([tab] and, when a cursor is held, [max_id]) and
    the cookies. *)
Record request : Type := mk_request {
  rq_hashtag : string;
  rq_tab : string;
  rq_max_id : option string;
  rq_cookies : cookies
}.

(** The request of one iteration of [fetch_comments]. *)
Record comments_request : Type := mk_comments_request {
  cq_media_pk : Z;
  cq_min_id : option string;
  cq_cookies : cookies
}.

(** The servers. The hashtag and comment endpoints answer the [n]-th
    request of a call; the answer may differ from one request to the next
    even for equal parameters (rate limiting). *)
Record world : Type := mk_world {
  sections_api : nat -> request -> response Raw.page;
  comments_api : nat -> comments_request -> response Raw.comments_page;
  (** body: the ["data"]["user"] object when present and non-empty *)
  web_profile_info : string -> cookies -> response (option Raw.profile);
  (** the CDN: [None] when [http.get] raises, else status and content *)
  cdn : string -> option (Z * list Byte.byte)
}.

(** What the code does to the outside world and to storage, in order.
    Sleeps carry the bounds of [random.uniform] in milliseconds. *)
Inductive event : Type :=
| Request (n : nat) (rq : request)
| CommentsRequest (n : nat) (rq : comments_request)
| ProfileRequest (username : string)
| Download (url : string)
| Sleep (lo_ms hi_ms : Z)
| StoreImage (filename : string)
| UpsertUser (u : User.t)
| UpsertPost (p : Post.t)
| UpsertComment (c : Comment.t).

End Net.
Import Net.
(** ** api.py *)

Module Api.

(** [shortcode_to_media_pk]: [None] stands for the [ValueError] raised by
    [SHORTCODE_ALPHABET.index(char)]. The loop carries [pk]. *)
Fixpoint shortcode_loop (pk : Z) (code : string) : option Z :=
  match code with
  | EmptyString => Some pk
  | String char rest =>
      match Py.index SHORTCODE_ALPHABET char with
      | Some i => shortcode_loop (pk * 64 + i) rest
      | None => None
      end
  end.

Definition shortcode_to_media_pk (code : string) : option Z :=
  shortcode_loop 0 code.

(** [max(images, key=lambda x: x.get("width", 0))]: the first candidate of
    greatest width. *)
Definition width_key (c : Raw.candidate) : Z :=
  match Raw.c_width c with
  | Some w => w
  | None => 0
  end.

Fixpoint max_by_width (best : Raw.candidate) (rest : list Raw.candidate)
  : Raw.candidate :=
  match rest with
  | [] => best
  | c :: rest' =>
      if Z.ltb (width_key best) (width_key c)
      then max_by_width c rest'
      else max_by_width best rest'
  end.

(** The loop variables of [fetch_hashtag_posts]. *)
Record fetch_state : Type := mk_fetch_state {
  all_posts : list Post.t;
  seen_codes : gset string;
  next_cursor : option string
}.

Section WithHost.
Context `{Host}.

(** The [try] block around [datetime.fromtimestamp]: a falsy timestamp is
    not converted; [ValueError] and [OSError] leave [posted_at] at [None];
    [OverflowError] is not in the [except] clause and leaves the caller. *)
Definition posted_at_of (t : option Z) : result (option string) :=
  match t with
  | Some t =>
      if Z.eqb t 0 then Returned None
      else
        match fromtimestamp_isoformat t with
        | Isoformat s => Returned (Some s)
        | OutOfRange => Returned None
        | Overflow =>
            Raised (Exception "OverflowError"
                      "timestamp out of range for platform time_t")
        end
  | None => Returned None
  end.

(** The dict of the [return] statement of [parse_media]. *)
Definition post_dict (media : Raw.media) (posted_at : option string)
  : Post.t :=
  let user :=
    match get (Raw.m_user media) with
    | Some u => u
    | None => Raw.empty_user
    end in
  let caption :=
    or_str (match get (Raw.m_caption media) with
            | Some text => get text
            | None => None
            end) "" in
  let location :=
    match get (Raw.m_location media) with
    | Some l => l
    | None => Raw.empty_location
    end in
  let images :=
    match get (Raw.m_image_versions2 media) with
    | Some candidates => get_or candidates []
    | None => Some []
    end in
  let best_img :=
    match images with
    | Some (c :: rest) => max_by_width c rest
    | Some [] | None => Raw.empty_candidate
    end in
  Post.mk
    (store (get_or (Raw.m_code media) ""))
    (store (get_or (Raw.m_code media) ""))
    (store (get_or (Raw.u_username user) ""))
    (Val (match Raw.u_pk user with
          | Absent => ""
          | PyNone => "None"
          | Val pk => pk
          end))
    (store (get_or (Raw.u_full_name user) ""))
    (store (get_or (Raw.u_is_verified user) false))
    (Val caption)
    (Val (findall_hashtags caption))
    (Val (or_int (get (Raw.m_like_count media)) 0))
    (Val (or_int (get (Raw.m_comment_count media)) 0))
    (store (if truthy_int (get (Raw.m_play_count media))
            then get (Raw.m_play_count media)
            else get (Raw.m_view_count media)))
    (store (get_or (Raw.m_media_type media) 1))
    (store (get_or (Raw.c_url best_img) ""))
    (Val (width_key best_img))
    (store (get_or (Raw.c_height best_img) 0))
    (store posted_at)
    (store (get (Raw.l_name location)))
    (store (get (Raw.l_lat location)))
    (store (get (Raw.l_lng location)))
    (Val (split_len caption))
    Absent
    Absent.

Definition parse_media (media : Raw.media) : result Post.t :=
  match posted_at_of (get (Raw.m_taken_at media)) with
  | Raised e => Raised e
  | Returned posted_at => Returned (post_dict media posted_at)
  end.

(** The request of an iteration: [max_id] is sent only when the cursor
    held is truthy. *)
Definition page_request (hashtag tab : string) (ck : cookies)
    (st : fetch_state) : request :=
  mk_request hashtag tab
    (if truthy_str (next_cursor st) then next_cursor st else None) ck.

(** The two nested loops over one page's sections and medias: entries
    without a code, or with a code already seen in this call, are
    skipped. A code is marked as seen before its media is parsed; when
    parsing raises, the call is over. *)
Fixpoint collect_page (medias : list Raw.media) (seen : gset string)
    (page_posts : list Post.t) : result (list Post.t * gset string) :=
  match medias with
  | [] => Returned (page_posts, seen)
  | media :: rest =>
      let code := get (Raw.m_code media) in
      match code with
      | Some c =>
          if negb (truthy_str code) || bool_decide (c ∈ seen)
          then collect_page rest seen page_posts
          else
            match parse_media media with
            | Raised e => Raised e
            | Returned post =>
                collect_page rest ({[c]} ∪ seen) (page_posts ++ [post])%list
            end
      | None => collect_page rest seen page_posts
      end
  end.

(** The loop variables after a decoded page: its new posts are
    appended and the cursor is replaced by [next_max_id]. *)
Definition after_page (st : fetch_state) (result : Raw.page)
  : Py.result fetch_state :=
  match collect_page (concat (Raw.sections result)) (seen_codes st) [] with
  | Raised e => Raised e
  | Returned (page_posts, seen) =>
      Returned (mk_fetch_state (all_posts st ++ page_posts) seen
                               (get (Raw.next_max_id result)))
  end.

(** [for page in range(max_pages)]: [pages] iterations remain and the
    loop variable is [page]. Every iteration issues one request. *)
Fixpoint fetch_loop (w : world) (hashtag tab : string) (ck : cookies)
    (pages page : nat) (st : fetch_state)
  : list event * result (list Post.t) :=
  match pages with
  | O => ([], Returned (all_posts st))
  | S pages' =>
      let rq := page_request hashtag tab ck st in
      match sections_api w page rq with
      | RequestException _ =>
          ([Request page rq], Returned (all_posts st))
      | Response status_code _ json =>
          if Z.eqb status_code 429 then
            let '(evs, r) :=
              fetch_loop w hashtag tab ck pages' (S page) st in
            (Request page rq :: Sleep 30000 60000 :: evs, r)
          else if negb (ok status_code) then
            ([Request page rq], Returned (all_posts st))
          else
            match json with
            | None =>
                ([Request page rq],
                 Raised (Exception "JSONDecodeError" "Expecting value"))
            | Some result =>
                match after_page st result with
                | Raised e => ([Request page rq], Raised e)
                | Returned st' =>
                    match get_or (Raw.more_available result) false with
                    | Some true =>
                        let '(evs, r) :=
                          fetch_loop w hashtag tab ck pages' (S page) st' in
                        (Request page rq :: Sleep 1500 3000 :: evs, r)
                    | Some false | None =>
                        ([Request page rq], Returned (all_posts st'))
                    end
                end
            end
      end
  end.

Definition fetch_hashtag_posts (w : world) (hashtag : string)
    (ck : cookies) (max_pages : Z) (tab : string)
  : list event * result (list Post.t) :=
  fetch_loop w hashtag tab ck (Z.to_nat max_pages) 0%nat
             (mk_fetch_state [] ∅ None).

(** One entry of a comments page as the dict [fetch_comments] appends. *)
Definition comment_dict (post_code : string) (c : Raw.comment)
    (posted_at : option string) : Comment.t :=
  let user :=
    match get (Raw.cm_user c) with
    | Some u => u
    | None => Raw.empty_user
    end in
  Comment.mk
    (Val (match Raw.cm_pk c with
          | Absent => ""
          | PyNone => "None"
          | Val pk => pk
          end))
    (Val post_code)
    (store (get_or (Raw.u_username user) ""))
    (store (get_or (Raw.cm_text c) ""))
    (Val (or_int (get (Raw.cm_comment_like_count c)) 0))
    (store posted_at).

Definition parse_comment (post_code : string) (c : Raw.comment)
  : result Comment.t :=
  match posted_at_of (get (Raw.cm_created_at c)) with
  | Raised e => Raised e
  | Returned posted_at => Returned (comment_dict post_code c posted_at)
  end.

(** [for c in result.get("comments", [])]: the comments of one page,
    appended in order. *)
Fixpoint parse_comments (post_code : string) (cs : list Raw.comment)
    (all_comments : list Comment.t) : result (list Comment.t) :=
  match cs with
  | [] => Returned all_comments
  | c :: rest =>
      match parse_comment post_code c with
      | Raised e => Raised e
      | Returned comment =>
          parse_comments post_code rest (all_comments ++ [comment])%list
      end
  end.

Fixpoint comments_loop (w : world) (post_code : string) (media_pk : Z)
    (ck : cookies) (pages page : nat)
    (all_comments : list Comment.t) (min_id : option string)
  : list event * result (list Comment.t) :=
  match pages with
  | O => ([], Returned all_comments)
  | S pages' =>
      let rq :=
        mk_comments_request media_pk
          (if truthy_str min_id then min_id else None) ck in
      match comments_api w page rq with
      | RequestException _ =>
          ([CommentsRequest page rq], Returned all_comments)
      | Response status_code content_type json =>
          if Z.eqb status_code 429 then
            let '(evs, r) :=
              comments_loop w post_code media_pk ck pages' (S page)
                            all_comments min_id in
            (CommentsRequest page rq :: Sleep 30000 60000 :: evs, r)
          else if negb (ok status_code) then
            ([CommentsRequest page rq], Returned all_comments)
          else if negb (contains "json" content_type) then
            ([CommentsRequest page rq], Returned all_comments)
          else
            match json with
            | None =>
                ([CommentsRequest page rq],
                 Raised (Exception "JSONDecodeError" "Expecting value"))
            | Some result =>
                match parse_comments post_code (Raw.comments result)
                                     all_comments with
                | Raised e => ([CommentsRequest page rq], Raised e)
                | Returned all_comments' =>
                    match get (Raw.has_more_comments result) with
                    | Some true =>
                        let min_id' := get (Raw.next_min_id result) in
                        if truthy_str min_id' then
                          let '(evs, r) :=
                            comments_loop w post_code media_pk ck pages'
                                          (S page) all_comments' min_id' in
                          (CommentsRequest page rq :: Sleep 1000 2000 :: evs,
                           r)
                        else
                          ([CommentsRequest page rq],
                           Returned all_comments')
                    | Some false | None =>
                        ([CommentsRequest page rq], Returned all_comments')
                    end
                end
            end
      end
  end.

Definition fetch_comments (w : world) (post_code : string) (ck : cookies)
    (max_pages : Z) : list event * result (list Comment.t) :=
  match shortcode_to_media_pk post_code with
  | None =>
      ([], Raised (Exception "ValueError" "substring not found"))
  | Some media_pk =>
      comments_loop w post_code media_pk ck (Z.to_nat max_pages) 0%nat
                    [] None
  end.

(** [fetch_user_profile]: [None] on a transport failure, a non-success
    status or a body without a user object. *)
Definition edge_count (edge : entry (entry Z)) : option Z :=
  match get edge with
  | Some count => get count
  | None => None
  end.

Definition fetch_user_profile (w : world) (username : string)
    (ck : cookies) : list event * result (option User.t) :=
  match web_profile_info w username ck with
  | RequestException _ => ([ProfileRequest username], Returned None)
  | Response status_code _ json =>
      if negb (ok status_code) then
        ([ProfileRequest username], Returned None)
      else
        match json with
        | None =>
            ([ProfileRequest username],
             Raised (Exception "JSONDecodeError" "Expecting value"))
        | Some None => ([ProfileRequest username], Returned None)
        | Some (Some user) =>
            ([ProfileRequest username],
             Returned (Some (User.mk
               (Val username)
               (Val (or_str (get (Raw.p_full_name user)) ""))
               (Val (or_str (get (Raw.p_biography user)) ""))
               (store (edge_count (Raw.p_edge_followed_by user)))
               (store (edge_count (Raw.p_edge_follow user)))
               (store (edge_count (Raw.p_edge_owner_to_timeline_media user)))
               (store (get_or (Raw.p_is_verified user) false))
               (store (get_or (Raw.p_is_private user) false))
               (store (if truthy_str (get (Raw.p_profile_pic_url_hd user))
                       then get (Raw.p_profile_pic_url_hd user)
                       else get (Raw.p_profile_pic_url user))))))
        end
  end.

End WithHost.

End Api.

(** ** storage/base.py *)

Module StorageBackend.

(** The interface every backend implements. [S] is the backend's state;
    a method that mutates the backend returns the new state, also when it
    raises. The methods that hand parameters to a database or write a file
    may raise; the three reads of the local backends cannot. The entry of
    [get_posts_needing_comments] is the dict with keys [code] and
    [comments_count]. *)
Class t (S : Type) : Type := {
  upsert_post : Post.t -> S -> result bool * S;
  upsert_user : User.t -> S -> result bool * S;
  upsert_comment : Comment.t -> S -> result bool * S;
  get_existing_codes : S -> gset (option string);
  get_enriched_users : S -> gset (option string);
  get_post_count : S -> Z;
  get_posts_needing_comments :
    Z -> S -> result (list (option string * option Z));
  store_image : list Byte.byte -> string -> S -> result (option string) * S;
  close : S -> S
}.

(** The base class's [store_image]: optional, returns [None]. *)
Definition default_store_image {S : Type} (image_bytes : list Byte.byte)
    (filename : string) (s : S) : result (option string) * S :=
  (Returned None, s).

End StorageBackend.

(** ** storage/sqlite_store.py *)

(** The rows of the three tables, without their primary key column. A cell is
    an [option]: [None] is SQL NULL. A REAL cell holds the number that was
    bound to it (SQLite stores its conversion to a double; no statement of
    the module reads it back). The [scraped_at] columns are filled by the
    database clock on insert and no statement of the module reads or updates
    them; they are left out. *)
Module PostRow.
(** The text [json.dumps] writes for the hashtags parameter. *)
Inductive json_text : Type :=
| JsonNull
| JsonList (l : list string).

Record t : Type := mk {
  username : option string;
  caption : option string;
  hashtags : json_text;
  image_url : option string;
  local_image_path : option string;
  media_type : option Z;
  likes : option Z;
  comments_count : option Z;
  views : option Z;
  location_name : option string;
  location_lat : option number;
  location_lng : option number;
  posted_at : option string;
  word_count : option Z
}.
End PostRow.

Module UserRow.
Record t : Type := mk {
  full_name : option string;
  bio : option string;
  followers : option Z;
  following : option Z;
  post_count : option Z;
  is_verified : option bool;
  is_private : option bool;
  profile_pic_url : option string
}.
End UserRow.

Module CommentRow.
Record t : Type := mk {
  post_id : option string;
  username : option string;
  text : option string;
  likes : option Z;
  posted_at : option string
}.
End CommentRow.

Module SQLiteStorage.

(** A table with a [TEXT PRIMARY KEY]: the rows with a key, and the rows
    whose key is NULL (SQLite admits them in a non-integer primary key of
    a rowid table, and NULLs never conflict with each other). *)
Record table (R : Type) : Type := mk_table {
  keyed : gmap string R;
  null_key : list R
}.
Arguments mk_table {R} keyed null_key.
Arguments keyed {R} t.
Arguments null_key {R} t.

Definition empty_table {R : Type} : table R := mk_table ∅ [].

(** The database and the [images/] directory next to it. [write_image]
    is the file system as [store_image] meets it: for a file name, the path
    written, as [str(path)] renders it, or the [OSError] that [mkdir] or
    [write_bytes] raises (a name with a directory part that does not
    exist). *)
Record t : Type := mk {
  posts : table PostRow.t;
  users : table UserRow.t;
  comments : table CommentRow.t;
  write_image : string -> result string;
  images : gmap string (list Byte.byte)
}.

(** [__init__] on a fresh database file. *)
Definition init (write_image : string -> result string) : t :=
  mk empty_table empty_table empty_table write_image ∅.

(** Binding a parameter: the [sqlite3] module converts a Python [int] to a
    64-bit SQLite INTEGER and raises [OverflowError] when it does not fit.
    [OverflowError] is not a [sqlite3.Error]. *)
Definition binds_int (o : option Z) : bool :=
  match o with
  | Some z => int64 z
  | None => true
  end.

Definition binds_number (o : option number) : bool :=
  match o with
  | Some (Int z) => int64 z
  | Some (Float _) | None => true
  end.

Definition OverflowError : exn :=
  Exception "OverflowError"
            "Python int too large to convert to SQLite INTEGER".

(** [COALESCE(excluded.x, t.x)] *)
Definition COALESCE {A} (excluded current : option A) : option A :=
  match excluded with
  | Some _ => excluded
  | None => current
  end.

(** [INSERT ... ON CONFLICT(key) DO UPDATE SET ...]: a NULL key is
    inserted as a new row; a key already present is updated by
    [on_conflict excluded current]. *)
Definition insert_on_conflict {R : Type} (key : option string)
    (excluded : R) (on_conflict : R -> R -> R) (tb : table R) : table R :=
  match key with
  | None => mk_table (keyed tb) (null_key tb ++ [excluded])
  | Some k =>
      match keyed tb !! k with
      | Some current =>
          mk_table (<[k := on_conflict excluded current]> (keyed tb))
                   (null_key tb)
      | None => mk_table (<[k := excluded]> (keyed tb)) (null_key tb)
      end
  end.

(** The parameter tuple of [upsert_post], after the key. *)
Definition post_params (post : Post.t) : PostRow.t :=
  PostRow.mk
    (get (Post.username post))
    (get_or (Post.caption post) "")
    (match get_or (Post.hashtags post) [] with
     | Some l => PostRow.JsonList l
     | None => PostRow.JsonNull
     end)
    (get (Post.image_url post))
    (get (Post.local_image_path post))
    (get_or (Post.media_type post) 1)
    (get_or (Post.likes post) 0)
    (get_or (Post.comments_count post) 0)
    (get (Post.views post))
    (get (Post.location_name post))
    (get (Post.location_lat post))
    (get (Post.location_lng post))
    (get (Post.posted_at post))
    (get_or (Post.word_count post) 0).

(** [DO UPDATE SET likes=excluded.likes,
    comments_count=excluded.comments_count, views=excluded.views] *)
Definition post_on_conflict (excluded current : PostRow.t) : PostRow.t :=
  PostRow.mk
    (PostRow.username current)
    (PostRow.caption current)
    (PostRow.hashtags current)
    (PostRow.image_url current)
    (PostRow.local_image_path current)
    (PostRow.media_type current)
    (PostRow.likes excluded)
    (PostRow.comments_count excluded)
    (PostRow.views excluded)
    (PostRow.location_name current)
    (PostRow.location_lat current)
    (PostRow.location_lng current)
    (PostRow.posted_at current)
    (PostRow.word_count current).

Definition post_binds (row : PostRow.t) : bool :=
  binds_int (PostRow.media_type row) && binds_int (PostRow.likes row)
  && binds_int (PostRow.comments_count row) && binds_int (PostRow.views row)
  && binds_number (PostRow.location_lat row)
  && binds_number (PostRow.location_lng row)
  && binds_int (PostRow.word_count row).

(** Once the parameters are bound the statement cannot fail, so the
    [sqlite3.Error] handler (which returns [False]) is never entered; an
    [OverflowError] raised while binding passes it by, and nothing is
    written. *)
Definition upsert_post (post : Post.t) (s : t) : result bool * t :=
  if post_binds (post_params post) then
    (Returned true,
     mk (insert_on_conflict (get (Post.code post)) (post_params post)
                            post_on_conflict (posts s))
        (users s) (comments s) (write_image s) (images s))
  else (Raised OverflowError, s).

Definition user_params (user : User.t) : UserRow.t :=
  UserRow.mk
    (get_or (User.full_name user) "")
    (get (User.bio user))
    (get (User.followers user))
    (get (User.following user))
    (get (User.post_count user))
    (get_or (User.is_verified user) false)
    (get_or (User.is_private user) false)
    (get (User.profile_pic_url user)).

(** The [DO UPDATE SET] list of [upsert_user]; [is_private] is not in it. *)
Definition user_on_conflict (excluded current : UserRow.t) : UserRow.t :=
  UserRow.mk
    (COALESCE (UserRow.full_name excluded) (UserRow.full_name current))
    (COALESCE (UserRow.bio excluded) (UserRow.bio current))
    (COALESCE (UserRow.followers excluded) (UserRow.followers current))
    (COALESCE (UserRow.following excluded) (UserRow.following current))
    (COALESCE (UserRow.post_count excluded) (UserRow.post_count current))
    (UserRow.is_verified excluded)
    (UserRow.is_private current)
    (COALESCE (UserRow.profile_pic_url excluded)
              (UserRow.profile_pic_url current)).

Definition user_binds (row : UserRow.t) : bool :=
  binds_int (UserRow.followers row) && binds_int (UserRow.following row)
  && binds_int (UserRow.post_count row).

Definition upsert_user (user : User.t) (s : t) : result bool * t :=
  if user_binds (user_params user) then
    (Returned true,
     mk (posts s)
        (insert_on_conflict (get (User.username user)) (user_params user)
                            user_on_conflict (users s))
        (comments s) (write_image s) (images s))
  else (Raised OverflowError, s).

Definition comment_params (comment : Comment.t) : CommentRow.t :=
  CommentRow.mk
    (get (Comment.post_id comment))
    (get_or (Comment.username comment) "")
    (get_or (Comment.text comment) "")
    (get_or (Comment.likes comment) 0)
    (get (Comment.posted_at comment)).

Definition comment_on_conflict (excluded current : CommentRow.t)
  : CommentRow.t :=
  CommentRow.mk
    (CommentRow.post_id current)
    (CommentRow.username current)
    (CommentRow.text current)
    (CommentRow.likes excluded)
    (CommentRow.posted_at current).

Definition comment_binds (row : CommentRow.t) : bool :=
  binds_int (CommentRow.likes row).

Definition upsert_comment (comment : Comment.t) (s : t) : result bool * t :=
  if comment_binds (comment_params comment) then
    (Returned true,
     mk (posts s) (users s)
        (insert_on_conflict (get (Comment.id comment))
                            (comment_params comment)
                            comment_on_conflict (comments s))
        (write_image s) (images s))
  else (Raised OverflowError, s).

(** The key column of a table as a Python set: [None] is in it when a row
    has a NULL key. *)
Definition key_set {R : Type} (tb : table R) : gset (option string) :=
  set_map Some (dom (keyed tb))
  ∪ (match null_key tb with
     | [] => ∅
     | _ :: _ => {[None]}
     end).

(** [SELECT code FROM posts] *)
Definition get_existing_codes (s : t) : gset (option string) :=
  key_set (posts s).

Definition is_enriched (r : UserRow.t) : bool :=
  match UserRow.followers r with
  | Some _ => true
  | None => false
  end.

(** [SELECT username FROM users WHERE followers IS NOT NULL] *)
Definition get_enriched_users (s : t) : gset (option string) :=
  key_set (mk_table (filter (fun kr => is_enriched kr.2 = true)
                            (keyed (users s)))
                    (List.filter is_enriched (null_key (users s)))).

(** [SELECT COUNT( * ) FROM posts] *)
Definition get_post_count (s : t) : Z :=
  Z.of_nat (size (keyed (posts s)) + length (null_key (posts s))).

(** [ORDER BY likes DESC]: NULL sorts below every integer. SQL leaves the
    order among rows of equal [likes] to the engine; here such rows keep
    their scan order, and no statement below depends on it. *)
Definition likes_ltb (a b : option Z) : bool :=
  match a, b with
  | None, Some _ => true
  | Some x, Some y => Z.ltb x y
  | _, None => false
  end.

Fixpoint insert_by_likes (x : option string * PostRow.t)
    (sorted : list (option string * PostRow.t))
  : list (option string * PostRow.t) :=
  match sorted with
  | [] => [x]
  | y :: rest =>
      if likes_ltb (PostRow.likes y.2) (PostRow.likes x.2)
      then x :: y :: rest
      else y :: insert_by_likes x rest
  end.

Definition order_by_likes_desc (rows : list (option string * PostRow.t))
  : list (option string * PostRow.t) :=
  foldr insert_by_likes [] rows.

(** [SELECT DISTINCT post_id FROM comments WHERE post_id IS NOT NULL] *)
Definition commented_posts (s : t) : gset string :=
  list_to_set
    (omap CommentRow.post_id
          ((map_to_list (keyed (comments s))).*2 ++ null_key (comments s))%list).

(** [p.comments_count > 0 AND p.code NOT IN (...)]: for a NULL code the
    [NOT IN] is true only over the empty set. *)
Definition needs_comments (with_comments : gset string)
    (p : option string * PostRow.t) : bool :=
  match PostRow.comments_count p.2 with
  | Some n => Z.ltb 0 n
  | None => false
  end
  && match p.1 with
     | Some c => negb (bool_decide (c ∈ with_comments))
     | None => bool_decide (with_comments = ∅)
     end.

(** [LIMIT ?]: a negative limit is no limit. *)
Definition LIMIT {A} (limit : Z) (rows : list A) : list A :=
  if Z.ltb limit 0 then rows else take (Z.to_nat limit) rows.

(** The limit is a bound parameter like any other. *)
Definition get_posts_needing_comments (limit : Z) (s : t)
  : result (list (option string * option Z)) :=
  if int64 limit then
    let scan :=
      (map (fun kr => (Some kr.1, kr.2)) (map_to_list (keyed (posts s)))
       ++ map (fun r => (None, r)) (null_key (posts s)))%list in
    Returned
      (map (fun p => (p.1, PostRow.comments_count p.2))
           (LIMIT limit
              (order_by_likes_desc
                 (List.filter (needs_comments (commented_posts s)) scan))))
  else Raised OverflowError.

(** [store_image]: writes [<db dir>/images/<filename>] and returns the
    path. *)
Definition store_image (image_bytes : list Byte.byte) (filename : string)
    (s : t) : result (option string) * t :=
  match write_image s filename with
  | Returned path =>
      (Returned (Some path),
       mk (posts s) (users s) (comments s) (write_image s)
          (<[path := image_bytes]> (images s)))
  | Raised e => (Raised e, s)
  end.

Definition close (s : t) : t := s.

#[global] Instance backend : StorageBackend.t t := {
  StorageBackend.upsert_post := upsert_post;
  StorageBackend.upsert_user := upsert_user;
  StorageBackend.upsert_comment := upsert_comment;
  StorageBackend.get_existing_codes := get_existing_codes;
  StorageBackend.get_enriched_users := get_enriched_users;
  StorageBackend.get_post_count := get_post_count;
  StorageBackend.get_posts_needing_comments := get_posts_needing_comments;
  StorageBackend.store_image := store_image;
  StorageBackend.close := close
}.

End SQLiteStorage.

(** ** storage/json_store.py *)

Module JSONStorage.

(** The output directory, as far as the backend touches it: the files
    whose names match [posts_*.json], [users_*.json] and [comments_*.json],
    each kind keyed by the part of the name that [*] stands for. The content
    of a posts file is [None] when [json.loads] rejects it. A file is
    written with [open(path, "w")]: writing under a name that exists
    replaces the file. *)
Record dir : Type := mk_dir {
  posts_files : gmap string (option (list Post.t));
  users_files : gmap string (list User.t);
  comments_files : gmap string (list Comment.t)
}.

Definition empty_dir : dir := mk_dir ∅ ∅ ∅.

(** The backend and the host clock it reads: [now n] is the text of
    [datetime.now().strftime("%Y%m%d_%H%M%S")] at the [n]-th reading, and
    [clock_reads] counts the readings made. The text has a resolution of
    one second, so successive readings may be equal. *)
Record t : Type := mk {
  output_dir : dir;
  _posts : list Post.t;
  _users : list User.t;
  _comments : list Comment.t;
  _existing_codes : gset (option string);
  now : nat -> string;
  clock_reads : nat
}.

(** [_load_existing]: the truthy codes of every readable posts file. *)
Definition codes_of_file (data : option (list Post.t))
  : list (option string) :=
  match data with
  | Some data =>
      List.filter truthy_str (map (fun p => get (Post.code p)) data)
  | None => []
  end.

Definition _load_existing (d : dir) : gset (option string) :=
  list_to_set
    (concat (map (fun kv => codes_of_file kv.2)
                 (map_to_list (posts_files d)))).

(** [__init__] on an output directory. *)
Definition init (d : dir) (now : nat -> string) : t :=
  mk d [] [] [] (_load_existing d) now 0.

Definition _flush_posts (s : t) : t :=
  match _posts s with
  | [] => s
  | _ :: _ =>
      let ts := now s (clock_reads s) in
      mk (mk_dir (<[ts := Some (_posts s)]> (posts_files (output_dir s)))
                 (users_files (output_dir s))
                 (comments_files (output_dir s)))
         [] (_users s) (_comments s) (_existing_codes s)
         (now s) (S (clock_reads s))
  end.

Definition _flush_users (s : t) : t :=
  match _users s with
  | [] => s
  | _ :: _ =>
      let ts := now s (clock_reads s) in
      mk (mk_dir (posts_files (output_dir s))
                 (<[ts := _users s]> (users_files (output_dir s)))
                 (comments_files (output_dir s)))
         (_posts s) [] (_comments s) (_existing_codes s)
         (now s) (S (clock_reads s))
  end.

Definition _flush_comments (s : t) : t :=
  match _comments s with
  | [] => s
  | _ :: _ =>
      let ts := now s (clock_reads s) in
      mk (mk_dir (posts_files (output_dir s))
                 (users_files (output_dir s))
                 (<[ts := _comments s]> (comments_files (output_dir s))))
         (_posts s) (_users s) [] (_existing_codes s)
         (now s) (S (clock_reads s))
  end.

Definition upsert_post (post : Post.t) (s : t) : result bool * t :=
  let s1 :=
    mk (output_dir s) (_posts s ++ [post]) (_users s) (_comments s)
       ({[get_or (Post.code post) ""]} ∪ _existing_codes s)
       (now s) (clock_reads s) in
  (Returned true,
   if Nat.leb 100 (length (_posts s1)) then _flush_posts s1 else s1).

Definition upsert_user (user : User.t) (s : t) : result bool * t :=
  let s1 :=
    mk (output_dir s) (_posts s) (_users s ++ [user]) (_comments s)
       (_existing_codes s) (now s) (clock_reads s) in
  (Returned true,
   if Nat.leb 100 (length (_users s1)) then _flush_users s1 else s1).

Definition upsert_comment (comment : Comment.t) (s : t) : result bool * t :=
  let s1 :=
    mk (output_dir s) (_posts s) (_users s) (_comments s ++ [comment])
       (_existing_codes s) (now s) (clock_reads s) in
  (Returned true,
   if Nat.leb 100 (length (_comments s1)) then _flush_comments s1 else s1).

(** Returns the set object itself; callers in this package only read it
    before the next [upsert_post]. *)
Definition get_existing_codes (s : t) : gset (option string) :=
  _existing_codes s.

Definition get_enriched_users (s : t) : gset (option string) := ∅.

Definition get_post_count (s : t) : Z :=
  Z.of_nat (size (_existing_codes s) + length (_posts s)).

Definition get_posts_needing_comments (limit : Z) (s : t)
  : result (list (option string * option Z)) := Returned [].

Definition close (s : t) : t :=
  _flush_comments (_flush_users (_flush_posts s)).

#[global] Instance backend : StorageBackend.t t := {
  StorageBackend.upsert_post := upsert_post;
  StorageBackend.upsert_user := upsert_user;
  StorageBackend.upsert_comment := upsert_comment;
  StorageBackend.get_existing_codes := get_existing_codes;
  StorageBackend.get_enriched_users := get_enriched_users;
  StorageBackend.get_post_count := get_post_count;
  StorageBackend.get_posts_needing_comments := get_posts_needing_comments;
  StorageBackend.store_image := StorageBackend.default_store_image;
  StorageBackend.close := close
}.

End JSONStorage.

(** ** scraper.py *)

Module Scraper.

(** [download_image]: [None] for an empty URL, a failed request or a status
    other than 200. *)
Definition download_image (w : world) (image_url : string)
  : list event * option (list Byte.byte) :=
  if String.eqb image_url "" then ([], None)
  else
    match cdn w image_url with
    | Some (status_code, content) =>
        ([Download image_url],
         if Z.eqb status_code 200 then Some content else None)
    | None => ([Download image_url], None)
    end.

(** [f"{post['code']}.jpg"] *)
Definition jpg_name (code : option string) : string :=
  (match code with
   | Some c => c
   | None => "None"
   end ++ ".jpg")%string.

(** The minimal user record of a post's author. *)
Definition minimal_user (username : string) (post : Post.t) : User.t :=
  User.mk (Val username)
          (store (get_or (Post.full_name post) ""))
          Absent Absent Absent Absent
          (store (get_or (Post.is_verified post) false))
          Absent Absent.

Section WithBackend.
Context `{Host} {S : Type} `{StorageBackend.t S}.

(** A computation over the backend: its events, its result and the
    backend it leaves behind (also when it raises). *)
Definition outcome (A : Type) : Type := list event * result A * S.

(** [[p for p in posts if p["code"] not in existing_codes]] *)
Fixpoint select_new (posts : list Post.t)
    (existing_codes : gset (option string)) : result (list Post.t) :=
  match posts with
  | [] => Returned []
  | p :: rest =>
      match subscript "code" (Post.code p) with
      | Raised e => Raised e
      | Returned code =>
          match select_new rest existing_codes with
          | Raised e => Raised e
          | Returned new_posts =>
              Returned (if bool_decide (code ∈ existing_codes)
                        then new_posts
                        else p :: new_posts)
          end
      end
  end.

(** The image step of one post: download, store, and record the URL in
    the post. *)
Definition attach_image (w : world) (download_images : bool)
    (post : Post.t) (s : S) : outcome Post.t :=
  if download_images && truthy_str (get (Post.image_url post)) then
    let '(evs, img_bytes) :=
      download_image w (or_str (get (Post.image_url post)) "") in
    match img_bytes with
    | Some (b :: bs) =>
        match subscript "code" (Post.code post) with
        | Raised e => (evs, Raised e, s)
        | Returned code =>
            match StorageBackend.store_image (b :: bs) (jpg_name code) s with
            | (Raised e, s') =>
                ((evs ++ [StoreImage (jpg_name code)])%list, Raised e, s')
            | (Returned url, s') =>
                ((evs ++ [StoreImage (jpg_name code)])%list,
                 Returned (if truthy_str url
                           then Post.set_image_paths post (or_str url "")
                           else post),
                 s')
            end
        end
    | Some [] | None => (evs, Returned post, s)
    end
  else ([], Returned post, s).

(** [if username: storage.upsert_user({...}); users_seen.add(username)] *)
Definition upsert_author (username : string) (post : Post.t) (s : S)
    (users_seen : gset string) : outcome (gset string) :=
  if negb (String.eqb username "") then
    let user := minimal_user username post in
    match StorageBackend.upsert_user user s with
    | (Raised e, s') => ([UpsertUser user], Raised e, s')
    | (Returned _, s') =>
        ([UpsertUser user], Returned ({[username]} ∪ users_seen), s')
    end
  else ([], Returned users_seen, s).

(** [for i, post in enumerate(new_posts)]. The value [upsert_post]
    returns is not looked at. *)
Fixpoint store_posts (w : world) (download_images : bool)
    (new_posts : list Post.t) (s : S) (users_seen : gset string)
    (stored : Z) : outcome (gset string * Z) :=
  match new_posts with
  | [] => ([], Returned (users_seen, stored), s)
  | post :: rest =>
      let username := or_str (get (Post.username post)) "" in
      match attach_image w download_images post s with
      | (evs, Raised e, s1) => (evs, Raised e, s1)
      | (evs, Returned post1, s1) =>
          match upsert_author username post1 s1 users_seen with
          | (evs_user, Raised e, s2) => ((evs ++ evs_user)%list, Raised e, s2)
          | (evs_user, Returned users_seen', s2) =>
              match StorageBackend.upsert_post post1 s2 with
              | (Raised e, s3) =>
                  ((evs ++ evs_user ++ [UpsertPost post1])%list,
                   Raised e, s3)
              | (Returned _, s3) =>
                  let '(evs_rest, r, s4) :=
                    store_posts w download_images rest s3 users_seen'
                                (stored + 1) in
                  ((evs ++ evs_user ++ UpsertPost post1 :: Sleep 300 800
                        :: evs_rest)%list, r, s4)
              end
          end
      end
  end.

(** [for j, uname in enumerate(to_enrich)]. The log line formats
    [profile.get('followers', 0)] with [:,], which raises a [TypeError]
    when the profile holds [None] there. *)
Fixpoint enrich (w : world) (ck : cookies) (to_enrich : list string)
    (s : S) : outcome unit :=
  match to_enrich with
  | [] => ([], Returned tt, s)
  | uname :: rest =>
      match Api.fetch_user_profile w uname ck with
      | (evs, Raised e) => (evs, Raised e, s)
      | (evs, Returned None) =>
          let '(evs_rest, r, s') := enrich w ck rest s in
          ((evs ++ Sleep 1500 3000 :: evs_rest)%list, r, s')
      | (evs, Returned (Some profile)) =>
          match StorageBackend.upsert_user profile s with
          | (Raised e, s1) =>
              ((evs ++ [UpsertUser profile])%list, Raised e, s1)
          | (Returned _, s1) =>
              match get_or (User.followers profile) 0 with
              | None =>
                  ((evs ++ [UpsertUser profile])%list,
                   Raised (Exception "TypeError"
                             "unsupported format string passed to NoneType.__format__"),
                   s1)
              | Some _ =>
                  let '(evs_rest, r, s') := enrich w ck rest s1 in
                  ((evs ++ UpsertUser profile :: Sleep 1500 3000
                        :: evs_rest)%list, r, s')
              end
          end
      end
  end.

(** [users_seen - enriched], in the iteration order of the set. *)
Definition to_enrich (users_seen : gset string)
    (enriched : gset (option string)) : list string :=
  List.filter (fun u => negb (bool_decide (Some u ∈ enriched)))
              (elements users_seen).

Definition scrape_hashtag (w : world) (hashtag : string) (ck : cookies)
    (storage : S) (max_pages : Z) (tab : string)
    (download_images enrich_users : bool) : outcome Z :=
  let existing_codes := StorageBackend.get_existing_codes storage in
  match Api.fetch_hashtag_posts w hashtag ck max_pages tab with
  | (evs, Raised e) => (evs, Raised e, storage)
  | (evs, Returned posts) =>
      match select_new posts existing_codes with
      | Raised e => (evs, Raised e, storage)
      | Returned [] => (evs, Returned 0, storage)
      | Returned (p :: ps) =>
          match store_posts w download_images (p :: ps) storage ∅ 0 with
          | (evs1, Raised e, s1) => ((evs ++ evs1)%list, Raised e, s1)
          | (evs1, Returned (users_seen, stored), s1) =>
              if enrich_users then
                let enriched := StorageBackend.get_enriched_users s1 in
                match enrich w ck (to_enrich users_seen enriched) s1 with
                | (evs2, Raised e, s2) =>
                    ((evs ++ evs1 ++ evs2)%list, Raised e, s2)
                | (evs2, Returned _, s2) =>
                    ((evs ++ evs1 ++ evs2)%list, Returned stored, s2)
                end
              else ((evs ++ evs1)%list, Returned stored, s1)
          end
      end
  end.

(** [for c in comments: c["post_id"] = code; storage.upsert_comment(c)] *)
Fixpoint store_comments (code : string) (comments : list Comment.t)
    (s : S) : outcome unit :=
  match comments with
  | [] => ([], Returned tt, s)
  | c :: rest =>
      let c' := Comment.set_post_id c (Some code) in
      match StorageBackend.upsert_comment c' s with
      | (Raised e, s') => ([UpsertComment c'], Raised e, s')
      | (Returned _, s') =>
          let '(evs, r, s'') := store_comments code rest s' in
          (UpsertComment c' :: evs, r, s'')
      end
  end.

(** [for i, post in enumerate(to_scrape)]; [fetch_comments] runs with
    its default of three pages. A [None] code cannot be iterated by
    [shortcode_to_media_pk]. *)
Fixpoint comments_of_posts (w : world) (ck : cookies)
    (to_scrape : list (option string * option Z)) (s : S) (total : Z)
  : outcome Z :=
  match to_scrape with
  | [] => ([], Returned total, s)
  | post :: rest =>
      match post.1 with
      | None =>
          ([], Raised (Exception "TypeError"
                         "'NoneType' object is not iterable"), s)
      | Some code =>
          match Api.fetch_comments w code ck 3 with
          | (evs, Raised e) => (evs, Raised e, s)
          | (evs, Returned comments) =>
              match store_comments code comments s with
              | (evs_store, Raised e, s1) =>
                  ((evs ++ evs_store)%list, Raised e, s1)
              | (evs_store, Returned _, s1) =>
                  let '(evs_rest, r, s2) :=
                    comments_of_posts w ck rest s1
                      (total + Z.of_nat (length comments)) in
                  ((evs ++ evs_store ++ Sleep 1500 3000 :: evs_rest)%list,
                   r, s2)
              end
          end
      end
  end.

Definition scrape_comments_batch (w : world) (ck : cookies) (storage : S)
    (limit : Z) : outcome Z :=
  match StorageBackend.get_posts_needing_comments limit storage with
  | Raised e => ([], Raised e, storage)
  | Returned [] => ([], Returned 0, storage)
  | Returned to_scrape => comments_of_posts w ck to_scrape storage 0
  end.

End WithBackend.

End Scraper.

(** ** daemon.py *)

Module Daemon.

(** The calls the daemon makes, in order. [GetPostCount] carries the value
    read; sleeps carry the bounds of the interval in milliseconds. *)
Inductive action : Type :=
| WritePid
| UnlinkPid
| Close
| LoadCookies
| RefreshCookies
| GetPostCount (db_count : Z)
| Shuffle
| Sample (k : nat)
| CallScrapeHashtag (tag : string) (max_pages : Z) (tab : string)
                    (download_images enrich_users : bool)
| CallScrapeCommentsBatch (limit : Z)
| TimeSleep (lo_ms hi_ms : Z).

(** What the daemon runs against. [running] is the flag the signal
    handler clears; a signal may arrive during any call, so every
    operation yields a new world. *)
Class Env (W : Type) : Type := {
  running : W -> bool;
  get_post_count : W -> Z;
  scrape_hashtag :
    string -> cookies -> Z -> string -> bool -> bool -> W -> result Z * W;
  scrape_comments_batch : cookies -> Z -> W -> result Z * W;
  shuffle : list string -> W -> list string * W;
  sample : list string -> nat -> W -> list string * W;
  sleep : Z -> Z -> W -> W;
  load_cookies : string -> W -> result cookies * W;
  refresh_cookies : string -> W -> result cookies * W;
  close : W -> W
}.

(** [except Exception] does not catch [SystemExit]. *)
Definition is_Exception (e : exn) : bool :=
  match e with
  | Exception _ _ => true
  | SystemExit _ => false
  end.

(** ["login" in str(e).lower() or "401" in str(e)] *)
Definition session_expired (e : exn) : bool :=
  contains "login" (lower (str_exn e)) || contains "401" (str_exn e).

(** How one pass through the body of [while running] ends. *)
Inductive cycle_end : Type :=
| NextCycle
| BreakLoop.

Section WithEnv.
Context {W : Type} `{Env W}.

(** The daemon's variables: the world (storage, network, signals) and
    the [cookies] local. *)
Record dstate : Type := mk_dstate {
  world : W;
  cookies_now : cookies
}.

(** Daemon computations: the actions performed, the result or the
    exception raised, and the state left behind. *)
Definition M (A : Type) : Type :=
  dstate -> list action * result A * dstate.

Definition ret {A} (a : A) : M A := fun s => ([], Returned a, s).

Definition raise {A} (e : exn) : M A := fun s => ([], Raised e, s).

Definition bind {A B} (m : M A) (k : A -> M B) : M B :=
  fun s =>
    match m s with
    | (acts, Raised e, s1) => (acts, Raised e, s1)
    | (acts, Returned a, s1) =>
        let '(acts2, r, s2) := k a s1 in ((acts ++ acts2)%list, r, s2)
    end.

(** [try: body except Exception as e: handler(e)] *)
Definition try_except {A} (body : M A) (handler : exn -> M A) : M A :=
  fun s =>
    match body s with
    | (acts, Raised e, s1) =>
        if is_Exception e then
          let '(acts2, r, s2) := handler e s1 in
          ((acts ++ acts2)%list, r, s2)
        else (acts, Raised e, s1)
    | (acts, Returned a, s1) => (acts, Returned a, s1)
    end.

Local Notation "'let*' x ':=' m 'in' k" := (bind m (fun x => k))
  (at level 10, x name, m at level 100, k at level 200, only parsing).

(** The operations of the environment as daemon computations. *)
Definition is_running : M bool :=
  fun s => ([], Returned (running (world s)), s).

Definition post_count : M Z :=
  fun s =>
    let n := get_post_count (world s) in
    ([GetPostCount n], Returned n, s).

Definition time_sleep (lo_ms hi_ms : Z) : M unit :=
  fun s =>
    ([TimeSleep lo_ms hi_ms], Returned tt,
     mk_dstate (sleep lo_ms hi_ms (world s)) (cookies_now s)).

Definition call_scrape_hashtag (tag : string) (max_pages : Z)
    (tab : string) (download_images enrich_users : bool) : M Z :=
  fun s =>
    let '(r, w) :=
      scrape_hashtag tag (cookies_now s) max_pages tab download_images
                     enrich_users (world s) in
    ([CallScrapeHashtag tag max_pages tab download_images enrich_users],
     r, mk_dstate w (cookies_now s)).

Definition call_scrape_comments_batch (limit : Z) : M Z :=
  fun s =>
    let '(r, w) := scrape_comments_batch (cookies_now s) limit (world s) in
    ([CallScrapeCommentsBatch limit], r, mk_dstate w (cookies_now s)).

Definition random_shuffle (tags : list string) : M (list string) :=
  fun s =>
    let '(shuffled, w) := shuffle tags (world s) in
    ([Shuffle], Returned shuffled, mk_dstate w (cookies_now s)).

Definition random_sample (tags : list string) (k : nat)
  : M (list string) :=
  fun s =>
    let '(chosen, w) := sample tags k (world s) in
    ([Sample k], Returned chosen, mk_dstate w (cookies_now s)).

(** [cookies = load_cookies(cookie_file)] *)
Definition assign_load_cookies (cookie_file : string) : M unit :=
  fun s =>
    match load_cookies cookie_file (world s) with
    | (Returned ck, w) => ([LoadCookies], Returned tt, mk_dstate w ck)
    | (Raised e, w) =>
        ([LoadCookies], Raised e, mk_dstate w (cookies_now s))
    end.

(** [cookies = refresh_cookies(cookie_file)] *)
Definition assign_refresh_cookies (cookie_file : string) : M unit :=
  fun s =>
    match refresh_cookies cookie_file (world s) with
    | (Returned ck, w) => ([RefreshCookies], Returned tt, mk_dstate w ck)
    | (Raised e, w) =>
        ([RefreshCookies], Raised e, mk_dstate w (cookies_now s))
    end.

Section Cycle.
Variables (cookie_file : string) (target : Z) (download_images : bool).

(** The handler of Phase 1's [except Exception as e]. *)
Definition on_scrape_error (e : exn) : M unit :=
  if session_expired e then
    try_except (assign_refresh_cookies cookie_file)
               (fun _ =>
                  let* _ := time_sleep 3600000 3600000 in
                  assign_load_cookies cookie_file)
  else ret tt.

(** Phase 1: [for tag in shuffled], top tab. Leaving the loop by
    [break] and by exhaustion continue at the same place. The log
    line of the mid-cycle exit reads the count a second time. *)
Fixpoint phase1_top_posts (shuffled : list string) : M unit :=
  match shuffled with
  | [] => ret tt
  | tag :: rest =>
      let* r := is_running in
      if negb r then ret tt
      else
        let* n := post_count in
        if Z.leb target n then
          let* _ := post_count in
          ret tt
        else
          let* _ :=
            try_except
              (let* _ := call_scrape_hashtag tag 20 "top"
                                             download_images false in
               ret tt)
              on_scrape_error in
          let* _ := time_sleep 10000 25000 in
          phase1_top_posts rest
  end.

(** Phase 2: the comment pass, with its own handler. *)
Definition phase2_comments : M unit :=
  try_except (let* _ := call_scrape_comments_batch 300 in ret tt)
             (fun _ => ret tt).

(** Phase 3's [for tag in sample], recent tab. *)
Fixpoint recent_tab_pass (chosen : list string) : M unit :=
  match chosen with
  | [] => ret tt
  | tag :: rest =>
      let* r := is_running in
      if negb r then ret tt
      else
        let* _ :=
          try_except
            (let* _ := call_scrape_hashtag tag 10 "recent"
                                           download_images false in
             ret tt)
            (fun _ => ret tt) in
        let* _ := time_sleep 10000 20000 in
        recent_tab_pass rest
  end.

Definition phase3_recent_tab (shuffled : list string) : M unit :=
  let* r := is_running in
  if r then
    let* n := post_count in
    if Z.ltb n target then
      let* chosen :=
        random_sample shuffled (Nat.min 15 (length shuffled)) in
      recent_tab_pass chosen
    else ret tt
  else ret tt.

(** The body of [while running]. *)
Definition cycle (tags : list string) : M cycle_end :=
  let* db_count := post_count in
  if Z.leb target db_count then
    let* _ := call_scrape_comments_batch 500 in
    let* _ := time_sleep 3600000 3600000 in
    ret NextCycle
  else
    let* shuffled := random_shuffle tags in
    let* _ := phase1_top_posts shuffled in
    let* r := is_running in
    if negb r then ret BreakLoop
    else
      let* _ := phase2_comments in
      let* _ := phase3_recent_tab shuffled in
      let* db_count := post_count in
      let* r := is_running in
      let* _ :=
        if r && Z.ltb db_count target
        then time_sleep 300000 600000
        else ret tt in
      ret NextCycle.


End Cycle.





End WithEnv.

End Daemon.

(** ** cookies.py *)

Module Cookies.

(** The cookie file as [load_cookies] finds it: missing, not decodable as
    JSON, or holding a key-value bag. *)
Inductive cookie_file : Type :=
| Missing
| Undecodable
| Holds (ck : cookies).

(** [cookies.get("sessionid")] is truthy. *)
Definition has_sessionid (ck : cookies) : bool :=
  truthy_str (ck !! "sessionid").

Definition load_cookies (file : cookie_file) : result cookies :=
  match file with
  | Missing => Raised (SystemExit 1)
  | Undecodable => Raised (Exception "JSONDecodeError" "Expecting value")
  | Holds ck =>
      if has_sessionid ck then Returned ck else Raised (SystemExit 1)
  end.

(** [refresh_cookies]: [system] is [platform.system()]; the two extractors
    read the browser's cookie store and may raise. The file is written only
    after the [sessionid] check. *)
Definition refresh_cookies (system : string)
    (_extract_pycookiecheat _extract_browser_cookie3 : result cookies)
    (file : cookie_file) : result cookies * cookie_file :=
  let extracted :=
    if String.eqb system "Darwin" || String.eqb system "Linux"
    then _extract_pycookiecheat
    else if String.eqb system "Windows" then _extract_browser_cookie3
    else Raised (SystemExit 1) in
  match extracted with
  | Raised e => (Raised e, file)
  | Returned ck =>
      if has_sessionid ck then (Returned ck, Holds ck)
      else (Raised (SystemExit 1), file)
  end.

End Cookies.

(** * Vocabulary of the specification *)

Module Spec.

(** A code drawn from the shortcode alphabet. *)
Fixpoint alphabet_code (code : string) : bool :=
  match code with
  | EmptyString => true
  | String char rest =>
      match Py.index SHORTCODE_ALPHABET char with
      | Some _ => alphabet_code rest
      | None => false
      end
  end.

(** The specification's wording of the decoding: starting from zero,
    [value = value*64 + alphabet.index(char)] for each character, left to
    right. *)
Definition alphabet_index (char : ascii) : Z :=
  match Py.index SHORTCODE_ALPHABET char with
  | Some i => i
  | None => 0
  end.

Definition accumulate (code : string) : Z :=
  fold_left (fun value char => value * 64 + alphabet_index char)
            (list_ascii_of_string code) 0.

(** A code whose first character is not the zero digit ["A"]. *)
Definition no_leading_A (code : string) : bool :=
  match code with
  | String char _ => negb (Ascii.eqb char "A"%char)
  | EmptyString => true
  end.

(** *** Responses of the hashtag endpoint *)

(** HTTP 429. *)
Definition rate_limited (r : response Raw.page) : bool :=
  match r with
  | Response status_code _ _ => Z.eqb status_code 429
  | RequestException _ => false
  end.

(** A transport failure, or a status that is neither a success nor 429. *)
Definition fails (r : response Raw.page) : bool :=
  match r with
  | RequestException _ => true
  | Response status_code _ _ =>
      negb (Z.eqb status_code 429) && negb (ok status_code)
  end.

(** A success status with a JSON page. *)
Definition serves (r : response Raw.page) : option Raw.page :=
  match r with
  | Response status_code _ (Some pg) =>
      if negb (Z.eqb status_code 429) && ok status_code
      then Some pg else None
  | Response _ _ None | RequestException _ => None
  end.

(** A served page on which the server reports more pages / no more. *)
Definition serves_more (r : response Raw.page) : bool :=
  match serves r with
  | Some pg =>
      match get_or (Raw.more_available pg) false with
      | Some true => true
      | _ => false
      end
  | None => false
  end.


(** The cases of one loop iteration of [fetch_hashtag_posts], by the
    response received. *)
Inductive answer (r : response Raw.page) : Type :=
| AnsRateLimited (_ : rate_limited r = true)
| AnsFails (_ : fails r = true)
| AnsNotJson (sc : Z) (ct : string)
    (_ : r = Response sc ct None) (_ : Z.eqb sc 429 = false)
    (_ : ok sc = true)
| AnsMore (pg : Raw.page) (_ : serves r = Some pg)
    (_ : get_or (Raw.more_available pg) false = Some true)
| AnsLast (pg : Raw.page) (_ : serves r = Some pg)
    (_ : get_or (Raw.more_available pg) false <> Some true).

(** *** The posts of a run, in the specification's words *)

(** The code of a media object, when it has one that is not empty. *)
Definition nonempty_code (media : Raw.media) : option string :=
  match get (Raw.m_code media) with
  | Some c => if String.eqb c "" then None else Some c
  | None => None
  end.

(** The entries a call keeps from the media objects it is sent, in order:
    those with a non-empty code that no earlier entry carried. [seen]
    holds the codes of the earlier entries. *)
Fixpoint first_by_code (seen : gset string) (medias : list Raw.media)
  : list Raw.media :=
  match medias with
  | [] => []
  | media :: rest =>
      match nonempty_code media with
      | Some c =>
          if bool_decide (c ∈ seen) then first_by_code seen rest
          else media :: first_by_code ({[c]} ∪ seen) rest
      | None => first_by_code seen rest
      end
  end.

(** The non-empty codes of a list of media objects. *)
Definition codes_seen (medias : list Raw.media) : gset string :=
  list_to_set (omap nonempty_code medias).

(** The media objects of a list of pages, page by page, section by
    section. *)
Definition medias_of (pages : list Raw.page) : list Raw.media :=
  concat (map (fun pg => concat (Raw.sections pg)) pages).

(** The pages served to the requests of a trace, in the order of the
    requests. *)
Definition served_pages (w : world) (evs : list event) : list Raw.page :=
  omap (fun e => match e with
                 | Request n rq => serves (sections_api w n rq)
                 | _ => None
                 end) evs.

(** [posts] are the parsed forms of [medias], one by one. *)
Definition parsed_from `{Host} (medias : list Raw.media)
    (posts : list Post.t) : Prop :=
  Forall2 (fun media post => Api.parse_media media = Returned post)
          medias posts.

(** Counting the requests of a trace, all of them or those whose answer
    satisfies a test. *)
Definition is_request (e : event) : bool :=
  match e with
  | Request _ _ => true
  | _ => false
  end.

Definition answered (w : world) (test : response Raw.page -> bool)
    (e : event) : bool :=
  match e with
  | Request n rq => test (sections_api w n rq)
  | _ => false
  end.

Definition count_requests (evs : list event) : nat :=
  length (List.filter is_request evs).

Definition count_answered (w : world) (test : response Raw.page -> bool)
    (evs : list event) : nat :=
  length (List.filter (answered w test) evs).

Definition served (r : response Raw.page) : bool :=
  match serves r with
  | Some _ => true
  | None => false
  end.

(** *** Storage *)


(** A sequence of [upsert_post] calls on a backend, each of which returns
    or raises. *)
Definition upsert_posts {S : Type} `{StorageBackend.t S}
    (posts : list Post.t) (s : S) : S :=
  foldl (fun s post => (StorageBackend.upsert_post post s).2) s posts.

(** What run-level dedup needs from a backend: a post whose
    [upsert_post] returns has its code in the snapshot of existing codes
    afterwards, and no operation of the pipeline removes a code from it. *)
Class KeepsCodes (S : Type) `{StorageBackend.t S} : Prop := {
  upsert_post_adds_code : forall (p : Post.t) (s s' : S) (b : bool),
    StorageBackend.upsert_post p s = (Returned b, s') ->
    Post.code p <> Absent ->
    get (Post.code p) ∈ StorageBackend.get_existing_codes s';
  upsert_post_keeps_codes : forall (p : Post.t) (s : S),
    StorageBackend.get_existing_codes s
    ⊆ StorageBackend.get_existing_codes (StorageBackend.upsert_post p s).2;
  upsert_user_keeps_codes : forall (u : User.t) (s : S),
    StorageBackend.get_existing_codes s
    ⊆ StorageBackend.get_existing_codes (StorageBackend.upsert_user u s).2;
  store_image_keeps_codes : forall image_bytes filename (s : S),
    StorageBackend.get_existing_codes s
    ⊆ StorageBackend.get_existing_codes
        (StorageBackend.store_image image_bytes filename s).2
}.

(** Events that write to storage. *)
Definition is_upsert (e : event) : bool :=
  match e with
  | UpsertUser _ | UpsertPost _ | UpsertComment _ | StoreImage _ => true
  | _ => false
  end.

(** *** The daemon's calls *)

(** A new-post crawl call. *)
Definition is_crawl_call (a : Daemon.action) : bool :=
  match a with
  | Daemon.CallScrapeHashtag _ _ _ _ _ => true
  | _ => false
  end.

(** Every [scrape_hashtag] call of a trace comes right after a read of
    the post count that was below the target. [prev] is the action before
    the trace. *)
Fixpoint fetches_guarded (target : Z) (prev : option Daemon.action)
    (acts : list Daemon.action) : bool :=
  match acts with
  | [] => true
  | a :: rest =>
      (if is_crawl_call a then
         match prev with
         | Some (Daemon.GetPostCount n) => Z.ltb n target
         | _ => false
         end
       else true)
      && fetches_guarded target (Some a) rest
  end.

(** *** A host for running the model on examples *)

(** ASCII renderings of the text functions. The C library of this host
    rejects every timestamp that fits its 64-bit [time_t] (the [OSError]
    path of [parse_media]). *)
Definition is_space (a : ascii) : bool :=
  let n := nat_of_ascii a in
  (Nat.leb 9 n && Nat.leb n 13) || (Nat.leb 28 n && Nat.leb n 32).

Definition is_word (a : ascii) : bool :=
  let n := nat_of_ascii a in
  (Nat.leb 48 n && Nat.leb n 57) || (Nat.leb 65 n && Nat.leb n 90)
  || (Nat.leb 97 n && Nat.leb n 122) || Nat.eqb n 95.

(** Number of maximal runs of non-space characters. *)
Fixpoint count_words (in_word : bool) (s : string) : Z :=
  match s with
  | EmptyString => 0
  | String a rest =>
      if is_space a then count_words false rest
      else (if in_word then 0 else 1) + count_words true rest
  end.

(** The word characters at the head of a string. *)
Fixpoint word_prefix (s : string) : string :=
  match s with
  | String a rest => if is_word a then String a (word_prefix rest) else ""
  | EmptyString => ""
  end.

(** Matches of [#\w+], left to right, without overlap. A match ends where
    its word characters end, so scanning on from the character after the
    [#] finds the same later matches. *)
Fixpoint hashtag_matches (s : string) : list string :=
  match s with
  | EmptyString => []
  | String a rest =>
      if Ascii.eqb a "#"%char then
        match word_prefix rest with
        | EmptyString => hashtag_matches rest
        | String _ _ as word => String a word :: hashtag_matches rest
        end
      else hashtag_matches rest
  end.

Definition ascii_host : Host := {|
  fromtimestamp_isoformat := fun t => if int64 t then OutOfRange else Overflow;
  fromtimestamp_overflow := fun t (Ht : int64 t = false) =>
    @eq_ind_r bool false
      (fun b : bool => (if b then OutOfRange else Overflow) = Overflow)
      eq_refl (int64 t) Ht;
  findall_hashtags := hashtag_matches;
  split_len := count_words false
|}.

(** On this host the image directory exists and takes every file name. *)
Definition images_dir (filename : string) : result string :=
  Returned ("images/" ++ filename)%string.

End Spec.

(** * Concrete feeds and records for running the model *)

Module Examples.

(** A media object that carries a code and nothing else. *)
Definition media_with_code (c : string) : Raw.media :=
  Raw.mk_media (Val c) Absent Absent Absent Absent Absent Absent Absent
               Absent Absent Absent.



(** A page with one section. *)
Definition page_of (codes : list string) (more : bool) (cursor : string)
  : Raw.page :=
  Raw.mk_page [map media_with_code codes] (Val more) (Val cursor).

Definition json_ok {A} (body : A) : response A :=
  Response 200 "application/json" (Some body).

(** The other endpoints, unreachable. *)
Definition no_comments : nat -> comments_request -> response Raw.comments_page :=
  fun _ _ => RequestException "unreachable".

Definition no_profile : string -> cookies -> response (option Raw.profile) :=
  fun _ _ => RequestException "unreachable".

Definition no_cdn : string -> option (Z * list Byte.byte) := fun _ => None.

Definition world_of (api : nat -> request -> response Raw.page) : world :=
  mk_world api no_comments no_profile no_cdn.

(** Rate-limited on the first request, then an endless feed. *)
Definition rate_limited_once : world :=
  world_of (fun n _ =>
              match n with
              | O => Response 429 "text/html" None
              | S _ => json_ok (page_of [] true "next")
              end).

(** Two pages; the second reports that no more are available. *)
Definition two_pages : world :=
  world_of (fun n _ =>
              match n with
              | O => json_ok (page_of ["B"; "C"] true "p2")
              | S O => json_ok (page_of ["C"; "D"] false "")
              | S (S _) => json_ok (page_of ["E"] true "p4")
              end).



(** One page, then the connection breaks. *)
Definition breaks_on_second : world :=
  world_of (fun n _ =>
              match n with
              | O => json_ok (page_of ["B"; "C"] true "p2")
              | S _ => RequestException "Connection reset by peer"
              end).

(** The post dict parsed from a media object without a timestamp. *)
Definition parsed (media : Raw.media) : Post.t :=
  @Api.post_dict Spec.ascii_host media None.

(** The post dict parsed from a media object with only a code. *)
Definition post_with_code (c : string) : Post.t :=
  parsed (media_with_code c).

(** A media object by an author, optionally with a display name. *)
Definition media_by (c username : string) (full_name : entry string)
  : Raw.media :=
  Raw.mk_media (Val c)
               (Val (Raw.mk_user (Val username) (Val "17") full_name
                                 (Val false)))
               Absent Absent Absent Absent Absent Absent Absent Absent
               Absent.

(** An enriched user row. *)
Definition enriched_row : UserRow.t :=
  UserRow.mk (Some "Alice Liddell") (Some "Down the rabbit hole")
             (Some 1200) (Some 35) (Some 88) (Some true) (Some false)
             (Some "https://cdn.example/alice.jpg").

Definition db_with_alice : SQLiteStorage.t :=
  SQLiteStorage.mk SQLiteStorage.empty_table
    (SQLiteStorage.mk_table {[ "alice" := enriched_row ]} [])
    SQLiteStorage.empty_table Spec.images_dir ∅.


(** A feed of two pages by two authors, one post repeated; profiles and
    images are out of reach. *)
Definition authors_feed : world :=
  world_of (fun n _ =>
              match n with
              | O =>
                  json_ok (Raw.mk_page
                             [[media_by "B" "alice" (Val "Alice");
                               media_by "C" "bob" Absent]]
                             (Val true) (Val "p2"))
              | S _ =>
                  json_ok (Raw.mk_page
                             [[media_by "C" "bob" Absent];
                              [media_by "D" "alice" (Val "Alice")]]
                             (Val false) Absent)
              end).

(** *** A process: the daemon wired to the scraper and a backend *)

(** The storage, the world as it is at each tick, the tick at which a
    termination signal arrives, the outcomes of the random calls and the
    content of the cookie file. Every call and every sleep is a tick. *)
Record process (S : Type) : Type := mk_process {
  storage : S;
  internet : nat -> world;
  ticks : nat;
  stop_at : option nat;
  shuffled : list string -> list string;
  sampled : list string -> nat -> list string;
  cookie_jar : result cookies
}.
Arguments mk_process {S}.
Arguments storage {S}.
Arguments internet {S}.
Arguments ticks {S}.
Arguments stop_at {S}.
Arguments shuffled {S}.
Arguments sampled {S}.
Arguments cookie_jar {S}.

Definition tick {S} (p : process S) (s : S) : process S :=
  mk_process s (internet p) (Datatypes.S (ticks p)) (stop_at p)
             (shuffled p) (sampled p) (cookie_jar p).

#[global] Instance process_env {S : Type} `{StorageBackend.t S}
  : Daemon.Env (process S) := {|
  Daemon.running p :=
    match stop_at p with
    | Some t => Nat.ltb (ticks p) t
    | None => true
    end;
  Daemon.get_post_count p := StorageBackend.get_post_count (storage p);
  Daemon.scrape_hashtag tag ck max_pages tab dl en p :=
    let '(_, r, s) :=
      @Scraper.scrape_hashtag Spec.ascii_host _ _
        (internet p (ticks p)) tag ck (storage p) max_pages tab dl en in
    (r, tick p s);
  Daemon.scrape_comments_batch ck limit p :=
    let '(_, r, s) :=
      @Scraper.scrape_comments_batch Spec.ascii_host _ _
        (internet p (ticks p)) ck (storage p) limit in
    (r, tick p s);
  Daemon.shuffle tags p := (shuffled p tags, p);
  Daemon.sample tags k p := (sampled p tags k, p);
  Daemon.sleep _ _ p := tick p (storage p);
  Daemon.load_cookies _ p := (cookie_jar p, p);
  Daemon.refresh_cookies _ p := (cookie_jar p, p);
  Daemon.close p := tick p (StorageBackend.close (storage p))
|}.


End Examples.

(** * Vocabulary and examples for the further properties *)

Module Props.

(** The codes of a list of post dicts, as [d.get("code")] reads them. *)
Definition codes_of (posts : list Post.t) : list (option string) :=
  map (fun p => get (Post.code p)) posts.

(** What the loop of [fetch_hashtag_posts] keeps true of the posts gathered
    so far and the codes seen so far. *)
Definition gathered (posts : list Post.t) (seen : gset string) : Prop :=
  NoDup (codes_of posts)
  /\ forall p, In p posts ->
       exists c, get (Post.code p) = Some c /\ c <> "" /\ c ∈ seen.

(** Requests to the comments endpoint. *)
Definition is_comments_request (e : event) : bool :=
  match e with
  | CommentsRequest _ _ => true
  | _ => false
  end.

Definition is_profile_request (e : event) : bool :=
  match e with
  | ProfileRequest _ => true
  | _ => false
  end.

(** The table scan of [get_posts_needing_comments]: every row of [posts]
    with its code. *)
Definition scan_posts (s : SQLiteStorage.t)
  : list (option string * PostRow.t) :=
  (map (fun kr => (Some kr.1, kr.2))
       (map_to_list (SQLiteStorage.keyed (SQLiteStorage.posts s)))
   ++ map (fun r => (None, r))
          (SQLiteStorage.null_key (SQLiteStorage.posts s)))%list.

(** [a] may come before [b] under [ORDER BY likes DESC]. *)
Definition likes_ge (a b : option string * PostRow.t) : Prop :=
  SQLiteStorage.likes_ltb (PostRow.likes a.2) (PostRow.likes b.2) = false.


(** The fetched posts that [scrape_hashtag] treats as new. *)
Definition new_among (posts : list Post.t)
    (existing_codes : gset (option string)) : list Post.t :=
  List.filter (fun p => negb (bool_decide (get (Post.code p) ∈ existing_codes)))
              posts.

Definition is_upsert_post (e : event) : bool :=
  match e with
  | UpsertPost _ => true
  | _ => false
  end.

Definition is_upsert_comment (e : event) : bool :=
  match e with
  | UpsertComment _ => true
  | _ => false
  end.

(** The two calls of the daemon's shutdown. *)
Definition is_shutdown (a : Daemon.action) : bool :=
  match a with
  | Daemon.UnlinkPid | Daemon.Close => true
  | _ => false
  end.

(** A daemon computation that takes no part in the shutdown. *)
Definition quiet {W A : Type} (m : @Daemon.M W A) : Prop :=
  forall s, Forall (fun a => is_shutdown a = false) (m s).1.1.

(** An exception of class [Exception] leaves [m] only from a call in [Q],
    which is then the last action of the trace. *)
Definition escapes_after {W A : Type} (Q : Daemon.action -> Prop)
    (m : @Daemon.M W A) : Prop :=
  forall s e,
    (m s).1.2 = Raised e ->
    Daemon.is_Exception e = true ->
    exists pre a, (m s).1.1 = (pre ++ [a])%list /\ Q a.

(** [acts] came before the computation whose outcome is [run]. *)
Definition after {W A : Type} (acts : list Daemon.action)
    (run : list Daemon.action * result A * @Daemon.dstate W)
  : list Daemon.action * result A * @Daemon.dstate W :=
  ((acts ++ run.1.1)%list, run.1.2, run.2).





End Props.

Module Cases.

(** A media object with a code, a like count and a comment count. *)
Definition media_with_counts (c : string) (like_count comment_count : Z)
  : Raw.media :=
  Raw.mk_media (Val c) Absent Absent Absent Absent Absent (Val like_count)
               (Val comment_count) Absent Absent Absent.

Definition post_with_counts (c : string) (like_count comment_count : Z)
  : Post.t :=
  Examples.parsed (media_with_counts c like_count comment_count).

(** Three stored posts: B (5 likes, 2 comments), C (9 likes, 1 comment) and
    D (7 likes, no comments); no comment rows. *)
Definition db_three_posts : SQLiteStorage.t :=
  Spec.upsert_posts
    [post_with_counts "B" 5 2; post_with_counts "C" 9 1;
     post_with_counts "D" 7 0]
    (SQLiteStorage.init Spec.images_dir).



(** A profile endpoint that knows bob, without a follower count. *)
Definition bob_without_counts : Raw.profile :=
  Raw.mk_profile (Val "Bob") PyNone Absent Absent Absent (Val false)
                 (Val false) Absent Absent.

Definition authors_feed_with_bob : world :=
  mk_world (sections_api Examples.authors_feed) Examples.no_comments
           (fun username _ =>
              if String.eqb username "bob"
              then Examples.json_ok (Some bob_without_counts)
              else RequestException "unreachable")
           Examples.no_cdn.

(** A comments endpoint that serves one comment, and no more, for every
    post. *)
Definition one_comment_each : world :=
  mk_world (sections_api Examples.authors_feed)
           (fun _ _ =>
              Examples.json_ok
                (Raw.mk_comments_page
                   [Raw.mk_comment (Val "1") Absent (Val "nice") Absent Absent]
                   (Val false) Absent))
           Examples.no_profile Examples.no_cdn.

(** A process whose cookie file and browser are those of cookies.py. Every
    crawl ends as [crawl] says and every comment pass as [batch] says. *)
Record desk : Type := mk_desk {
  jar : Cookies.cookie_file;
  platform_system : string;
  browser : result cookies;
  crawl : result Z;
  batch : result Z;
  stored : Z;
  stop_requested : bool
}.

#[global] Instance desk_env : Daemon.Env desk := {|
  Daemon.running d := negb (stop_requested d);
  Daemon.get_post_count d := stored d;
  Daemon.scrape_hashtag _ _ _ _ _ _ d := (crawl d, d);
  Daemon.scrape_comments_batch _ _ d := (batch d, d);
  Daemon.shuffle tags d := (tags, d);
  Daemon.sample tags k d := (take k tags, d);
  Daemon.sleep _ _ d := d;
  Daemon.load_cookies _ d := (Cookies.load_cookies (jar d), d);
  Daemon.refresh_cookies _ d :=
    let '(r, file) :=
      Cookies.refresh_cookies (platform_system d) (browser d) (browser d)
                              (jar d) in
    (r, mk_desk file (platform_system d) (browser d) (crawl d) (batch d)
                (stored d) (stop_requested d));
  Daemon.close d := d
|}.

(** The session has expired, the browser's cookie store cannot be read and
    the cookie file on disk is damaged. *)
Definition desk_locked_out : desk :=
  mk_desk Cookies.Undecodable "Linux"
          (Raised (Exception "OSError" "keyring unavailable"))
          (Raised (Exception "HTTPError" "401 Unauthorized"))
          (Returned 0) 0 false.

(** The session has expired and the browser is logged out. *)
Definition desk_logged_out : desk :=
  mk_desk (Cookies.Holds {[ "sessionid" := "old" ]}) "Linux"
          (Returned {[ "csrftoken" := "t" ]})
          (Raised (Exception "HTTPError" "401 Unauthorized"))
          (Returned 0) 0 false.



Definition stopped_clock (n : nat) : string := "20240101_000000".

(** [n] posts with the codes AA, AB, ..., AZ, BA, ... *)
Definition numbered_posts (n : nat) : list Post.t :=
  map (fun i => Examples.post_with_code
                  (String (Ascii.ascii_of_nat (65 + i / 26))
                     (String (Ascii.ascii_of_nat (65 + i mod 26))
                             EmptyString)))
      (seq 0 n).


End Cases.

(** * Properties *)

(** ** Shortcode decoding *)

Section Shortcode.

Lemma index_from_lower c s i j :
  Py.index_from c s i = Some j -> i <= j < i + Z.of_nat (String.length s).
Proof.
  revert i; induction s as [|a s IH]; intros i; simpl; [discriminate|].
  destruct (Ascii.eqb a c).
  - intros [= <-]. lia.
  - intros Hj. apply IH in Hj. lia.
Qed.

(** [str.index] returns the position of the character it was asked for:
    two characters with the same index are equal. *)
Lemma index_from_inj c d s i j :
  Py.index_from c s i = Some j -> Py.index_from d s i = Some j -> c = d.
Proof.
  revert i; induction s as [|a s IH]; intros i; simpl; [discriminate|].
  destruct (Ascii.eqb_spec a c) as [->|Hc], (Ascii.eqb_spec c d) as [->|Hd];
    try done.
  - destruct (Ascii.eqb_spec c d); [done|].
    intros [= <-] Hj. apply index_from_lower in Hj. lia.
  - destruct (Ascii.eqb_spec a d) as [->|Had].
    + intros Hj [= <-]. apply index_from_lower in Hj. lia.
    + apply IH.
Qed.

Lemma alphabet_index_range char i :
  Py.index SHORTCODE_ALPHABET char = Some i -> 0 <= i < 64.
Proof.
  intros Hi. apply index_from_lower in Hi.
  change (Z.of_nat (String.length SHORTCODE_ALPHABET)) with 64 in Hi. lia.
Qed.

Lemma alphabet_index_inj c d i :
  Py.index SHORTCODE_ALPHABET c = Some i ->
  Py.index SHORTCODE_ALPHABET d = Some i -> c = d.
Proof. apply index_from_inj. Qed.

(** The accumulator only shifts the result. *)
Lemma shortcode_loop_shift code pk :
  Api.shortcode_loop pk code =
  (fun r => pk * 64 ^ Z.of_nat (String.length code) + r)
    <$> Api.shortcode_loop 0 code.
Proof.
  revert pk; induction code as [|c code IH]; intros pk.
  - simpl. f_equal. lia.
  - cbn [Api.shortcode_loop String.length].
    destruct (Py.index SHORTCODE_ALPHABET c) as [i|]; [|done].
    rewrite (IH (pk * 64 + i)), (IH (0 * 64 + i)).
    destruct (Api.shortcode_loop 0 code) as [r|]; [|done].
    cbn. f_equal. rewrite Nat2Z.inj_succ, Z.pow_succ_r by lia. lia.
Qed.

Lemma shortcode_loop_range code r :
  Api.shortcode_loop 0 code = Some r ->
  0 <= r < 64 ^ Z.of_nat (String.length code).
Proof.
  revert r; induction code as [|c code IH]; intros r.
  - intros [= <-]. simpl. lia.
  - cbn [Api.shortcode_loop String.length].
    destruct (Py.index SHORTCODE_ALPHABET c) as [i|] eqn:Hi; [|done].
    rewrite shortcode_loop_shift.
    destruct (Api.shortcode_loop 0 code) as [r'|]; [|done].
    intros [= <-]. specialize (IH r' eq_refl).
    apply alphabet_index_range in Hi.
    rewrite Nat2Z.inj_succ, Z.pow_succ_r by lia. nia.
Qed.

(** Decoding succeeds exactly on codes over the alphabet. *)
Lemma shortcode_loop_total code pk :
  is_Some (Api.shortcode_loop pk code) <-> Spec.alphabet_code code = true.
Proof.
  revert pk; induction code as [|c code IH]; intros pk; simpl.
  - split; eauto.
  - destruct (Py.index SHORTCODE_ALPHABET c); [apply IH|].
    split; [intros [? [=]]|done].
Qed.

Lemma shortcode_loop_accumulate code pk :
  Spec.alphabet_code code = true ->
  Api.shortcode_loop pk code =
  Some (fold_left (fun value char => value * 64 + Spec.alphabet_index char)
                  (list_ascii_of_string code) pk).
Proof.
  revert pk; induction code as [|c code IH]; intros pk; simpl; [done|].
  unfold Spec.alphabet_index at 2.
  destruct (Py.index SHORTCODE_ALPHABET c); [apply IH|done].
Qed.

Lemma shortcode_equal_length_inj s t :
  String.length s = String.length t ->
  is_Some (Api.shortcode_to_media_pk s) ->
  Api.shortcode_to_media_pk s = Api.shortcode_to_media_pk t -> s = t.
Proof.
  unfold Api.shortcode_to_media_pk.
  revert t; induction s as [|c s IH]; intros [|d t]; simpl; try done.
  intros [= Hlen].
  destruct (Py.index SHORTCODE_ALPHABET c) as [i|] eqn:Hi;
    [|by intros [? [=]]].
  destruct (Py.index SHORTCODE_ALPHABET d) as [j|] eqn:Hj;
    [|by intros [? ->]].
  rewrite (shortcode_loop_shift s), (shortcode_loop_shift t), Hlen.
  destruct (Api.shortcode_loop 0 s) as [r|] eqn:Hr; [|by intros [? [=]]].
  destruct (Api.shortcode_loop 0 t) as [r'|] eqn:Hr'; [|done].
  intros _ [= Heq].
  pose proof (shortcode_loop_range _ _ Hr) as Br.
  pose proof (shortcode_loop_range _ _ Hr') as Br'.
  rewrite Hlen in Br.
  apply alphabet_index_range in Hi as Bi.
  apply alphabet_index_range in Hj as Bj.
  assert (i = j) as -> by nia.
  assert (r = r') as -> by nia.
  rewrite (alphabet_index_inj _ _ _ Hi Hj). f_equal.
  apply IH; [done|eauto|by rewrite Hr'].
Qed.

(** Without a leading zero digit, the value fixes the length. *)
Lemma shortcode_lower_bound c s r :
  Spec.no_leading_A (String c s) = true ->
  Api.shortcode_to_media_pk (String c s) = Some r ->
  64 ^ Z.of_nat (String.length s) <= r.
Proof.
  unfold Api.shortcode_to_media_pk. cbn [Api.shortcode_loop Spec.no_leading_A].
  intros HA.
  destruct (Py.index SHORTCODE_ALPHABET c) as [i|] eqn:Hi; [|done].
  rewrite shortcode_loop_shift.
  destruct (Api.shortcode_loop 0 s) as [r'|] eqn:Hr; [|done].
  intros [= <-]. apply shortcode_loop_range in Hr.
  assert (i <> 0).
  { intros ->. assert (c = "A"%char) as ->
      by (eapply alphabet_index_inj; [exact Hi|reflexivity]).
    done. }
  apply alphabet_index_range in Hi. nia.
Qed.

Lemma shortcode_length_of_value s t r :
  Spec.no_leading_A s = true -> Spec.no_leading_A t = true ->
  Api.shortcode_to_media_pk s = Some r ->
  Api.shortcode_to_media_pk t = Some r ->
  (String.length s <= String.length t)%nat.
Proof.
  intros Hs Ht Hrs Hrt.
  destruct (decide (String.length s <= String.length t)%nat) as [|Hgt];
    [done|exfalso].
  destruct s as [|c s]; [simpl in Hgt; lia|].
  pose proof (shortcode_lower_bound _ _ _ Hs Hrs) as Hlow.
  pose proof (shortcode_loop_range _ _ Hrt) as Hup.
  simpl in Hgt.
  assert (64 ^ Z.of_nat (String.length t) <= 64 ^ Z.of_nat (String.length s))
    by (apply Z.pow_le_mono_r; lia).
  lia.
Qed.

End Shortcode.

Lemma alphabet_code_Forall code :
  Spec.alphabet_code code = true <->
  forall char, In char (list_ascii_of_string code) ->
               is_Some (Py.index SHORTCODE_ALPHABET char).
Proof.
  induction code as [|c code IH]; simpl; [by split|].
  destruct (Py.index SHORTCODE_ALPHABET c) as [i|] eqn:Hi.
  - rewrite IH. split.
    + intros Hall char [<-|Hin]; [rewrite Hi|]; eauto.
    + intros Hall char Hin. apply Hall. by right.
  - split; [done|]. intros Hall.
    destruct (Hall c (or_introl eq_refl)) as [? Hc]. congruence.
Qed.

(** C4, as stated, claims injectivity over all strings drawn from the
    alphabet. The zero digit ["A"] may be prepended without changing the
    value: ["A"] and ["AA"] both decode to 0. *)
Lemma shortcode_not_injective_on_alphabet :
  ~ (forall s t : string,
       Spec.alphabet_code s = true -> Spec.alphabet_code t = true ->
       Api.shortcode_to_media_pk s = Api.shortcode_to_media_pk t -> s = t).
Proof.
  intros Hinj.
  specialize (Hinj "A" "AA" eq_refl eq_refl eq_refl). discriminate.
Qed.

(** C4 (amended). On codes over the 64-character alphabet,
    [shortcode_to_media_pk] returns exactly the left-to-right accumulation
    [value = value*64 + alphabet.index(char)] started at zero; being a
    function it is deterministic; it is injective over alphabet codes of equal
    length, and over alphabet codes that do not begin with the zero digit
    ["A"]; a single-character code maps to its alphabet index. *)
Theorem shortcode_to_media_pk_decoding (s t : string) :
  Spec.alphabet_code s = true ->
  Spec.alphabet_code t = true ->
  Api.shortcode_to_media_pk s = Some (Spec.accumulate s)
  /\ (String.length s = String.length t ->
      Api.shortcode_to_media_pk s = Api.shortcode_to_media_pk t -> s = t)
  /\ (Spec.no_leading_A s = true -> Spec.no_leading_A t = true ->
      Api.shortcode_to_media_pk s = Api.shortcode_to_media_pk t -> s = t)
  /\ (forall char i,
        Py.index SHORTCODE_ALPHABET char = Some i ->
        Api.shortcode_to_media_pk (String char "") = Some i).
Proof.
  intros Hs Ht.
  pose proof (proj2 (shortcode_loop_total s 0) Hs) as Ss.
  pose proof (proj2 (shortcode_loop_total t 0) Ht) as St.
  split; [by apply shortcode_loop_accumulate|].
  split; [intros Hlen; by apply shortcode_equal_length_inj|].
  split.
  - intros HAs HAt Heq. apply shortcode_equal_length_inj; [|done..].
    destruct Ss as [r Hr]. fold (Api.shortcode_to_media_pk s) in Hr.
    assert (Api.shortcode_to_media_pk t = Some r) as Hr' by congruence.
    apply Nat.le_antisymm; eauto using shortcode_length_of_value.
  - intros char i Hi. unfold Api.shortcode_to_media_pk. simpl.
    by rewrite Hi.
Qed.

Lemma shortcode_to_media_pk_decoding_witness :
  Api.shortcode_to_media_pk "CxR2a4Nv3" = Some 779680896572407
  /\ Api.shortcode_to_media_pk "B" = Some 1.
Proof.
  destruct (shortcode_to_media_pk_decoding "CxR2a4Nv3" "B" eq_refl eq_refl)
    as (Hacc & _ & _ & Hsingle).
  split; [exact Hacc|].
  apply Hsingle. reflexivity.
Defined.

(** C10. [shortcode_to_media_pk] raises (here: yields [None]) on every code
    that contains a character outside the 64-character alphabet, and on a code
    whose characters all belong to the alphabet the error branch is not
    reached: a number, which is not negative, is returned. *)
Theorem shortcode_to_media_pk_total (code : string) :
  (forall char, In char (list_ascii_of_string code) ->
                Py.index SHORTCODE_ALPHABET char = None ->
                Api.shortcode_to_media_pk code = None)
  /\ ((forall char, In char (list_ascii_of_string code) ->
                    is_Some (Py.index SHORTCODE_ALPHABET char)) ->
      exists pk, Api.shortcode_to_media_pk code = Some pk /\ 0 <= pk).
Proof.
  split.
  - intros char Hin Hnone.
    destruct (Api.shortcode_to_media_pk code) as [pk|] eqn:Hpk; [|done].
    assert (Spec.alphabet_code code = true) as Hall
      by (apply (proj1 (shortcode_loop_total code 0));
          unfold Api.shortcode_to_media_pk in Hpk; rewrite Hpk; eauto).
    destruct (proj1 (alphabet_code_Forall code) Hall char Hin) as [? Hc].
    congruence.
  - intros Hall. apply alphabet_code_Forall in Hall.
    destruct (proj2 (shortcode_loop_total code 0) Hall) as [pk Hpk].
    exists pk. split; [done|]. apply shortcode_loop_range in Hpk. lia.
Qed.

Lemma shortcode_to_media_pk_total_witness :
  Api.shortcode_to_media_pk "Cx!R" = None
  /\ exists pk, Api.shortcode_to_media_pk "CxR" = Some pk /\ 0 <= pk.
Proof.
  split.
  - apply (proj1 (shortcode_to_media_pk_total "Cx!R") "!"%char).
    + simpl. auto.
    + reflexivity.
  - apply (proj2 (shortcode_to_media_pk_total "CxR")).
    intros char Hin. simpl in Hin.
    destruct Hin as [<-|[<-|[<-|[]]]]; vm_compute; eauto.
Defined.

(** ** Pagination of [fetch_hashtag_posts] *)

Section Fetch.
Context `{Host} (w : world) (hashtag tab : string) (ck : cookies).

Local Abbreviation loop := (Api.fetch_loop w hashtag tab ck).
Local Abbreviation request_of := (Api.page_request hashtag tab ck).

(** The ways one iteration can go. *)
Lemma fetch_loop_rate_limited pages page st :
  Spec.rate_limited (sections_api w page (request_of st)) = true ->
  loop (S pages) page st =
  (Request page (request_of st) :: Sleep 30000 60000
     :: (loop pages (S page) st).1,
   (loop pages (S page) st).2).
Proof.
  intros Hr. cbn [Api.fetch_loop].
  destruct (sections_api w page (request_of st)) as [|sc ct body];
    [done|]. simpl in Hr. rewrite Hr.
  by destruct (loop pages (S page) st).
Qed.

Lemma fetch_loop_fails pages page st :
  Spec.fails (sections_api w page (request_of st)) = true ->
  loop (S pages) page st =
  ([Request page (request_of st)], Returned (Api.all_posts st)).
Proof.
  intros Hr. cbn [Api.fetch_loop].
  destruct (sections_api w page (request_of st)) as [|sc ct body];
    [done|]. simpl in Hr.
  apply andb_true_iff in Hr as [H429 Hok].
  apply negb_true_iff in H429. by rewrite H429, Hok.
Qed.

Lemma serves_Some r pg :
  Spec.serves r = Some pg ->
  exists sc ct, r = Response sc ct (Some pg)
                /\ Z.eqb sc 429 = false /\ ok sc = true.
Proof.
  destruct r as [|sc ct [pg'|]]; simpl; try done.
  destruct (Z.eqb sc 429) eqn:H429, (ok sc) eqn:Hok; simpl; try done.
  intros [= ->]. eauto.
Qed.

Lemma fetch_loop_more pages page st pg st' :
  Spec.serves (sections_api w page (request_of st)) = Some pg ->
  Api.after_page st pg = Returned st' ->
  get_or (Raw.more_available pg) false = Some true ->
  loop (S pages) page st =
  (Request page (request_of st) :: Sleep 1500 3000
     :: (loop pages (S page) st').1,
   (loop pages (S page) st').2).
Proof.
  intros Hs Hafter Hmore. cbn [Api.fetch_loop].
  apply serves_Some in Hs as (sc & ct & -> & H429 & Hok).
  rewrite H429, Hok, Hafter, Hmore. simpl.
  by destruct (loop pages (S page) st').
Qed.

Lemma fetch_loop_last pages page st pg st' :
  Spec.serves (sections_api w page (request_of st)) = Some pg ->
  Api.after_page st pg = Returned st' ->
  get_or (Raw.more_available pg) false <> Some true ->
  loop (S pages) page st =
  ([Request page (request_of st)], Returned (Api.all_posts st')).
Proof.
  intros Hs Hafter Hmore. cbn [Api.fetch_loop].
  apply serves_Some in Hs as (sc & ct & -> & H429 & Hok).
  rewrite H429, Hok, Hafter. simpl.
  by destruct (get_or (Raw.more_available pg) false) as [[]|].
Qed.

(** A served page whose parsing raises ends the call. *)
Lemma fetch_loop_parse_raises pages page st pg e :
  Spec.serves (sections_api w page (request_of st)) = Some pg ->
  Api.after_page st pg = Raised e ->
  loop (S pages) page st = ([Request page (request_of st)], Raised e).
Proof.
  intros Hs Hafter. cbn [Api.fetch_loop].
  apply serves_Some in Hs as (sc & ct & -> & H429 & Hok).
  by rewrite H429, Hok, Hafter.
Qed.

Lemma classify (r : response Raw.page) : Spec.answer r.
Proof.
  destruct r as [msg|sc ct body].
  - by apply Spec.AnsFails.
  - destruct (Z.eqb sc 429) eqn:H429; [by apply Spec.AnsRateLimited|].
    destruct (ok sc) eqn:Hok;
      [|apply Spec.AnsFails; simpl; by rewrite H429, Hok].
    destruct body as [pg|]; [|by eapply Spec.AnsNotJson].
    assert (Spec.serves (Response sc ct (Some pg)) = Some pg) as Hs
      by (simpl; by rewrite H429, Hok).
    destruct (get_or (Raw.more_available pg) false) as [[]|] eqn:Hmore.
    + by eapply Spec.AnsMore.
    + eapply Spec.AnsLast; [done|]. by rewrite Hmore.
    + eapply Spec.AnsLast; [done|]. by rewrite Hmore.
Qed.

Lemma fetch_loop_not_json pages page st sc ct :
  sections_api w page (request_of st) = Response sc ct None ->
  Z.eqb sc 429 = false -> ok sc = true ->
  loop (S pages) page st
  = ([Request page (request_of st)],
     Raised (Exception "JSONDecodeError" "Expecting value")).
Proof.
  intros Hr H429 Hok. cbn [Api.fetch_loop]. by rewrite Hr, H429, Hok.
Qed.

Lemma serves_more_inv r :
  Spec.serves_more r = true ->
  exists pg, Spec.serves r = Some pg
             /\ get_or (Raw.more_available pg) false = Some true.
Proof.
  unfold Spec.serves_more. destruct (Spec.serves r) as [pg|]; [|done].
  destruct (get_or (Raw.more_available pg) false) as [[]|] eqn:Hm;
    try done. eauto.
Qed.


Lemma fails_not_rate_limited r :
  Spec.fails r = true -> Spec.rate_limited r = true -> False.
Proof.
  destruct r as [|sc ct body]; simpl; [done|].
  intros Hf Hr. rewrite Hr in Hf. done.
Qed.

Lemma fails_not_served r pg :
  Spec.fails r = true -> Spec.serves r = Some pg -> False.
Proof.
  intros Hf Hs. apply serves_Some in Hs as (sc & ct & -> & H429 & Hok).
  simpl in Hf. rewrite Hok in Hf. by destruct (Z.eqb sc 429).
Qed.

Lemma fails_serves_None r : Spec.fails r = true -> Spec.serves r = None.
Proof.
  intros Hf. destruct (Spec.serves r) as [pg|] eqn:Hs; [|done].
  by destruct (fails_not_served _ _ Hf Hs).
Qed.

Lemma rate_limited_serves_None r :
  Spec.rate_limited r = true -> Spec.serves r = None.
Proof.
  intros Hr. destruct (Spec.serves r) as [pg|] eqn:Hs; [|done].
  apply serves_Some in Hs as (sc & ct & -> & H429 & Hok). simpl in Hr.
  congruence.
Qed.

Lemma rate_limited_not_served r :
  Spec.rate_limited r = true -> Spec.served r = false.
Proof.
  intros Hr. unfold Spec.served. by rewrite rate_limited_serves_None.
Qed.

End Fetch.

(** Case analysis on the iteration of [fetch_loop] at [page] in state [st]. *)
Ltac fetch_cases w hashtag tab ck page st :=
  let Hr := fresh "Hr" in
  let Hf := fresh "Hf" in
  let H429 := fresh "H429" in
  let Hok := fresh "Hok" in
  let Hs := fresh "Hs" in
  let Hm := fresh "Hm" in
  let Hafter := fresh "Hafter" in
  let pg := fresh "pg" in
  let st' := fresh "st'" in
  let err := fresh "err" in
  destruct (classify (sections_api w page (Api.page_request hashtag tab ck st)))
    as [Hr|Hf|? ? Hr H429 Hok|pg Hs Hm|pg Hs Hm];
  [ rewrite (fetch_loop_rate_limited w hashtag tab ck _ page st Hr)
  | rewrite (fetch_loop_fails w hashtag tab ck _ page st Hf)
  | rewrite (fetch_loop_not_json w hashtag tab ck _ page st _ _ Hr H429 Hok)
  | destruct (Api.after_page st pg) as [st'|err] eqn:Hafter;
    [ rewrite (fetch_loop_more w hashtag tab ck _ page st pg st' Hs Hafter Hm)
    | rewrite (fetch_loop_parse_raises w hashtag tab ck _ page st pg err
                                       Hs Hafter) ]
  | destruct (Api.after_page st pg) as [st'|err] eqn:Hafter;
    [ rewrite (fetch_loop_last w hashtag tab ck _ page st pg st' Hs Hafter Hm)
    | rewrite (fetch_loop_parse_raises w hashtag tab ck _ page st pg err
                                       Hs Hafter) ] ].

Section FetchCounts.
Context `{Host} (w : world) (hashtag tab : string) (ck : cookies).

Local Abbreviation loop := (Api.fetch_loop w hashtag tab ck).
Local Abbreviation request_of := (Api.page_request hashtag tab ck).

(** The requests of a run are numbered by the loop variable. *)
Lemma fetch_loop_request_index pages page st n rq :
  In (Request n rq) (loop pages page st).1 ->
  (page <= n < page + pages)%nat.
Proof.
  revert page st; induction pages as [|pages IH]; intros page st;
    [done|].
  fetch_cases w hashtag tab ck page st; simpl;
    try (intros [[= <- <-]|[]]; lia);
    (intros [[= <- <-]|[[=]|Hin]]; [lia|]; apply IH in Hin; lia).
Qed.

(** Every iteration issues exactly one request, so a run never issues
    more than [pages] of them. *)
Lemma fetch_loop_requests_le pages page st :
  (Spec.count_requests (loop pages page st).1 <= pages)%nat.
Proof.
  unfold Spec.count_requests.
  revert page st; induction pages as [|pages IH]; intros page st;
    [simpl; lia|].
  fetch_cases w hashtag tab ck page st; cbn; try lia.
  - specialize (IH (S page) st). lia.
  - specialize (IH (S page) st'). lia.
Qed.

(** Rate-limited and served requests are different requests. *)
Lemma answered_le_requests evs :
  (Spec.count_answered w Spec.rate_limited evs
   + Spec.count_answered w Spec.served evs
   <= Spec.count_requests evs)%nat.
Proof.
  unfold Spec.count_answered, Spec.count_requests.
  induction evs as [|e evs IH]; [done|].
  destruct e as [n rq| | | | | | | |]; cbn in *; try lia.
  destruct (Spec.rate_limited (sections_api w n rq)) eqn:Hr.
  - rewrite (rate_limited_not_served _ Hr). cbn. lia.
  - destruct (Spec.served (sections_api w n rq)); cbn; lia.
Qed.

(** Pages served with more available: a run that returns has gone on
    until the page budget was used up. *)
Lemma fetch_loop_all_more pages page st posts :
  (forall k rq, (k < pages)%nat ->
     Spec.serves_more (sections_api w (page + k) rq) = true) ->
  (loop pages page st).2 = Returned posts ->
  Spec.count_requests (loop pages page st).1 = pages
  /\ Spec.count_answered w Spec.served (loop pages page st).1 = pages.
Proof.
  revert page st; induction pages as [|pages IH]; intros page st Hall;
    [done|].
  pose proof (Hall 0%nat (request_of st) ltac:(lia)) as H0.
  rewrite Nat.add_0_r in H0.
  apply serves_more_inv in H0 as (pg & Hs & Hm).
  destruct (Api.after_page st pg) as [st'|e] eqn:Hafter;
    [|by erewrite fetch_loop_parse_raises by done].
  erewrite fetch_loop_more by done. cbn [fst snd]. intros Hret.
  destruct (IH (S page) st') as [IH1 IH2]; [|done|].
  { intros k rq Hk. replace (S page + k)%nat with (page + S k)%nat by lia.
    apply Hall. lia. }
  unfold Spec.count_requests, Spec.count_answered in *. cbn.
  unfold Spec.served at 1. rewrite Hs. cbn. by rewrite IH1, IH2.
Qed.



(** Rate-limited requests use up iterations: after [k] of them only
    [pages - k] remain for pages. *)
Lemma fetch_loop_after_rate_limits k pages page st posts :
  (k <= pages)%nat ->
  (forall n rq, (n < k)%nat ->
     Spec.rate_limited (sections_api w (page + n) rq) = true) ->
  (forall n rq, (k <= n)%nat ->
     Spec.serves_more (sections_api w (page + n) rq) = true) ->
  (loop pages page st).2 = Returned posts ->
  Spec.count_answered w Spec.served (loop pages page st).1
  = (pages - k)%nat.
Proof.
  revert pages page st; induction k as [|k IH];
    intros pages page st Hk Hrl Hmore.
  - rewrite Nat.sub_0_r. intros Hret.
    eapply fetch_loop_all_more; [|done].
    intros n rq _. apply Hmore. lia.
  - destruct pages as [|pages]; [lia|].
    pose proof (Hrl 0%nat (request_of st) ltac:(lia)) as H0.
    rewrite Nat.add_0_r in H0.
    rewrite fetch_loop_rate_limited by done. cbn [fst snd]. intros Hret.
    unfold Spec.count_answered in *. cbn.
    rewrite (rate_limited_not_served _ H0). cbn.
    apply IH; [lia| | |done].
    + intros n rq Hn. replace (S page + n)%nat with (page + S n)%nat by lia.
      apply Hrl. lia.
    + intros n rq Hn. replace (S page + n)%nat with (page + S n)%nat by lia.
      apply Hmore. lia.
Qed.

(** A failing request is the last event of its run, and the run returns. *)
Lemma fetch_loop_failure_last pages page st n rq :
  In (Request n rq) (loop pages page st).1 ->
  Spec.fails (sections_api w n rq) = true ->
  exists evs posts,
    loop pages page st = ((evs ++ [Request n rq])%list, Returned posts).
Proof.
  revert page st; induction pages as [|pages IH]; intros page st;
    [done|].
  intros Hin Hfail. revert Hin.
  fetch_cases w hashtag tab ck page st; simpl.
  - intros [[= <- <-]|[[=]|Hin]];
      [by destruct (fails_not_rate_limited _ Hfail Hr)|].
    destruct (IH _ _ Hin Hfail) as (evs & posts & Hrun).
    rewrite Hrun. simpl.
    by exists (Request page (request_of st) :: Sleep 30000 60000 :: evs),
              posts.
  - intros [[= <- <-]|[]]. by exists [], (Api.all_posts st).
  - intros [[= <- <-]|[]]. rewrite Hr in Hfail. simpl in Hfail.
    rewrite Hok in Hfail. by destruct (Z.eqb _ 429).
  - intros [[= <- <-]|[[=]|Hin]];
      [by destruct (fails_not_served _ _ Hfail Hs)|].
    destruct (IH _ _ Hin Hfail) as (evs & posts & Hrun).
    rewrite Hrun. simpl.
    by exists (Request page (request_of st) :: Sleep 1500 3000 :: evs),
              posts.
  - intros [[= <- <-]|[]]. by destruct (fails_not_served _ _ Hfail Hs).
  - intros [[= <- <-]|[]]. by destruct (fails_not_served _ _ Hfail Hs).
  - intros [[= <- <-]|[]]. by destruct (fails_not_served _ _ Hfail Hs).
Qed.

End FetchCounts.

(** ** What a run returns *)

Section Gather.
Context `{Host}.

Lemma codes_seen_cons media rest :
  Spec.codes_seen (media :: rest)
  = match Spec.nonempty_code media with
    | Some c => {[c]} ∪ Spec.codes_seen rest
    | None => Spec.codes_seen rest
    end.
Proof.
  unfold Spec.codes_seen. simpl. by destruct (Spec.nonempty_code media).
Qed.

Lemma first_by_code_app seen medias1 medias2 :
  Spec.first_by_code seen (medias1 ++ medias2)
  = (Spec.first_by_code seen medias1
     ++ Spec.first_by_code (seen ∪ Spec.codes_seen medias1) medias2)%list.
Proof.
  revert seen; induction medias1 as [|media rest IH]; intros seen.
  - simpl. f_equal. unfold Spec.codes_seen. set_solver.
  - rewrite codes_seen_cons. cbn [app Spec.first_by_code].
    destruct (Spec.nonempty_code media) as [c|]; [|by rewrite IH].
    case_bool_decide as Hseen.
    + rewrite IH. do 2 f_equal. set_solver.
    + rewrite IH. cbn [app]. do 3 f_equal. set_solver.
Qed.

Lemma parse_media_code media post :
  Api.parse_media media = Returned post ->
  Post.code post = store (get_or (Raw.m_code media) "").
Proof.
  unfold Api.parse_media.
  destruct (Api.posted_at_of _) as [posted_at|]; [|done].
  by intros [= <-].
Qed.

(** The test of the loop, in terms of the code kept. *)
Lemma collect_page_test media seen :
  match get (Raw.m_code media) with
  | Some c => negb (truthy_str (get (Raw.m_code media)))
              || bool_decide (c ∈ seen)
  | None => true
  end
  = match Spec.nonempty_code media with
    | Some c => bool_decide (c ∈ seen)
    | None => true
    end.
Proof.
  unfold Spec.nonempty_code.
  destruct (get (Raw.m_code media)) as [c|]; [|done]. simpl.
  by destruct (String.eqb c "").
Qed.

(** One page: the posts appended are the parsed forms of the entries
    kept, and the codes of all entries with a non-empty code are seen. *)
Lemma collect_page_gathers medias seen page_posts posts' seen' :
  Api.collect_page medias seen page_posts = Returned (posts', seen') ->
  exists new,
    posts' = (page_posts ++ new)%list
    /\ Spec.parsed_from (Spec.first_by_code seen medias) new
    /\ seen' = seen ∪ Spec.codes_seen medias.
Proof.
  revert seen page_posts; induction medias as [|media rest IH];
    intros seen page_posts.
  - intros [= <- <-]. exists []. rewrite app_nil_r.
    split; [done|]. split; [constructor|]. unfold Spec.codes_seen.
    set_solver.
  - rewrite codes_seen_cons. cbn [Api.collect_page Spec.first_by_code].
    unfold Spec.nonempty_code.
    destruct (get (Raw.m_code media)) as [c|] eqn:Hcode;
      [|intros Hrest; by destruct (IH _ _ Hrest) as (new & -> & Hnew & ->);
          exists new].
    cbn [truthy_str].
    destruct (String.eqb c "") eqn:Hc; cbn [negb orb].
    { intros Hrest. destruct (IH _ _ Hrest) as (new & -> & Hnew & ->).
      by exists new. }
    case_bool_decide as Hseen.
    + intros Hrest. destruct (IH _ _ Hrest) as (new & -> & Hnew & ->).
      exists new. split; [done|]. split; [done|]. set_solver.
    + destruct (Api.parse_media media) as [post|] eqn:Hparse; [|done].
      intros Hrest. destruct (IH _ _ Hrest) as (new & -> & Hnew & ->).
      exists (post :: new). rewrite <- app_assoc.
      split; [done|]. split; [by constructor|]. set_solver.
Qed.

Lemma after_page_gathers st pg st' :
  Api.after_page st pg = Returned st' ->
  exists new,
    Api.all_posts st' = (Api.all_posts st ++ new)%list
    /\ Spec.parsed_from
         (Spec.first_by_code (Api.seen_codes st) (concat (Raw.sections pg)))
         new
    /\ Api.seen_codes st'
       = Api.seen_codes st ∪ Spec.codes_seen (concat (Raw.sections pg)).
Proof.
  unfold Api.after_page.
  destruct (Api.collect_page _ _ _) as [[page_posts seen]|] eqn:Hpage;
    [|done].
  intros [= <-]. simpl.
  destruct (collect_page_gathers _ _ _ _ _ Hpage) as (new & -> & Hnew & ->).
  by exists new.
Qed.

Lemma served_pages_cons_request w n rq evs :
  Spec.served_pages w (Request n rq :: evs)
  = match Spec.serves (sections_api w n rq) with
    | Some pg => pg :: Spec.served_pages w evs
    | None => Spec.served_pages w evs
    end.
Proof.
  unfold Spec.served_pages. simpl.
  by destruct (Spec.serves (sections_api w n rq)).
Qed.

(** A run that returns, returns the posts it began with followed by the
    parsed forms of the entries kept from the pages it was served. *)
Lemma fetch_loop_gathers w hashtag tab ck pages page st evs posts :
  Api.fetch_loop w hashtag tab ck pages page st = (evs, Returned posts) ->
  exists new,
    posts = (Api.all_posts st ++ new)%list
    /\ Spec.parsed_from
         (Spec.first_by_code (Api.seen_codes st)
            (Spec.medias_of (Spec.served_pages w evs)))
         new.
Proof.
  revert page st evs; induction pages as [|pages IH]; intros page st evs.
  { intros [= <- <-]. exists []. rewrite app_nil_r.
    split; [done|constructor]. }
  fetch_cases w hashtag tab ck page st.
  - destruct (Api.fetch_loop w hashtag tab ck pages (S page) st)
      as [evs' r] eqn:Hrest. simpl. intros [= <- ->].
    destruct (IH _ _ _ Hrest) as (new & -> & Hnew).
    exists new. split; [done|].
    rewrite served_pages_cons_request, rate_limited_serves_None by done.
    done.
  - intros [= <- <-]. exists []. rewrite app_nil_r. split; [done|].
    rewrite served_pages_cons_request, fails_serves_None by done.
    constructor.
  - done.
  - destruct (Api.fetch_loop w hashtag tab ck pages (S page) st')
      as [evs' r] eqn:Hrest. simpl. intros [= <- ->].
    destruct (IH _ _ _ Hrest) as (new & -> & Hnew).
    destruct (after_page_gathers _ _ _ Hafter) as (new0 & -> & Hnew0 & Hseen).
    exists (new0 ++ new)%list. rewrite app_assoc. split; [done|].
    rewrite served_pages_cons_request, Hs.
    unfold Spec.medias_of. cbn [map concat].
    rewrite first_by_code_app. apply Forall2_app; [done|].
    by rewrite <- Hseen.
  - done.
  - intros [= <- <-].
    destruct (after_page_gathers _ _ _ Hafter) as (new0 & -> & Hnew0 & Hseen).
    exists new0. split; [done|].
    rewrite served_pages_cons_request, Hs.
    unfold Spec.medias_of. cbn [map concat Spec.served_pages omap].
    by rewrite app_nil_r.
  - done.
Qed.

(** Every non-empty code among the entries is the code of an entry kept,
    unless it was seen before. *)
Lemma first_by_code_covers seen medias media c :
  In media medias -> Spec.nonempty_code media = Some c ->
  c ∈ seen
  \/ exists kept, In kept (Spec.first_by_code seen medias)
                  /\ Spec.nonempty_code kept = Some c.
Proof.
  revert seen; induction medias as [|m rest IH]; intros seen; [done|].
  intros [->|Hin] Hcode; cbn [Spec.first_by_code].
  - rewrite Hcode. case_bool_decide as Hseen; [by left|].
    right. exists media. split; [by left|done].
  - destruct (Spec.nonempty_code m) as [c'|] eqn:Hcode'; [|by apply IH].
    case_bool_decide as Hseen'; [by apply IH|].
    destruct (IH ({[c']} ∪ seen) Hin Hcode) as [Hseen|(kept & Hk & Hc)].
    + apply elem_of_union in Hseen as [Heq|Hseen]; [|by left].
      apply elem_of_singleton in Heq as ->. right. exists m.
      split; [by left|done].
    + right. exists kept. split; [by right|done].
Qed.

Lemma nonempty_code_get media c :
  Spec.nonempty_code media = Some c <->
  get (Raw.m_code media) = Some c /\ c <> "".
Proof.
  unfold Spec.nonempty_code.
  destruct (get (Raw.m_code media)) as [c'|]; [|naive_solver].
  destruct (String.eqb c' "") eqn:Hc.
  - apply String.eqb_eq in Hc. naive_solver.
  - apply String.eqb_neq in Hc. naive_solver.
Qed.

Lemma parsed_from_covers medias posts kept c :
  Spec.parsed_from medias posts ->
  In kept medias -> get (Raw.m_code kept) = Some c ->
  exists post, In post posts /\ get (Post.code post) = Some c.
Proof.
  induction 1 as [|media post medias posts Hparse _ IH]; [done|].
  intros [->|Hin] Hcode.
  - exists post. split; [by left|].
    rewrite (parse_media_code _ _ Hparse).
    by destruct (Raw.m_code kept) as [| |c']; simplify_eq/=.
  - destruct (IH Hin Hcode) as (p & Hp & Hc). exists p.
    split; [by right|done].
Qed.

End Gather.

(** C3, as stated, lets a rate-limited request be retried without using up
    an iteration. With [max_pages = 1] and a server that answers 429 once and
    serves pages afterwards, the single iteration is spent on the 429 and no
    page is fetched. *)
Lemma rate_limit_consumes_page_slot :
  ~ (forall (w : world) (max_pages : Z) (k : nat),
       (forall n rq, (n < k)%nat ->
          Spec.rate_limited (sections_api w n rq) = true) ->
       (forall n rq, (k <= n)%nat ->
          Spec.serves_more (sections_api w n rq) = true) ->
       Spec.count_answered w Spec.served
         (@Api.fetch_hashtag_posts Spec.ascii_host w "beijing" ∅ max_pages
                                   "top").1
       = Z.to_nat max_pages).
Proof.
  intros Hclaim.
  specialize (Hclaim Examples.rate_limited_once 1 1%nat).
  assert (0 = 1)%nat as Habs; [|discriminate Habs].
  apply Hclaim.
  - intros [|n] rq Hn; [reflexivity|lia].
  - intros [|n] rq Hn; [lia|reflexivity].
Qed.

(** C3 (amended). When a page request returns HTTP 429, the call sleeps
    30 to 60 seconds and asks for the same page again (the loop variables,
    and with them the cursor, are unchanged), and the retry uses up one of
    the [max_pages] iterations: rate-limited and served requests together
    never exceed [max_pages], and a call that returns, whose first [k]
    requests are rate-limited and whose later requests are all served with
    more pages available, has fetched [max_pages - k] pages. *)
Theorem rate_limit_retry_uses_slot `{Host} (w : world) (hashtag : string)
    (ck : cookies) (max_pages : Z) (tab : string) :
  let run := Api.fetch_hashtag_posts w hashtag ck max_pages tab in
  (forall pages page st,
     Spec.rate_limited
       (sections_api w page (Api.page_request hashtag tab ck st)) = true ->
     Api.fetch_loop w hashtag tab ck (S pages) page st =
     (Request page (Api.page_request hashtag tab ck st)
        :: Sleep 30000 60000
        :: (Api.fetch_loop w hashtag tab ck pages (S page) st).1,
      (Api.fetch_loop w hashtag tab ck pages (S page) st).2))
  /\ (Spec.count_answered w Spec.rate_limited run.1
      + Spec.count_answered w Spec.served run.1 <= Z.to_nat max_pages)%nat
  /\ (forall (k : nat) posts,
        (k <= Z.to_nat max_pages)%nat ->
        (forall n rq, (n < k)%nat ->
           Spec.rate_limited (sections_api w n rq) = true) ->
        (forall n rq, (k <= n)%nat ->
           Spec.serves_more (sections_api w n rq) = true) ->
        run.2 = Returned posts ->
        Spec.count_answered w Spec.served run.1
        = (Z.to_nat max_pages - k)%nat).
Proof.
  intros run. split; [|split].
  - intros pages page st. apply fetch_loop_rate_limited.
  - etransitivity; [apply answered_le_requests|].
    apply fetch_loop_requests_le.
  - intros k posts Hk Hrl Hmore Hret.
    by eapply fetch_loop_after_rate_limits.
Qed.

Lemma rate_limit_retry_uses_slot_witness :
  Spec.count_answered Examples.rate_limited_once Spec.served
    (@Api.fetch_hashtag_posts Spec.ascii_host Examples.rate_limited_once
                              "beijing" ∅ 5 "top").1
  = 4%nat.
Proof.
  destruct (@rate_limit_retry_uses_slot Spec.ascii_host
              Examples.rate_limited_once "beijing" ∅ 5 "top")
    as (_ & _ & Hcount).
  apply (Hcount 1%nat []).
  - vm_compute. lia.
  - intros [|n] rq Hn; [reflexivity|lia].
  - intros [|n] rq Hn; [lia|reflexivity].
  - vm_compute. reflexivity.
Defined.

(** C6. When a page request of a run fails with a transport error or with a
    status that is neither a success nor 429, [fetch_hashtag_posts] stops
    there and returns normally: the failing request is the last event, and
    the list returned holds, in order, the parsed form of every entry of the
    pages served before it that has a non-empty code not carried by an
    earlier entry, and nothing else. In particular every non-empty code
    of a page served before the failure is the code of a returned post. *)
Theorem partial_result_on_failure `{Host} (w : world) (hashtag : string)
    (ck : cookies) (max_pages : Z) (tab : string) (n : nat) (rq : request) :
  In (Request n rq) (Api.fetch_hashtag_posts w hashtag ck max_pages tab).1 ->
  Spec.fails (sections_api w n rq) = true ->
  exists evs posts,
    Api.fetch_hashtag_posts w hashtag ck max_pages tab
    = ((evs ++ [Request n rq])%list, Returned posts)
    /\ Spec.parsed_from
         (Spec.first_by_code ∅ (Spec.medias_of (Spec.served_pages w evs)))
         posts
    /\ (forall pg media c,
          In pg (Spec.served_pages w evs) ->
          In media (concat (Raw.sections pg)) ->
          get (Raw.m_code media) = Some c -> c <> "" ->
          exists post, In post posts /\ get (Post.code post) = Some c).
Proof.
  unfold Api.fetch_hashtag_posts. intros Hin Hfail.
  destruct (fetch_loop_failure_last _ _ _ _ _ _ _ _ _ Hin Hfail)
    as (evs & posts & Hrun).
  exists evs, posts. split; [exact Hrun|].
  destruct (fetch_loop_gathers _ _ _ _ _ _ _ _ _ Hrun) as (new & -> & Hnew).
  cbn [Api.all_posts Api.seen_codes app] in *.
  assert (Spec.served_pages w (evs ++ [Request n rq]) = Spec.served_pages w evs)
    as Hserved.
  { unfold Spec.served_pages. rewrite omap_app. simpl.
    rewrite fails_serves_None by done. by rewrite app_nil_r. }
  rewrite Hserved in Hnew. split; [exact Hnew|].
  intros pg media c Hpg Hmedia Hcode Hne.
  assert (In media (Spec.medias_of (Spec.served_pages w evs))) as Hall.
  { unfold Spec.medias_of. apply in_concat.
    exists (concat (Raw.sections pg)). split; [|done].
    apply in_map_iff. by exists pg. }
  assert (Spec.nonempty_code media = Some c) as Hnc
    by by apply nonempty_code_get.
  destruct (first_by_code_covers ∅ _ _ _ Hall Hnc)
    as [Hseen|(kept & Hkept & Hc)]; [set_solver|].
  apply nonempty_code_get in Hc as [Hc _].
  by eapply parsed_from_covers.
Qed.

Lemma partial_result_on_failure_witness :
  (@Api.fetch_hashtag_posts Spec.ascii_host Examples.breaks_on_second
                            "beijing" ∅ 5 "top").2
  = Returned [Examples.post_with_code "B"; Examples.post_with_code "C"]
  /\ exists post,
       In post [Examples.post_with_code "B"; Examples.post_with_code "C"]
       /\ get (Post.code post) = Some "C".
Proof.
  destruct (@partial_result_on_failure Spec.ascii_host
              Examples.breaks_on_second "beijing" ∅ 5 "top" 1%nat
              (mk_request "beijing" "top" (Some "p2") ∅))
    as (evs & posts & Hrun & _ & Hcover).
  - vm_compute. auto.
  - reflexivity.
  - assert (posts = [Examples.post_with_code "B";
                     Examples.post_with_code "C"]) as ->.
    { vm_compute in Hrun. by injection Hrun as _ <-. }
    split; [by rewrite Hrun|].
    assert (evs = [Request 0 (mk_request "beijing" "top" None ∅);
                   Sleep 1500 3000]) as ->.
    { vm_compute in Hrun. injection Hrun as Hevs.
      destruct evs as [|e1 [|e2 [|e3 evs]]]; simplify_eq/=; try done.
      by destruct evs. }
    apply (Hcover (Examples.page_of ["B"; "C"] true "p2")
                  (Examples.media_with_code "C") "C").
    + vm_compute. auto.
    + vm_compute. auto.
    + reflexivity.
    + discriminate.
Defined.




(** ** The SQLite backend: merge policies *)

Section SQLiteMerge.

Lemma insert_on_conflict_hit {R : Type} k (excluded current : R) f tb :
  SQLiteStorage.keyed tb !! k = Some current ->
  SQLiteStorage.keyed
    (SQLiteStorage.insert_on_conflict (Some k) excluded f tb) !! k
  = Some (f excluded current).
Proof.
  intros Hk. unfold SQLiteStorage.insert_on_conflict. rewrite Hk. simpl.
  apply lookup_insert_eq.
Qed.

Lemma insert_on_conflict_miss {R : Type} k (excluded : R) f tb :
  SQLiteStorage.keyed tb !! k = None ->
  SQLiteStorage.keyed
    (SQLiteStorage.insert_on_conflict (Some k) excluded f tb) !! k
  = Some excluded.
Proof.
  intros Hk. unfold SQLiteStorage.insert_on_conflict. rewrite Hk. simpl.
  apply lookup_insert_eq.
Qed.

Lemma insert_on_conflict_other {R : Type} key k' (excluded : R) f tb :
  key <> Some k' ->
  SQLiteStorage.keyed
    (SQLiteStorage.insert_on_conflict key excluded f tb) !! k'
  = SQLiteStorage.keyed tb !! k'.
Proof.
  intros Hne. unfold SQLiteStorage.insert_on_conflict.
  destruct key as [k|]; [|done].
  destruct (SQLiteStorage.keyed tb !! k); simpl;
    apply lookup_insert_ne; congruence.
Qed.

Lemma insert_on_conflict_null_key {R : Type} k (excluded : R) f tb :
  SQLiteStorage.null_key
    (SQLiteStorage.insert_on_conflict (Some k) excluded f tb)
  = SQLiteStorage.null_key tb.
Proof.
  unfold SQLiteStorage.insert_on_conflict.
  by destruct (SQLiteStorage.keyed tb !! k).
Qed.

End SQLiteMerge.

Section SQLiteBinds.

(** What the three upserts do, by whether their parameters bind. *)
Lemma upsert_post_binds post s :
  SQLiteStorage.post_binds (SQLiteStorage.post_params post) = true ->
  SQLiteStorage.upsert_post post s
  = (Returned true,
     SQLiteStorage.mk
       (SQLiteStorage.insert_on_conflict (get (Post.code post))
          (SQLiteStorage.post_params post) SQLiteStorage.post_on_conflict
          (SQLiteStorage.posts s))
       (SQLiteStorage.users s) (SQLiteStorage.comments s)
       (SQLiteStorage.write_image s) (SQLiteStorage.images s)).
Proof. intros Hb. unfold SQLiteStorage.upsert_post. by rewrite Hb. Qed.

Lemma upsert_post_overflows post s :
  SQLiteStorage.post_binds (SQLiteStorage.post_params post) = false ->
  SQLiteStorage.upsert_post post s = (Raised SQLiteStorage.OverflowError, s).
Proof. intros Hb. unfold SQLiteStorage.upsert_post. by rewrite Hb. Qed.

Lemma upsert_user_binds user s :
  SQLiteStorage.user_binds (SQLiteStorage.user_params user) = true ->
  SQLiteStorage.upsert_user user s
  = (Returned true,
     SQLiteStorage.mk (SQLiteStorage.posts s)
       (SQLiteStorage.insert_on_conflict (get (User.username user))
          (SQLiteStorage.user_params user) SQLiteStorage.user_on_conflict
          (SQLiteStorage.users s))
       (SQLiteStorage.comments s)
       (SQLiteStorage.write_image s) (SQLiteStorage.images s)).
Proof. intros Hb. unfold SQLiteStorage.upsert_user. by rewrite Hb. Qed.




(** The author record the scraper builds carries no integer. *)
Lemma minimal_user_binds username post :
  SQLiteStorage.user_binds
    (SQLiteStorage.user_params (Scraper.minimal_user username post)) = true.
Proof. done. Qed.

End SQLiteBinds.







(** ** [get_post_count] across backends *)

Section PostCount.

(** SQLite: one row per distinct code. *)
Lemma sqlite_post_count_distinct posts s :
  NoDup (map (fun p => get (Post.code p)) posts) ->
  (forall p, In p posts ->
     SQLiteStorage.post_binds (SQLiteStorage.post_params p) = true
     /\ exists c, get (Post.code p) = Some c
               /\ SQLiteStorage.keyed (SQLiteStorage.posts s) !! c = None) ->
  SQLiteStorage.get_post_count (Spec.upsert_posts posts s)
  = SQLiteStorage.get_post_count s + Z.of_nat (length posts).
Proof.
  revert s; induction posts as [|p posts IH]; intros s Hnd Hfresh.
  - simpl. lia.
  - cbn [map] in Hnd. apply NoDup_cons in Hnd as [Hp Hnd].
    destruct (Hfresh p (or_introl eq_refl)) as (Hb & c & Hc & Hnone).
    cbn [Spec.upsert_posts foldl].
    change (foldl _ ?s0 posts) with (Spec.upsert_posts posts s0).
    change (StorageBackend.upsert_post p s)
      with (SQLiteStorage.upsert_post p s).
    rewrite upsert_post_binds by done. cbn [snd].
    rewrite IH; [|done|].
    + unfold SQLiteStorage.get_post_count. cbn. rewrite Hc.
      unfold SQLiteStorage.insert_on_conflict. rewrite Hnone. cbn.
      rewrite map_size_insert_None by done. cbn [length]. lia.
    + intros p' Hin.
      destruct (Hfresh p' (or_intror Hin)) as (Hb' & c' & Hc' & Hnone').
      split; [done|].
      exists c'. split; [done|]. cbn. rewrite Hc.
      rewrite insert_on_conflict_other; [done|].
      intros [= ->]. apply Hp. rewrite Hc, <- Hc'.
      apply list_elem_of_In.
      apply (in_map (fun p => get (Post.code p))), Hin.
Qed.

(** JSON: below the flush threshold every new post is counted once in
    the code set and once more in the buffer. *)
Lemma json_post_count_distinct posts s :
  NoDup (map (fun p => get_or (Post.code p) "") posts) ->
  (forall p, In p posts ->
     get_or (Post.code p) "" ∉ JSONStorage._existing_codes s) ->
  (length (JSONStorage._posts s) + length posts < 100)%nat ->
  JSONStorage.get_post_count (Spec.upsert_posts posts s)
  = JSONStorage.get_post_count s + 2 * Z.of_nat (length posts).
Proof.
  revert s; induction posts as [|p posts IH]; intros s Hnd Hfresh Hlen.
  - simpl. lia.
  - cbn [map] in Hnd. apply NoDup_cons in Hnd as [Hp Hnd].
    pose proof (Hfresh p (or_introl eq_refl)) as Hnew.
    cbn [Spec.upsert_posts foldl].
    change (foldl _ ?s0 posts) with (Spec.upsert_posts posts s0).
    cbn [length] in Hlen.
    assert ((StorageBackend.upsert_post p s).2
            = JSONStorage.mk (JSONStorage.output_dir s)
                (JSONStorage._posts s ++ [p]) (JSONStorage._users s)
                (JSONStorage._comments s)
                ({[get_or (Post.code p) ""]} ∪ JSONStorage._existing_codes s)
                (JSONStorage.now s) (JSONStorage.clock_reads s))
      as ->.
    { change ((StorageBackend.upsert_post p s).2)
        with ((JSONStorage.upsert_post p s).2).
      unfold JSONStorage.upsert_post. cbn [snd JSONStorage._posts].
      rewrite length_app. cbn [length].
      destruct (Nat.leb_spec 100 (length (JSONStorage._posts s) + 1));
        [lia|done]. }
    rewrite IH; [|done| |].
    + unfold JSONStorage.get_post_count. cbn.
      rewrite size_union by set_solver.
      rewrite size_singleton, length_app. cbn [length]. lia.
    + intros p' Hin. cbn.
      pose proof (Hfresh p' (or_intror Hin)).
      assert (get_or (Post.code p') "" <> get_or (Post.code p) "").
      { intros Heq. apply Hp. rewrite <- Heq.
        apply list_elem_of_In.
        apply (in_map (fun p => get_or (Post.code p) "")), Hin. }
      set_solver.
    + cbn. rewrite length_app. cbn [length]. lia.
Qed.

End PostCount.

(** C9 (code and claim part ways). From empty storage, after upserting three
    posts with pairwise distinct codes, the SQLite backend's
    [get_post_count] returns 3 and the JSON backend's returns 6: the JSON
    backend adds the size of the code set, which already contains the
    buffered posts, to the length of the buffer. *)
Theorem json_get_post_count_counts_buffered_posts_twice :
  let posts := map Examples.post_with_code ["B"; "C"; "D"] in
  SQLiteStorage.get_post_count
    (Spec.upsert_posts posts (SQLiteStorage.init Spec.images_dir)) = 3
  /\ JSONStorage.get_post_count
       (Spec.upsert_posts posts
          (JSONStorage.init JSONStorage.empty_dir (fun _ => "20240101_000000")))
     = 6.
Proof.
  intros posts. split.
  - rewrite sqlite_post_count_distinct; [reflexivity| |].
    + cbn. repeat constructor; set_solver.
    + intros p [<-|[<-|[<-|[]]]]; (split; [reflexivity|]);
        eexists; split; reflexivity.
  - rewrite json_post_count_distinct; [reflexivity| | |].
    + cbn. repeat constructor; set_solver.
    + intros p _. cbn. set_solver.
    + cbn. lia.
Qed.

(** ** Run-level dedup of [scrape_hashtag] *)

Section KeepsCodes.

Lemma key_set_insert {R : Type} key (excluded : R) f tb :
  SQLiteStorage.key_set tb
  ⊆ SQLiteStorage.key_set
      (SQLiteStorage.insert_on_conflict key excluded f tb)
  /\ key ∈ SQLiteStorage.key_set
             (SQLiteStorage.insert_on_conflict key excluded f tb).
Proof.
  unfold SQLiteStorage.key_set, SQLiteStorage.insert_on_conflict.
  destruct key as [k|]; simpl.
  - destruct (SQLiteStorage.keyed tb !! k); simpl;
      rewrite dom_insert_L; set_solver.
  - destruct (SQLiteStorage.null_key tb); simpl; set_solver.
Qed.

#[global] Instance sqlite_keeps_codes : Spec.KeepsCodes SQLiteStorage.t.
Proof.
  split; simpl; unfold SQLiteStorage.get_existing_codes.
  - intros p s s' b. unfold SQLiteStorage.upsert_post.
    destruct (SQLiteStorage.post_binds _); [|done].
    intros [= _ <-] _. apply key_set_insert.
  - intros p s. unfold SQLiteStorage.upsert_post.
    destruct (SQLiteStorage.post_binds _); [|done]. apply key_set_insert.
  - intros u s. unfold SQLiteStorage.upsert_user.
    by destruct (SQLiteStorage.user_binds _).
  - intros image_bytes filename s. unfold SQLiteStorage.store_image.
    by destruct (SQLiteStorage.write_image s filename).
Qed.

Lemma json_flush_posts_codes s :
  JSONStorage._existing_codes (JSONStorage._flush_posts s)
  = JSONStorage._existing_codes s.
Proof. unfold JSONStorage._flush_posts. by destruct (JSONStorage._posts s). Qed.

Lemma json_flush_users_codes s :
  JSONStorage._existing_codes (JSONStorage._flush_users s)
  = JSONStorage._existing_codes s.
Proof. unfold JSONStorage._flush_users. by destruct (JSONStorage._users s). Qed.

Lemma json_upsert_post_codes p s :
  JSONStorage._existing_codes (JSONStorage.upsert_post p s).2
  = {[get_or (Post.code p) ""]} ∪ JSONStorage._existing_codes s.
Proof.
  unfold JSONStorage.upsert_post. cbn [snd].
  destruct (Nat.leb _ _); [by rewrite json_flush_posts_codes|done].
Qed.

#[global] Instance json_keeps_codes : Spec.KeepsCodes JSONStorage.t.
Proof.
  split.
  - intros p s s' b Hup Hcode.
    assert (s' = (JSONStorage.upsert_post p s).2) as ->
      by (change (StorageBackend.upsert_post p s)
            with (JSONStorage.upsert_post p s) in Hup; by rewrite Hup).
    change (get (Post.code p)
            ∈ JSONStorage._existing_codes (JSONStorage.upsert_post p s).2).
    rewrite json_upsert_post_codes.
    destruct (Post.code p); [done|set_solver..].
  - intros p s.
    change (JSONStorage._existing_codes s
            ⊆ JSONStorage._existing_codes (JSONStorage.upsert_post p s).2).
    rewrite json_upsert_post_codes. set_solver.
  - intros u s.
    change (JSONStorage._existing_codes s
            ⊆ JSONStorage._existing_codes (JSONStorage.upsert_user u s).2).
    unfold JSONStorage.upsert_user. cbn [snd].
    destruct (Nat.leb _ _); [by rewrite json_flush_users_codes|done].
  - done.
Qed.

End KeepsCodes.

Section Dedup.
Context `{Host} {S : Type} `{Spec.KeepsCodes S} (w : world).

Local Abbreviation codes := StorageBackend.get_existing_codes.

(** The comprehension raises exactly when a post lacks the key, and
    otherwise keeps the posts whose code is not in the snapshot. *)
Lemma select_new_returned posts existing new_posts :
  Scraper.select_new posts existing = Returned new_posts ->
  Forall (fun p => Post.code p <> Absent) posts
  /\ (forall p, In p new_posts -> In p posts)
  /\ (forall p, In p posts ->
        In p new_posts \/ get (Post.code p) ∈ existing).
Proof.
  revert new_posts; induction posts as [|p posts IH]; intros new_posts.
  - intros [= <-]. split; [constructor|]. split; [done|]. by intros p [].
  - cbn [Scraper.select_new].
    assert (forall code, subscript "code" (Post.code p) = Returned code ->
              Post.code p <> Absent /\ code = get (Post.code p)) as Hsub
      by (destruct (Post.code p); simpl; intros ? [=]; by subst).
    destruct (subscript "code" (Post.code p)) as [code|]; [|done].
    destruct (Hsub code eq_refl) as [Hpresent ->].
    destruct (Scraper.select_new posts existing) as [rest|]; [|done].
    destruct (IH rest eq_refl) as (Hall & Hsubset & Hcover).
    intros [= <-].
    split; [by constructor|].
    case_bool_decide as Hknown; split.
    + intros q Hq. right. by apply Hsubset.
    + intros q [<-|Hq]; [by right|by apply Hcover].
    + intros q [<-|Hq]; [by left|right; by apply Hsubset].
    + intros q [<-|Hq]; [left; by left|].
      destruct (Hcover q Hq); [left; by right|by right].
Qed.

Lemma select_new_all_known posts existing :
  Forall (fun p => Post.code p <> Absent) posts ->
  (forall p, In p posts -> get (Post.code p) ∈ existing) ->
  Scraper.select_new posts existing = Returned [].
Proof.
  induction 1 as [|p posts Hp Hall IH]; intros Hknown; [done|].
  cbn [Scraper.select_new].
  rewrite IH by (intros q Hq; apply Hknown; by right).
  pose proof (Hknown p (or_introl eq_refl)) as Hin.
  destruct (Post.code p) as [| |c]; simpl in *; [done|..];
    by rewrite bool_decide_eq_true_2.
Qed.

(** The image step changes neither the post's code nor the stored codes. *)
Lemma attach_image_codes dl post s evs r s1 :
  Scraper.attach_image w dl post s = (evs, r, s1) ->
  codes s ⊆ codes s1
  /\ (forall post1, r = Returned post1 -> Post.code post1 = Post.code post).
Proof.
  unfold Scraper.attach_image.
  destruct (dl && truthy_str (get (Post.image_url post)));
    [|by intros [= <- <- <-]; split; [|intros ? [= <-]]].
  destruct (Scraper.download_image w _) as [evs0 [[|b bs]|]];
    try by intros [= <- <- <-]; split; [|intros ? [= <-]].
  destruct (subscript "code" (Post.code post)) as [code|];
    [|by intros [= <- <- <-]].
  pose proof (Spec.store_image_keeps_codes (b :: bs)
                (Scraper.jpg_name code) s) as Hkeep.
  destruct (StorageBackend.store_image _ _ s) as [[url|e] s'];
    intros [= <- <- <-]; (split; [done|]); [|done].
  intros post1 [= <-]. by destruct (truthy_str url).
Qed.

Lemma upsert_author_codes username post s users_seen evs r s1 :
  Scraper.upsert_author username post s users_seen = (evs, r, s1) ->
  codes s ⊆ codes s1.
Proof.
  unfold Scraper.upsert_author.
  destruct (negb (String.eqb username "")); [|by intros [= <- <- <-]].
  pose proof (Spec.upsert_user_keeps_codes
                (Scraper.minimal_user username post) s) as Hkeep.
  by destruct (StorageBackend.upsert_user _ s) as [[b|e] s'];
    intros [= <- <- <-].
Qed.

(** Storing the new posts only adds codes, and when the loop runs to its
    end it has added the code of every post. *)
Lemma store_posts_codes dl new_posts s users_seen stored evs r s1 :
  Scraper.store_posts w dl new_posts s users_seen stored = (evs, r, s1) ->
  codes s ⊆ codes s1
  /\ (forall v, r = Returned v ->
        forall p, In p new_posts -> Post.code p <> Absent ->
                  get (Post.code p) ∈ codes s1).
Proof.
  revert s users_seen stored evs r s1;
    induction new_posts as [|post rest IH];
    intros s users_seen stored evs r s1.
  - intros [= <- <- <-]. split; [done|]. by intros v _ p [].
  - cbn [Scraper.store_posts].
    destruct (Scraper.attach_image w dl post s) as [[evs0 r0] s0] eqn:Himg.
    apply attach_image_codes in Himg as [Hs0 Hcode].
    destruct r0 as [post1|e]; [|by intros [= <- <- <-]].
    specialize (Hcode post1 eq_refl).
    destruct (Scraper.upsert_author _ post1 s0 users_seen)
      as [[evs_user r_user] s2] eqn:Huser.
    apply upsert_author_codes in Huser.
    destruct r_user as [users_seen'|e];
      [|intros [= <- <- <-]; split; [set_solver|done]].
    pose proof (Spec.upsert_post_keeps_codes post1 s2) as Hpost.
    destruct (StorageBackend.upsert_post post1 s2) as [[b|e] s3] eqn:Hup;
      [|intros [= <- <- <-]; split; [set_solver|done]].
    destruct (Scraper.store_posts w dl rest s3 users_seen' (stored + 1))
      as [[evs_rest r'] s4] eqn:Hrest.
    intros [= <- <- <-]. apply IH in Hrest as [Hmono Hadded].
    simpl in Hpost. split; [set_solver|].
    intros v Hv p [<-|Hin] Hp; [|by eapply Hadded].
    rewrite <- Hcode. apply Hmono.
    eapply Spec.upsert_post_adds_code; [done|congruence].
Qed.

(** Enrichment only upserts users. *)
Lemma enrich_codes ck to_enrich s evs r s1 :
  Scraper.enrich w ck to_enrich s = (evs, r, s1) -> codes s ⊆ codes s1.
Proof.
  revert s evs r s1; induction to_enrich as [|uname rest IH];
    intros s evs r s1.
  - by intros [= <- <- <-].
  - cbn [Scraper.enrich].
    destruct (Api.fetch_user_profile w uname ck) as [evs0 [[profile|]|e]].
    + pose proof (Spec.upsert_user_keeps_codes profile s) as Huser.
      destruct (StorageBackend.upsert_user profile s) as [[b|e] s0];
        [|by intros [= <- <- <-]].
      destruct (get_or (User.followers profile) 0).
      * destruct (Scraper.enrich w ck rest _) as [[evs_rest r'] s'] eqn:Hrest.
        intros [= <- <- <-]. apply IH in Hrest. simpl in Huser. set_solver.
      * by intros [= <- <- <-].
    + destruct (Scraper.enrich w ck rest s) as [[evs_rest r'] s'] eqn:Hrest.
      intros [= <- <- <-]. by apply IH in Hrest.
    + by intros [= <- <- <-].
Qed.

(** Every post [parse_media] builds has the ["code"] key, so the fetched
    list can be subscripted. *)
Lemma parse_media_code_present media post :
  Api.parse_media media = Returned post -> Post.code post <> Absent.
Proof.
  intros Hparse. rewrite (parse_media_code _ _ Hparse).
  by destruct (get_or (Raw.m_code media) "").
Qed.

Lemma collect_page_present medias seen page_posts posts' seen' :
  Forall (fun p => Post.code p <> Absent) page_posts ->
  Api.collect_page medias seen page_posts = Returned (posts', seen') ->
  Forall (fun p => Post.code p <> Absent) posts'.
Proof.
  revert seen page_posts; induction medias as [|media rest IH];
    intros seen page_posts Hall; [by intros [= <- <-]|].
  cbn [Api.collect_page].
  destruct (get (Raw.m_code media)) as [c|]; [|by apply IH].
  destruct (negb _ || _); [by apply IH|].
  destruct (Api.parse_media media) as [post|] eqn:Hparse; [|done].
  apply IH. apply Forall_app. split; [done|].
  constructor; [by eapply parse_media_code_present|constructor].
Qed.

Lemma after_page_present st pg st' :
  Forall (fun p => Post.code p <> Absent) (Api.all_posts st) ->
  Api.after_page st pg = Returned st' ->
  Forall (fun p => Post.code p <> Absent) (Api.all_posts st').
Proof.
  intros Hall. unfold Api.after_page.
  destruct (Api.collect_page _ _ _) as [[page_posts seen]|] eqn:Hpage;
    [|done].
  intros [= <-]. simpl. apply Forall_app. split; [done|].
  by eapply (collect_page_present _ _ []).
Qed.

Lemma fetch_loop_present hashtag tab ck pages page st posts :
  Forall (fun p => Post.code p <> Absent) (Api.all_posts st) ->
  (Api.fetch_loop w hashtag tab ck pages page st).2 = Returned posts ->
  Forall (fun p => Post.code p <> Absent) posts.
Proof.
  revert page st; induction pages as [|pages IH]; intros page st Hall.
  - by intros [= <-].
  - fetch_cases w hashtag tab ck page st; cbn [snd]; try done.
    + by apply IH.
    + by intros [= <-].
    + apply IH. by eapply after_page_present.
    + intros [= <-]. by eapply after_page_present.
Qed.

Lemma select_new_present posts existing :
  Forall (fun p => Post.code p <> Absent) posts ->
  exists new_posts, Scraper.select_new posts existing = Returned new_posts.
Proof.
  induction 1 as [|p posts Hp Hall [new_posts IH]]; [by eexists|].
  cbn [Scraper.select_new]. rewrite IH.
  destruct (Post.code p); [done|simpl; eauto..].
Qed.

(** After a run that returns, the code of every post the feed delivered
    is in storage. *)
Lemma scrape_hashtag_stores_codes hashtag ck storage max_pages tab dl en
      evs0 posts n :
  Api.fetch_hashtag_posts w hashtag ck max_pages tab
  = (evs0, Returned posts) ->
  (Scraper.scrape_hashtag w hashtag ck storage max_pages tab dl en).1.2
  = Returned n ->
  forall p, In p posts ->
    get (Post.code p)
    ∈ codes (Scraper.scrape_hashtag w hashtag ck storage max_pages tab
                                    dl en).2.
Proof.
  intros Hfetch.
  assert (Forall (fun p => Post.code p <> Absent) posts) as Hpresent.
  { eapply (fetch_loop_present hashtag tab ck _ 0%nat
              (Api.mk_fetch_state [] ∅ None)); [constructor|].
    unfold Api.fetch_hashtag_posts in Hfetch. by rewrite Hfetch. }
  unfold Scraper.scrape_hashtag. rewrite Hfetch.
  destruct (select_new_present posts (codes storage) Hpresent)
    as [new_posts Hsel].
  rewrite Hsel.
  apply select_new_returned in Hsel as (_ & Hsub & Hcover).
  destruct new_posts as [|p0 ps].
  { intros _ p Hp. by destruct (Hcover p Hp) as [[]|]. }
  destruct (Scraper.store_posts w dl (p0 :: ps) storage ∅ 0)
    as [[evs1 r1] s'] eqn:Hstore.
  apply store_posts_codes in Hstore as [Hmono Hadded].
  destruct r1 as [[users_seen stored]|e]; [|done].
  assert (forall p, In p posts -> get (Post.code p) ∈ codes s') as Hknown.
  { intros p Hp. destruct (Hcover p Hp) as [Hin|Hold]; [|by apply Hmono].
    eapply Hadded; [done..|].
    rewrite Forall_forall in Hpresent. by apply Hpresent, list_elem_of_In. }
  destruct en; [|done].
  destruct (Scraper.enrich w ck _ s') as [[evs2 r2] s2] eqn:Henrich.
  apply enrich_codes in Henrich.
  destruct r2; [|done]. intros _ p Hp. specialize (Hknown p Hp).
  set_solver.
Qed.

(** A run over a feed whose posts are all known: nothing but the fetch. *)
Lemma scrape_hashtag_all_known hashtag ck s1 max_pages tab dl en evs0 posts :
  Api.fetch_hashtag_posts w hashtag ck max_pages tab
  = (evs0, Returned posts) ->
  (forall p, In p posts -> get (Post.code p) ∈ codes s1) ->
  Scraper.scrape_hashtag w hashtag ck s1 max_pages tab dl en
  = (evs0, Returned 0, s1).
Proof.
  intros Hfetch Hknown.
  unfold Scraper.scrape_hashtag. rewrite Hfetch.
  rewrite select_new_all_known; [done| |done].
  eapply (fetch_loop_present hashtag tab ck _ 0%nat
            (Api.mk_fetch_state [] ∅ None)); [constructor|].
  unfold Api.fetch_hashtag_posts in Hfetch. by rewrite Hfetch.
Qed.

(** When the fetch raises, so does the run, before touching storage. *)
Lemma scrape_hashtag_fetch_raises hashtag ck storage max_pages tab dl en
      evs0 e :
  Api.fetch_hashtag_posts w hashtag ck max_pages tab = (evs0, Raised e) ->
  Scraper.scrape_hashtag w hashtag ck storage max_pages tab dl en
  = (evs0, Raised e, storage).
Proof. intros Hfetch. unfold Scraper.scrape_hashtag. by rewrite Hfetch. Qed.

End Dedup.

(** A fetch only issues requests and sleeps. *)
Lemma fetch_loop_no_upsert `{Host} w hashtag tab ck pages page st :
  Forall (fun e => Spec.is_upsert e = false)
         (Api.fetch_loop w hashtag tab ck pages page st).1.
Proof.
  revert page st; induction pages as [|pages IH]; intros page st;
    [constructor|].
  fetch_cases w hashtag tab ck page st; simpl;
    repeat constructor; apply IH.
Qed.

Section Twice.
Context `{Host} {S : Type} `{Spec.KeepsCodes S}.

(** Two runs over an unchanged feed, on any backend that keeps its codes. *)
Lemma scrape_hashtag_twice (w : world) hashtag ck (storage : S) max_pages
      tab dl en :
  let first :=
    Scraper.scrape_hashtag w hashtag ck storage max_pages tab dl en in
  let fetch := Api.fetch_hashtag_posts w hashtag ck max_pages tab in
  Forall (fun e => Spec.is_upsert e = false) fetch.1
  /\ match fetch.2 with
     | Returned posts =>
         forall n, first.1.2 = Returned n ->
           Scraper.scrape_hashtag w hashtag ck first.2 max_pages tab dl en
           = (fetch.1, Returned 0, first.2)
           /\ (forall p, In p posts ->
                 get (Post.code p)
                 ∈ StorageBackend.get_existing_codes first.2)
     | Raised e =>
         first = (fetch.1, Raised e, storage)
         /\ Scraper.scrape_hashtag w hashtag ck first.2 max_pages tab dl en
            = (fetch.1, Raised e, storage)
     end.
Proof.
  intros first fetch. split; [apply fetch_loop_no_upsert|].
  destruct fetch as [evs0 [posts|e]] eqn:Hfetch; subst fetch; simpl.
  - intros n Hn.
    pose proof (scrape_hashtag_stores_codes w hashtag ck storage max_pages
                  tab dl en evs0 posts n Hfetch Hn) as Hknown.
    split; [|done]. by apply scrape_hashtag_all_known with posts.
  - assert (first = (evs0, Raised e, storage)) as Hfirst
      by by apply scrape_hashtag_fetch_raises.
    split; [done|]. rewrite Hfirst. simpl.
    by apply scrape_hashtag_fetch_raises.
Qed.

End Twice.




(** The same on the JSON backend. *)
Lemma scrape_hashtag_twice_json `{Host} (w : world)
    (hashtag : string) (ck : cookies) (storage : JSONStorage.t)
    (max_pages : Z) (tab : string) (download_images enrich_users : bool)
    (posts : list Post.t) (n : Z) :
  let first :=
    Scraper.scrape_hashtag w hashtag ck storage max_pages tab
                           download_images enrich_users in
  let fetch := Api.fetch_hashtag_posts w hashtag ck max_pages tab in
  fetch.2 = Returned posts ->
  first.1.2 = Returned n ->
  Scraper.scrape_hashtag w hashtag ck first.2 max_pages tab
                         download_images enrich_users
  = (fetch.1, Returned 0, first.2).
Proof.
  intros first fetch Hfetch Hfirst.
  destruct (scrape_hashtag_twice w hashtag ck storage max_pages tab
              download_images enrich_users) as [_ Hsecond].
  fold fetch in Hsecond. rewrite Hfetch in Hsecond.
  by apply (Hsecond n).
Qed.

(** ** The daemon's cycle *)

Section DaemonCycle.
Context {W : Type} `{Daemon.Env W}.
Variables (cookie_file : string) (target : Z) (download_images : bool).

Local Abbreviation phase1 :=
  (Daemon.phase1_top_posts cookie_file target download_images).



(** A trace that does not begin with a crawl call is guarded whatever
    came before it. *)
Lemma fetches_guarded_head prev prev' acts :
  match acts with
  | a :: _ => Spec.is_crawl_call a = false
  | [] => True
  end ->
  Spec.fetches_guarded target prev acts
  = Spec.fetches_guarded target prev' acts.
Proof. destruct acts as [|a acts]; [done|]. simpl. by intros ->. Qed.

Lemma phase1_head shuffled s :
  match (phase1 shuffled s).1.1 with
  | a :: _ => Spec.is_crawl_call a = false
  | [] => True
  end.
Proof.
  destruct shuffled as [|tag rest]; [done|].
  cbn [Daemon.phase1_top_posts].
  unfold Daemon.bind at 1. unfold Daemon.is_running at 1.
  destruct (Daemon.running (Daemon.world s)); simpl; [|done].
  unfold Daemon.bind at 1. unfold Daemon.post_count at 1.
  by destruct (_ s) as [[acts r] s'].
Qed.




End DaemonCycle.



(** * Further properties *)

(** ** api.py: what a fetch returns *)

Section FetchDedup.
Context `{Host} (w : world).

Local Abbreviation gathered := Props.gathered.

Lemma parse_media_gets_code media c post :
  get (Raw.m_code media) = Some c ->
  Api.parse_media media = Returned post ->
  get (Post.code post) = Some c.
Proof.
  intros Hc Hparse. rewrite (parse_media_code _ _ Hparse).
  by destruct (Raw.m_code media) as [| |c']; simplify_eq/=.
Qed.

Lemma collect_page_gathered medias seen page_posts prev posts' seen' :
  gathered (prev ++ page_posts) seen ->
  Api.collect_page medias seen page_posts = Returned (posts', seen') ->
  gathered (prev ++ posts') seen'.
Proof.
  revert seen page_posts; induction medias as [|media rest IH];
    intros seen page_posts Hinv; [by intros [= <- <-]|].
  cbn [Api.collect_page].
  destruct (get (Raw.m_code media)) as [c|] eqn:Hc; [|by apply IH].
  destruct (negb (truthy_str (Some c))) eqn:Htruthy; simpl; [by apply IH|].
  case_bool_decide as Hseen; [by apply IH|].
  destruct (Api.parse_media media) as [post|] eqn:Hparse; [|done].
  apply IH. destruct Hinv as [Hnd Hall].
  pose proof (parse_media_gets_code _ _ _ Hc Hparse) as Hpm.
  rewrite app_assoc. split.
  - unfold Props.codes_of. rewrite map_app. simpl.
    apply NoDup_app. split; [done|]. split; [|apply NoDup_singleton].
    intros code Hin Hnew. apply list_elem_of_singleton in Hnew as ->.
    apply list_elem_of_In, in_map_iff in Hin as (p & Hp & Hin).
    destruct (Hall p Hin) as (c' & Hc' & _ & Hmem).
    congruence.
  - intros p Hin. apply in_app_or in Hin as [Hin|[<-|[]]].
    + destruct (Hall p Hin) as (c' & Hc' & Hne & Hmem).
      exists c'. repeat split; [done..|set_solver].
    + exists c. split; [done|].
      split; [|set_solver].
      simpl in Htruthy. intros ->. done.
Qed.

Lemma after_page_gathered st pg st' :
  gathered (Api.all_posts st) (Api.seen_codes st) ->
  Api.after_page st pg = Returned st' ->
  gathered (Api.all_posts st') (Api.seen_codes st').
Proof.
  intros Hinv. unfold Api.after_page.
  destruct (Api.collect_page _ _ _) as [[page_posts seen]|] eqn:Hpage;
    [|done].
  intros [= <-]. simpl.
  eapply (collect_page_gathered _ _ [] (Api.all_posts st)); [|done].
  by rewrite app_nil_r.
Qed.

Lemma fetch_loop_gathered hashtag tab ck pages page st posts :
  gathered (Api.all_posts st) (Api.seen_codes st) ->
  (Api.fetch_loop w hashtag tab ck pages page st).2 = Returned posts ->
  exists seen, gathered posts seen.
Proof.
  revert page st; induction pages as [|pages IH]; intros page st Hinv.
  - intros [= <-]. eauto.
  - fetch_cases w hashtag tab ck page st; cbn [snd]; try done.
    + by apply IH.
    + intros [= <-]. eauto.
    + apply IH. by eapply after_page_gathered.
    + intros [= <-]. eexists. by eapply after_page_gathered.
Qed.

(** The posts of one call carry pairwise distinct, non-empty codes. *)
Lemma fetch_hashtag_posts_distinct hashtag ck max_pages tab evs posts :
  Api.fetch_hashtag_posts w hashtag ck max_pages tab = (evs, Returned posts) ->
  NoDup (Props.codes_of posts)
  /\ Forall (fun p => truthy_str (get (Post.code p)) = true) posts.
Proof.
  intros Hfetch.
  destruct (fetch_loop_gathered hashtag tab ck (Z.to_nat max_pages) 0%nat
              (Api.mk_fetch_state [] ∅ None) posts) as (seen & Hnd & Hall).
  - split; [constructor|]. by intros p [].
  - unfold Api.fetch_hashtag_posts in Hfetch. by rewrite Hfetch.
  - split; [done|]. apply Forall_forall. intros p Hin.
    apply list_elem_of_In in Hin.
    destruct (Hall p Hin) as (c & -> & Hne & _). simpl.
    by destruct (String.eqb_spec c "").
Qed.

End FetchDedup.

(** X1. Whatever the server sends (repeated entries within a page or across
    pages, entries without a code or with an empty one), the posts that
    [fetch_hashtag_posts] returns carry pairwise distinct, non-empty codes. *)
Theorem fetch_hashtag_posts_dedups `{Host} (w : world) (hashtag : string)
    (ck : cookies) (max_pages : Z) (tab : string) (evs : list event)
    (posts : list Post.t) :
  Api.fetch_hashtag_posts w hashtag ck max_pages tab = (evs, Returned posts) ->
  NoDup (Props.codes_of posts)
  /\ Forall (fun p => truthy_str (get (Post.code p)) = true) posts.
Proof. apply fetch_hashtag_posts_distinct. Qed.

Lemma fetch_hashtag_posts_dedups_witness :
  exists posts,
    (@Api.fetch_hashtag_posts Spec.ascii_host Examples.two_pages "beijing" ∅
                              20 "top").2 = Returned posts
    /\ Props.codes_of posts = [Some "B"; Some "C"; Some "D"]
    /\ NoDup (Props.codes_of posts).
Proof.
  pose proof (@fetch_hashtag_posts_dedups Spec.ascii_host Examples.two_pages
                "beijing" ∅ 20 "top") as Hdedup.
  destruct (@Api.fetch_hashtag_posts Spec.ascii_host Examples.two_pages
              "beijing" ∅ 20 "top") as [evs [posts|e]] eqn:Hfetch.
  - exists posts. split; [reflexivity|].
    destruct (Hdedup evs posts eq_refl) as [Hnd _].
    split; [|exact Hnd].
    vm_compute in Hfetch. injection Hfetch as _ <-. reflexivity.
  - vm_compute in Hfetch. discriminate Hfetch.
Defined.

Section FetchComments.
Context `{Host} (w : world).

Lemma comments_loop_requests_le post_code media_pk ck pages page acc min_id :
  (length (List.filter Props.is_comments_request
             (Api.comments_loop w post_code media_pk ck pages page acc
                                min_id).1) <= pages)%nat.
Proof.
  revert page acc min_id; induction pages as [|pages IH];
    intros page acc min_id; [simpl; lia|].
  cbn [Api.comments_loop].
  destruct (comments_api w page _) as [msg|sc ct body]; [simpl; lia|].
  destruct (Z.eqb sc 429).
  { specialize (IH (S page) acc min_id).
    destruct (Api.comments_loop w post_code media_pk ck pages _ _ _).
    simpl in *. lia. }
  destruct (negb (ok sc)); [simpl; lia|].
  destruct (negb (contains "json" ct)); [simpl; lia|].
  destruct body as [result|]; [|simpl; lia].
  destruct (Api.parse_comments post_code _ acc) as [acc'|e]; [|simpl; lia].
  destruct (get (Raw.has_more_comments result)) as [[]|]; try (simpl; lia).
  destruct (truthy_str (get (Raw.next_min_id result))); [|simpl; lia].
  match goal with
  | |- context [Api.comments_loop w post_code media_pk ck pages ?p ?a ?m] =>
      specialize (IH p a m);
      destruct (Api.comments_loop w post_code media_pk ck pages p a m)
  end.
  simpl in *. lia.
Qed.

Lemma parse_comments_post_id post_code cs acc acc' :
  Forall (fun c => Comment.post_id c = Val post_code) acc ->
  Api.parse_comments post_code cs acc = Returned acc' ->
  Forall (fun c => Comment.post_id c = Val post_code) acc'.
Proof.
  revert acc; induction cs as [|c rest IH]; intros acc Hacc;
    [by intros [= <-]|].
  cbn [Api.parse_comments]. unfold Api.parse_comment.
  destruct (Api.posted_at_of _) as [posted_at|]; [|done].
  apply IH. apply Forall_app. split; [done|]. by repeat constructor.
Qed.

Lemma comments_loop_post_id post_code media_pk ck pages page acc min_id
      comments :
  Forall (fun c => Comment.post_id c = Val post_code) acc ->
  (Api.comments_loop w post_code media_pk ck pages page acc min_id).2
  = Returned comments ->
  Forall (fun c => Comment.post_id c = Val post_code) comments.
Proof.
  revert page acc min_id; induction pages as [|pages IH];
    intros page acc min_id Hacc; [by intros [= <-]|].
  cbn [Api.comments_loop].
  destruct (comments_api w page _) as [msg|sc ct body]; [by intros [= <-]|].
  destruct (Z.eqb sc 429).
  { specialize (IH (S page) acc min_id Hacc).
    by destruct (Api.comments_loop w post_code media_pk ck pages _ _ _). }
  destruct (negb (ok sc)); [by intros [= <-]|].
  destruct (negb (contains "json" ct)); [by intros [= <-]|].
  destruct body as [result|]; [|done].
  destruct (Api.parse_comments post_code _ acc) as [acc'|e] eqn:Hparse;
    [|done].
  pose proof (parse_comments_post_id _ _ _ _ Hacc Hparse) as Hacc'.
  destruct (get (Raw.has_more_comments result)) as [[]|];
    try by intros [= <-].
  destruct (truthy_str (get (Raw.next_min_id result)));
    [|by intros [= <-]].
  match goal with
  | |- context [Api.comments_loop w post_code media_pk ck pages ?p ?a ?m] =>
      specialize (IH p a m Hacc');
      destruct (Api.comments_loop w post_code media_pk ck pages p a m)
  end.
  done.
Qed.

End FetchComments.

(** X2. [fetch_comments] decodes the shortcode before anything else: for a
    code with a character outside the alphabet it raises the [ValueError]
    without sending a request. In every case it sends at most [max_pages]
    requests, and every comment it returns carries the post's code as
    [post_id]. *)
Theorem fetch_comments_requests_and_owner `{Host} (w : world)
    (post_code : string) (ck : cookies) (max_pages : Z) :
  let run := Api.fetch_comments w post_code ck max_pages in
  (Spec.alphabet_code post_code = false ->
   exists msg, run = ([], Raised (Exception "ValueError" msg)))
  /\ (length (List.filter Props.is_comments_request run.1)
      <= Z.to_nat max_pages)%nat
  /\ (forall comments,
        run.2 = Returned comments ->
        Forall (fun c => Comment.post_id c = Val post_code) comments).
Proof.
  intros run. subst run. unfold Api.fetch_comments, Api.shortcode_to_media_pk.
  pose proof (shortcode_loop_total post_code 0) as Htotal.
  destruct (Api.shortcode_loop 0 post_code) as [media_pk|].
  - split.
    + intros Hbad. rewrite (proj1 Htotal) in Hbad by eauto. done.
    + split; [apply comments_loop_requests_le|].
      intros comments. by apply comments_loop_post_id.
  - split; [eauto|]. split; [simpl; lia|done].
Qed.

Lemma fetch_comments_requests_and_owner_witness :
  exists msg,
    @Api.fetch_comments Spec.ascii_host Examples.two_pages "Cx!R" ∅ 3
    = ([], Raised (Exception "ValueError" msg)).
Proof.
  destruct (@fetch_comments_requests_and_owner Spec.ascii_host
              Examples.two_pages "Cx!R" ∅ 3) as [Hbad _].
  apply Hbad. reflexivity.
Defined.

Section BestImage.


End BestImage.



(** ** storage/sqlite_store.py: comments and enrichment state *)



Section NeedingComments.

Lemma likes_ltb_irrefl_trans a b c :
  SQLiteStorage.likes_ltb b a = true ->
  SQLiteStorage.likes_ltb b c = false ->
  SQLiteStorage.likes_ltb a c = false.
Proof.
  destruct a as [x|], b as [y|], c as [z|]; simpl; try done;
    rewrite ?Z.ltb_lt, ?Z.ltb_ge; lia.
Qed.

Lemma likes_ge_trans a b c :
  Props.likes_ge a b -> Props.likes_ge b c -> Props.likes_ge a c.
Proof.
  unfold Props.likes_ge.
  destruct (PostRow.likes a.2) as [x|], (PostRow.likes b.2) as [y|],
    (PostRow.likes c.2) as [z|]; simpl; try done;
    rewrite ?Z.ltb_ge; lia.
Qed.

Lemma insert_by_likes_In x y sorted :
  In y (SQLiteStorage.insert_by_likes x sorted) <-> y = x \/ In y sorted.
Proof.
  induction sorted as [|z rest IH]; simpl; [naive_solver|].
  destruct (SQLiteStorage.likes_ltb _ _); simpl; [naive_solver|].
  rewrite IH. naive_solver.
Qed.

Lemma insert_by_likes_sorted x sorted :
  StronglySorted Props.likes_ge sorted ->
  StronglySorted Props.likes_ge (SQLiteStorage.insert_by_likes x sorted).
Proof.
  induction 1 as [|z rest Hsorted IH Hz]; simpl;
    [by repeat constructor|].
  destruct (SQLiteStorage.likes_ltb (PostRow.likes z.2) (PostRow.likes x.2))
    eqn:Hlt.
  - constructor; [by constructor|].
    assert (Props.likes_ge x z) as Hxz.
    { unfold Props.likes_ge.
      destruct (PostRow.likes z.2) as [a|], (PostRow.likes x.2) as [b|];
        simpl in *; try done. rewrite Z.ltb_lt in Hlt. rewrite Z.ltb_ge. lia. }
    constructor; [done|].
    eapply Forall_impl; [exact Hz|]. intros y Hy.
    by eapply likes_ge_trans.
  - constructor; [done|].
    apply Forall_forall. intros y Hy.
    apply list_elem_of_In, insert_by_likes_In in Hy as [->|Hy]; [done|].
    rewrite Forall_forall in Hz. by apply Hz, list_elem_of_In.
Qed.

Lemma order_by_likes_desc_In y rows :
  In y (SQLiteStorage.order_by_likes_desc rows) <-> In y rows.
Proof.
  unfold SQLiteStorage.order_by_likes_desc.
  induction rows as [|x rows IH]; simpl; [done|].
  rewrite insert_by_likes_In, IH. naive_solver.
Qed.

Lemma order_by_likes_desc_sorted rows :
  StronglySorted Props.likes_ge (SQLiteStorage.order_by_likes_desc rows).
Proof.
  unfold SQLiteStorage.order_by_likes_desc.
  induction rows as [|x rows IH]; simpl; [constructor|].
  by apply insert_by_likes_sorted.
Qed.

Lemma LIMIT_lookup {A} limit (rows : list A) i x :
  SQLiteStorage.LIMIT limit rows !! i = Some x -> rows !! i = Some x.
Proof.
  unfold SQLiteStorage.LIMIT. destruct (Z.ltb limit 0); [done|].
  intros Hi. by apply lookup_take_Some in Hi as [? _].
Qed.

Lemma LIMIT_length {A} limit (rows : list A) :
  0 <= limit ->
  (length (SQLiteStorage.LIMIT limit rows) <= Z.to_nat limit)%nat.
Proof.
  intros Hl. unfold SQLiteStorage.LIMIT.
  destruct (Z.ltb_spec limit 0); [lia|]. rewrite length_take. lia.
Qed.

Lemma StronglySorted_lookup_lt {A} (R : A -> A -> Prop) l i j a b :
  StronglySorted R l -> (i < j)%nat ->
  l !! i = Some a -> l !! j = Some b -> R a b.
Proof.
  intros Hs. revert i j. induction Hs as [|x l Hs IH Hx]; intros i j Hij;
    [done|].
  destruct j as [|j]; [lia|]. destruct i as [|i]; simpl.
  - intros [= <-] Hb. rewrite Forall_forall in Hx.
    apply Hx. by eapply list_elem_of_lookup_2.
  - apply IH. lia.
Qed.

Lemma scan_posts_keyed s c row :
  In (Some c, row) (Props.scan_posts s) <->
  SQLiteStorage.keyed (SQLiteStorage.posts s) !! c = Some row.
Proof.
  unfold Props.scan_posts. rewrite in_app_iff, !in_map_iff. split.
  - intros [([k r] & [= <- <-] & Hin)|(r & [=] & _)].
    by apply list_elem_of_In, elem_of_map_to_list in Hin.
  - intros Hrow. left. exists (c, row). split; [done|].
    by apply list_elem_of_In, elem_of_map_to_list.
Qed.

(** The candidates, before the projection to code and count. *)
Lemma needing_comments_rows limit s :
  SQLiteStorage.get_posts_needing_comments limit s
  = if int64 limit then
      Returned
        (map (fun p => (p.1, PostRow.comments_count p.2))
             (SQLiteStorage.LIMIT limit
                (SQLiteStorage.order_by_likes_desc
                   (List.filter
                      (SQLiteStorage.needs_comments
                         (SQLiteStorage.commented_posts s))
                      (Props.scan_posts s)))))
    else Raised SQLiteStorage.OverflowError.
Proof. reflexivity. Qed.

Lemma needing_comments_lookup limit s result i code n :
  SQLiteStorage.get_posts_needing_comments limit s = Returned result ->
  result !! i = Some (code, n) ->
  exists row,
    SQLiteStorage.order_by_likes_desc
      (List.filter
         (SQLiteStorage.needs_comments (SQLiteStorage.commented_posts s))
         (Props.scan_posts s)) !! i = Some (code, row)
    /\ n = PostRow.comments_count row
    /\ In (code, row) (Props.scan_posts s)
    /\ SQLiteStorage.needs_comments (SQLiteStorage.commented_posts s)
                                    (code, row) = true.
Proof.
  rewrite needing_comments_rows. destruct (int64 limit); [|done].
  intros [= <-]. rewrite list_lookup_fmap.
  destruct ((SQLiteStorage.LIMIT _ _) !! i) as [[code' row]|] eqn:Hi;
    [|done].
  intros [= <- <-]. apply LIMIT_lookup in Hi.
  exists row. split; [done|]. split; [done|].
  apply list_elem_of_lookup_2, list_elem_of_In, order_by_likes_desc_In,
    filter_In in Hi.
  done.
Qed.

End NeedingComments.

(** X5. [get_posts_needing_comments(limit)] returns whenever the limit fits
    SQLite's 64-bit INTEGER, and raises [OverflowError] otherwise. What it
    returns holds, for a non-negative limit, at most [limit] posts; each has
    a positive [comments_count], and a returned code is the code of a stored
    post that no stored comment refers to; the posts come in descending
    order of likes (a post never follows one with fewer likes, NULL counting
    as least). *)
Theorem get_posts_needing_comments_sound (limit : Z) (s : SQLiteStorage.t) :
  (int64 limit = false ->
   SQLiteStorage.get_posts_needing_comments limit s
   = Raised SQLiteStorage.OverflowError)
  /\ (int64 limit = true ->
      exists result,
        SQLiteStorage.get_posts_needing_comments limit s = Returned result
        /\ (0 <= limit -> (length result <= Z.to_nat limit)%nat)
        /\ (forall code n, In (code, n) result ->
              exists k, n = Some k /\ 0 < k)
        /\ (forall c n, In (Some c, n) result ->
              (c ∉ SQLiteStorage.commented_posts s)
              /\ exists row,
                   SQLiteStorage.keyed (SQLiteStorage.posts s) !! c = Some row
                   /\ PostRow.comments_count row = n)
        /\ (forall i j c1 c2 n1 n2 row1 row2,
              (i < j)%nat ->
              result !! i = Some (Some c1, n1) ->
              result !! j = Some (Some c2, n2) ->
              SQLiteStorage.keyed (SQLiteStorage.posts s) !! c1 = Some row1 ->
              SQLiteStorage.keyed (SQLiteStorage.posts s) !! c2 = Some row2 ->
              SQLiteStorage.likes_ltb (PostRow.likes row1) (PostRow.likes row2)
              = false)).
Proof.
  split; [by rewrite needing_comments_rows; intros ->|].
  intros Hfits.
  destruct (SQLiteStorage.get_posts_needing_comments limit s)
    as [result|e] eqn:Hrun;
    [|by rewrite needing_comments_rows, Hfits in Hrun].
  exists result. split; [done|]. split; [|split; [|split]].
  - intros Hl. rewrite needing_comments_rows, Hfits in Hrun.
    injection Hrun as <-. rewrite length_map. by apply LIMIT_length.
  - intros code n Hin.
    apply list_elem_of_In, list_elem_of_lookup in Hin as [i Hi].
    apply (needing_comments_lookup _ _ _ _ _ _ Hrun) in Hi
      as (row & _ & -> & _ & Hneeds).
    unfold SQLiteStorage.needs_comments in Hneeds. simpl in Hneeds.
    destruct (PostRow.comments_count row) as [k|]; [|done].
    exists k. split; [done|].
    apply andb_true_iff in Hneeds as [Hk _]. by apply Z.ltb_lt.
  - intros c n Hin.
    apply list_elem_of_In, list_elem_of_lookup in Hin as [i Hi].
    apply (needing_comments_lookup _ _ _ _ _ _ Hrun) in Hi
      as (row & _ & -> & Hscan & Hneeds).
    apply scan_posts_keyed in Hscan.
    unfold SQLiteStorage.needs_comments in Hneeds. simpl in Hneeds.
    apply andb_true_iff in Hneeds as [_ Hc].
    apply negb_true_iff, bool_decide_eq_false in Hc. eauto.
  - intros i j c1 c2 n1 n2 row1 row2 Hij Hi Hj Hrow1 Hrow2.
    apply (needing_comments_lookup _ _ _ _ _ _ Hrun) in Hi
      as (r1 & Hi & _ & Hscan1 & _).
    apply (needing_comments_lookup _ _ _ _ _ _ Hrun) in Hj
      as (r2 & Hj & _ & Hscan2 & _).
    apply scan_posts_keyed in Hscan1, Hscan2.
    assert (r1 = row1) as -> by congruence.
    assert (r2 = row2) as -> by congruence.
    apply (StronglySorted_lookup_lt Props.likes_ge _ i j
             (Some c1, row1) (Some c2, row2)
             (order_by_likes_desc_sorted _) Hij Hi Hj).
Qed.

Lemma get_posts_needing_comments_sound_witness :
  SQLiteStorage.get_posts_needing_comments 5 Cases.db_three_posts
  = Returned [(Some "C", Some 1); (Some "B", Some 2)]
  /\ SQLiteStorage.likes_ltb (Some 9) (Some 5) = false
  /\ (exists result,
        SQLiteStorage.get_posts_needing_comments 1 Cases.db_three_posts
        = Returned result
        /\ (length result <= 1)%nat)
  /\ SQLiteStorage.get_posts_needing_comments 9223372036854775808
       Cases.db_three_posts
     = Raised SQLiteStorage.OverflowError.
Proof.
  destruct (get_posts_needing_comments_sound 5 Cases.db_three_posts)
    as [_ Hfive].
  destruct (Hfive eq_refl) as (five & Hrun & _ & _ & _ & Horder).
  destruct (get_posts_needing_comments_sound 1 Cases.db_three_posts)
    as [_ Hone].
  destruct (Hone eq_refl) as (one & Hrun1 & Hlen & _).
  destruct (get_posts_needing_comments_sound 9223372036854775808
              Cases.db_three_posts) as [Hover _].
  assert (five = [(Some "C", Some 1); (Some "B", Some 2)]) as Hfive_eq.
  { assert (Returned five
            = Returned [(Some "C", Some 1); (Some "B", Some 2)]) as Heq
      by (rewrite <- Hrun; vm_compute; reflexivity).
    by injection Heq. }
  split; [by rewrite Hrun, Hfive_eq|]. split; [|split].
  - apply (Horder 0%nat 1%nat "C" "B" (Some 1) (Some 2)
             (SQLiteStorage.post_params (Cases.post_with_counts "C" 9 1))
             (SQLiteStorage.post_params (Cases.post_with_counts "B" 5 2)));
      [lia|by rewrite Hfive_eq..|vm_compute; reflexivity
      |vm_compute; reflexivity].
  - exists one. split; [exact Hrun1|]. apply Hlen. lia.
  - apply Hover. reflexivity.
Defined.

Section Enriched.

Lemma elem_of_key_set_Some {R : Type} (tb : SQLiteStorage.table R) k :
  Some k ∈ SQLiteStorage.key_set tb
  <-> is_Some (SQLiteStorage.keyed tb !! k).
Proof.
  unfold SQLiteStorage.key_set. rewrite elem_of_union, elem_of_map.
  rewrite <- elem_of_dom. split.
  - intros [(k' & [= <-] & Hk)|Hnull]; [done|].
    destruct (SQLiteStorage.null_key tb); set_solver.
  - intros Hk. left. eauto.
Qed.

Lemma elem_of_key_set_None {R : Type} (tb : SQLiteStorage.table R) :
  None ∈ SQLiteStorage.key_set tb <-> SQLiteStorage.null_key tb <> [].
Proof.
  unfold SQLiteStorage.key_set. rewrite elem_of_union, elem_of_map. split.
  - intros [(k' & [=] & _)|Hnull].
    destruct (SQLiteStorage.null_key tb); [set_solver|done].
  - intros Hne. right. destruct (SQLiteStorage.null_key tb); [done|set_solver].
Qed.

Lemma enriched_Some s k :
  Some k ∈ SQLiteStorage.get_enriched_users s
  <-> exists row,
        SQLiteStorage.keyed (SQLiteStorage.users s) !! k = Some row
        /\ SQLiteStorage.is_enriched row = true.
Proof.
  unfold SQLiteStorage.get_enriched_users.
  rewrite elem_of_key_set_Some. simpl. unfold is_Some.
  setoid_rewrite map_lookup_filter_Some. naive_solver.
Qed.

Lemma enriched_None s :
  None ∈ SQLiteStorage.get_enriched_users s
  <-> List.filter SQLiteStorage.is_enriched
        (SQLiteStorage.null_key (SQLiteStorage.users s)) <> [].
Proof.
  unfold SQLiteStorage.get_enriched_users.
  by rewrite elem_of_key_set_None.
Qed.

Lemma is_enriched_params user :
  SQLiteStorage.is_enriched (SQLiteStorage.user_params user)
  = match get (User.followers user) with
    | Some _ => true
    | None => false
    end.
Proof. unfold SQLiteStorage.is_enriched. simpl. by destruct (User.followers user). Qed.

Lemma is_enriched_on_conflict user current :
  SQLiteStorage.is_enriched
    (SQLiteStorage.user_on_conflict (SQLiteStorage.user_params user) current)
  = match get (User.followers user) with
    | Some _ => true
    | None => SQLiteStorage.is_enriched current
    end.
Proof. unfold SQLiteStorage.is_enriched. simpl. by destruct (User.followers user). Qed.

End Enriched.

(** The enriched set after an [upsert_user] that returns. *)
Lemma enriched_after_upsert_user (s : SQLiteStorage.t) (user : User.t)
    (name : string) :
  get (User.username user) = Some name ->
  SQLiteStorage.user_binds (SQLiteStorage.user_params user) = true ->
  SQLiteStorage.get_enriched_users (SQLiteStorage.upsert_user user s).2
  = match get (User.followers user) with
    | Some _ => {[Some name]} ∪ SQLiteStorage.get_enriched_users s
    | None => SQLiteStorage.get_enriched_users s
    end.
Proof.
  intros Hname Hb. rewrite upsert_user_binds by done. cbn [snd].
  apply set_eq. intros [k|].
  - rewrite enriched_Some. simpl. rewrite Hname.
    destruct (decide (k = name)) as [->|Hne].
    + assert (Some name ∈ SQLiteStorage.get_enriched_users s
              <-> exists row,
                    SQLiteStorage.keyed (SQLiteStorage.users s) !! name
                    = Some row /\ SQLiteStorage.is_enriched row = true)
        as Hold by apply enriched_Some.
      destruct (SQLiteStorage.keyed (SQLiteStorage.users s) !! name)
        as [current|] eqn:Hcur.
      * erewrite insert_on_conflict_hit by done.
        pose proof (is_enriched_on_conflict user current) as Hen.
        destruct (get (User.followers user)) as [n|].
        -- split; [set_solver|]. intros _. eauto.
        -- rewrite Hold.
           split; intros (row & [= <-] & Hr); (eexists; split; [done|]);
             congruence.
      * rewrite insert_on_conflict_miss by done.
        pose proof (is_enriched_params user) as Hen.
        destruct (get (User.followers user)) as [n|].
        -- split; [set_solver|]. intros _. eauto.
        -- rewrite Hold.
           split; [intros (row & [= <-] & Hr); congruence
                  |by intros (row & [=] & _)].
    + rewrite insert_on_conflict_other by congruence.
      destruct (get (User.followers user)).
      * rewrite elem_of_union, elem_of_singleton, enriched_Some.
        naive_solver.
      * by rewrite enriched_Some.
  - rewrite enriched_None. simpl. rewrite Hname.
    rewrite insert_on_conflict_null_key.
    destruct (get (User.followers user)).
    + rewrite elem_of_union, elem_of_singleton, enriched_None. naive_solver.
    + by rewrite enriched_None.
Qed.



Section Commented.


End Commented.




(** ** storage/json_store.py: flushing and reloading *)

Section JSONReload.
















End JSONReload.

(** Two flushes within one second write the same file: of 101 posts only
    the one flushed last is found again. *)
Lemma json_same_second_flush_overwrites :
  JSONStorage._load_existing
    (JSONStorage.output_dir
       (JSONStorage.close
          (Spec.upsert_posts (Cases.numbered_posts 101)
             (JSONStorage.init JSONStorage.empty_dir Cases.stopped_clock))))
  = {[Some "DW"]}.
Proof. vm_compute. reflexivity. Qed.





(** ** scraper.py: what a run stores and requests *)

Section ScrapeCounts.
Context `{Host} (w : world).

Lemma select_new_filter posts existing new_posts :
  Scraper.select_new posts existing = Returned new_posts ->
  new_posts = Props.new_among posts existing.
Proof.
  revert new_posts; induction posts as [|p posts IH]; intros new_posts.
  - by intros [= <-].
  - cbn [Scraper.select_new].
    destruct (Post.code p) as [| |c] eqn:Hc; simpl; [done|..];
      (destruct (Scraper.select_new posts existing) as [rest|]; [|done]);
      intros [= <-]; unfold Props.new_among; simpl; rewrite Hc; simpl;
      rewrite (IH rest eq_refl); by case_bool_decide.
Qed.

Lemma new_among_NoDup posts existing :
  NoDup (Props.codes_of posts) ->
  NoDup (Props.codes_of (Props.new_among posts existing)).
Proof.
  unfold Props.new_among, Props.codes_of.
  induction posts as [|p posts IH]; [done|].
  cbn [map List.filter]. intros [Hp Hnd]%NoDup_cons.
  destruct (negb _); [|by apply IH].
  cbn [map]. apply NoDup_cons. split; [|by apply IH].
  intros Hin. apply Hp.
  apply list_elem_of_In, in_map_iff in Hin as (q & Hq & Hin).
  apply filter_In in Hin as [Hin _].
  apply list_elem_of_In, in_map_iff. eauto.
Qed.

Lemma download_image_events url :
  Forall (fun e => Props.is_upsert_post e = false
                   /\ Props.is_profile_request e = false)
         (Scraper.download_image w url).1.
Proof.
  unfold Scraper.download_image. destruct (String.eqb url ""); [constructor|].
  destruct (cdn w url) as [[sc content]|]; by repeat constructor.
Qed.

Lemma filter_no_upsert_post evs :
  Forall (fun e => Props.is_upsert_post e = false
                   /\ Props.is_profile_request e = false) evs ->
  List.filter Props.is_upsert_post evs = [].
Proof.
  induction 1 as [|e l [He _] _ IHl]; [done|]. simpl. by rewrite He.
Qed.

Lemma no_profile_request evs :
  Forall (fun e => Props.is_upsert_post e = false
                   /\ Props.is_profile_request e = false) evs ->
  Forall (fun e => Props.is_profile_request e = false) evs.
Proof.
  intros Hall. eapply Forall_impl; [exact Hall|]. by intros e [_ ?].
Qed.

Lemma post_count_posts (s s' : SQLiteStorage.t) :
  SQLiteStorage.posts s' = SQLiteStorage.posts s ->
  SQLiteStorage.get_post_count s' = SQLiteStorage.get_post_count s.
Proof. unfold SQLiteStorage.get_post_count. by intros ->. Qed.

Lemma enriched_users_users (s s' : SQLiteStorage.t) :
  SQLiteStorage.users s' = SQLiteStorage.users s ->
  SQLiteStorage.get_enriched_users s'
  = SQLiteStorage.get_enriched_users s.
Proof. unfold SQLiteStorage.get_enriched_users. by intros ->. Qed.

Lemma upsert_user_posts user (s : SQLiteStorage.t) :
  SQLiteStorage.posts (SQLiteStorage.upsert_user user s).2
  = SQLiteStorage.posts s.
Proof.
  unfold SQLiteStorage.upsert_user.
  by destruct (SQLiteStorage.user_binds _).
Qed.

(** The image step on SQLite touches neither table. *)
Lemma attach_image_tables dl post (s : SQLiteStorage.t) evs r s1 :
  Scraper.attach_image w dl post s = (evs, r, s1) ->
  SQLiteStorage.posts s1 = SQLiteStorage.posts s
  /\ SQLiteStorage.users s1 = SQLiteStorage.users s
  /\ Forall (fun e => Props.is_upsert_post e = false
                      /\ Props.is_profile_request e = false) evs
  /\ (forall post1, r = Returned post1 -> Post.code post1 = Post.code post).
Proof.
  unfold Scraper.attach_image.
  destruct (dl && truthy_str (get (Post.image_url post)));
    [|intros [= <- <- <-]; repeat split; [constructor|by intros ? [= <-]]].
  pose proof (download_image_events (or_str (get (Post.image_url post)) ""))
    as Hdl.
  destruct (Scraper.download_image w _) as [evs0 [[|b bs]|]]; simpl in Hdl.
  - intros [= <- <- <-]. repeat split; [done|by intros ? [= <-]].
  - destruct (subscript "code" (Post.code post)) as [code|e].
    + cbn [StorageBackend.store_image SQLiteStorage.backend].
      unfold SQLiteStorage.store_image.
      destruct (SQLiteStorage.write_image s (Scraper.jpg_name code))
        as [path|e]; intros [= <- <- <-]; repeat split;
        try (apply Forall_app; split; [done|by repeat constructor]);
        try done.
      intros ? [= <-]. by case_match.
    + intros [= <- <- <-]. by repeat split.
  - intros [= <- <- <-]. repeat split; [done|by intros ? [= <-]].
Qed.

(** The author record on SQLite: always stored, no post row touched, nobody
    enriched. *)
Lemma upsert_author_tables username post (s : SQLiteStorage.t) users_seen
      evs r s1 :
  Scraper.upsert_author username post s users_seen = (evs, r, s1) ->
  SQLiteStorage.posts s1 = SQLiteStorage.posts s
  /\ SQLiteStorage.get_enriched_users s1 = SQLiteStorage.get_enriched_users s
  /\ (exists users_seen', r = Returned users_seen')
  /\ Forall (fun e => Props.is_upsert_post e = false
                      /\ Props.is_profile_request e = false) evs.
Proof.
  unfold Scraper.upsert_author.
  destruct (negb (String.eqb username ""));
    [|intros [= <- <- <-]; repeat split; [by eexists|constructor]].
  cbn [StorageBackend.upsert_user SQLiteStorage.backend].
  pose proof (enriched_after_upsert_user s
                (Scraper.minimal_user username post) username eq_refl
                (minimal_user_binds username post)) as Hen.
  pose proof (upsert_user_posts (Scraper.minimal_user username post) s)
    as Hposts.
  rewrite upsert_user_binds in Hen, Hposts |- *
    by apply minimal_user_binds.
  intros [= <- <- <-]. split; [exact Hposts|]. split; [exact Hen|].
  split; [by eexists|by repeat constructor].
Qed.

(** Storing new posts with fresh, distinct codes adds at most one row per
    [upsert_post] call, exactly one per post when the loop runs to its end,
    and leaves the enriched set alone. *)
Lemma store_posts_rows dl new_posts (s : SQLiteStorage.t) users_seen stored
      evs r s1 :
  NoDup (Props.codes_of new_posts) ->
  (forall p, In p new_posts ->
     exists c, Post.code p = Val c
               /\ SQLiteStorage.keyed (SQLiteStorage.posts s) !! c = None) ->
  Scraper.store_posts w dl new_posts s users_seen stored = (evs, r, s1) ->
  (SQLiteStorage.get_post_count s <= SQLiteStorage.get_post_count s1
   <= SQLiteStorage.get_post_count s
      + Z.of_nat (length (List.filter Props.is_upsert_post evs)))
  /\ (length (List.filter Props.is_upsert_post evs) <= length new_posts)%nat
  /\ (forall users_seen' n,
        r = Returned (users_seen', n) ->
        n = stored + Z.of_nat (length new_posts)
        /\ SQLiteStorage.get_post_count s1
           = SQLiteStorage.get_post_count s + Z.of_nat (length new_posts)
        /\ length (List.filter Props.is_upsert_post evs) = length new_posts)
  /\ Forall (fun e => Props.is_profile_request e = false) evs
  /\ SQLiteStorage.get_enriched_users s1 = SQLiteStorage.get_enriched_users s.
Proof.
  revert s users_seen stored evs r s1;
    induction new_posts as [|post rest IH];
    intros s users_seen stored evs r s1 Hnd Hfresh.
  - intros [= <- <- <-]. simpl. split; [lia|]. split; [lia|].
    split; [intros ? ? [= <- <-]; lia|]. split; [constructor|done].
  - cbn [Props.codes_of map] in Hnd. apply NoDup_cons in Hnd as [Hp Hnd].
    destruct (Hfresh post (or_introl eq_refl)) as (c & Hc & Hnone).
    cbn [Scraper.store_posts].
    destruct (Scraper.attach_image w dl post s) as [[evs0 r0] s0] eqn:Himg.
    destruct (attach_image_tables _ _ _ _ _ _ Himg)
      as (Hposts0 & Husers0 & Hevs0 & Hcode0).
    pose proof (filter_no_upsert_post _ Hevs0) as Hups0.
    pose proof (no_profile_request _ Hevs0) as Hprof0.
    destruct r0 as [post1|e].
    2:{ intros [= <- <- <-]. rewrite Hups0. cbn [length].
        rewrite (post_count_posts _ _ Hposts0).
        split; [lia|]. split; [lia|]. split; [done|]. split; [done|].
        by apply enriched_users_users. }
    specialize (Hcode0 post1 eq_refl).
    destruct (Scraper.upsert_author _ post1 s0 users_seen)
      as [[evs_user r_user] s2] eqn:Hauthor.
    destruct (upsert_author_tables _ _ _ _ _ _ _ Hauthor)
      as (Hposts2 & Hen2 & [users_seen' ->] & Hevs_user).
    pose proof (filter_no_upsert_post _ Hevs_user) as Hups_user.
    pose proof (no_profile_request _ Hevs_user) as Hprof_user.
    rewrite Hposts0 in Hposts2.
    rewrite (enriched_users_users _ _ Husers0) in Hen2.
    cbn [StorageBackend.upsert_post SQLiteStorage.backend].
    destruct (SQLiteStorage.post_binds (SQLiteStorage.post_params post1))
      eqn:Hbinds.
    2:{ rewrite upsert_post_overflows by done.
        intros [= <- <- <-].
        rewrite !List.filter_app, !length_app, Hups0, Hups_user.
        cbn [List.filter Props.is_upsert_post length].
        rewrite (post_count_posts _ _ Hposts2).
        split; [lia|]. split; [lia|]. split; [done|].
        split; [|done].
        apply Forall_app. split; [done|]. apply Forall_app.
        split; [done|by repeat constructor]. }
    rewrite upsert_post_binds by done.
    set (s3 := SQLiteStorage.mk _ _ _ _ _).
    assert (SQLiteStorage.get_post_count s3 = SQLiteStorage.get_post_count s + 1
            /\ SQLiteStorage.get_enriched_users s3
               = SQLiteStorage.get_enriched_users s
            /\ forall c', c' <> c ->
                 SQLiteStorage.keyed (SQLiteStorage.posts s3) !! c'
                 = SQLiteStorage.keyed (SQLiteStorage.posts s) !! c')
      as (Hcount3 & Hen3 & Hother3).
    { subst s3. unfold SQLiteStorage.get_post_count.
      cbn [SQLiteStorage.posts]. rewrite Hcode0, Hc. cbn [get].
      rewrite Hposts2. split; [|split].
      - unfold SQLiteStorage.insert_on_conflict. rewrite Hnone. cbn.
        rewrite map_size_insert_None by done. lia.
      - by rewrite <- Hen2.
      - intros c' Hne. apply insert_on_conflict_other. congruence. }
    destruct (Scraper.store_posts w dl rest s3 users_seen' (stored + 1))
      as [[evs_rest r'] s4] eqn:Hrest.
    intros [= <- <- <-].
    apply IH in Hrest as (Hcount & Hle & Hret & Hprof & Hen); [|done|].
    2:{ intros p Hin.
        destruct (Hfresh p (or_intror Hin)) as (c' & Hc' & Hnone').
        exists c'. split; [done|]. rewrite Hother3; [done|].
        intros ->. apply Hp. rewrite Hc. simpl.
        apply list_elem_of_In, in_map_iff. exists p.
        split; [by rewrite Hc'|done]. }
    rewrite !List.filter_app, !length_app, Hups0, Hups_user.
    cbn [List.filter Props.is_upsert_post length].
    split; [lia|]. split; [lia|]. split; [|split; [|congruence]].
    + intros us n Hr. destruct (Hret us n Hr) as (-> & Hcount' & Hups').
      rewrite Hups'. lia.
    + apply Forall_app. split; [done|]. apply Forall_app.
      split; [done|]. by repeat constructor.
Qed.

(** Enrichment on SQLite requests only the users it was given and leaves
    the posts table alone. *)
Lemma enrich_requests ck to_enrich (s : SQLiteStorage.t) evs r s1 :
  Scraper.enrich w ck to_enrich s = (evs, r, s1) ->
  SQLiteStorage.get_post_count s1 = SQLiteStorage.get_post_count s
  /\ Forall (fun e => Props.is_upsert_post e = false) evs
  /\ forall u, In (ProfileRequest u) evs -> In u to_enrich.
Proof.
  revert s evs r s1; induction to_enrich as [|uname rest IH];
    intros s evs r s1.
  - intros [= <- <- <-]. repeat split; [constructor|by intros u []].
  - cbn [Scraper.enrich].
    assert ((Api.fetch_user_profile w uname ck).1 = [ProfileRequest uname])
      as Hevs.
    { unfold Api.fetch_user_profile.
      destruct (web_profile_info w uname ck) as [msg|sc ct [[user|]|]];
        [done|..]; by destruct (negb (ok sc)). }
    destruct (Api.fetch_user_profile w uname ck) as [evs0 [[profile|]|e]];
      simpl in Hevs; subst evs0.
    + cbn [StorageBackend.upsert_user SQLiteStorage.backend].
      pose proof (upsert_user_posts profile s) as Hposts.
      destruct (SQLiteStorage.upsert_user profile s) as [[b|e] s0];
        cbn [snd] in Hposts.
      2:{ intros [= <- <- <-]. split; [by apply post_count_posts|].
          split; [by repeat constructor|].
          intros u [[= <-]|[[=]|[]]]. by left. }
      destruct (get_or (User.followers profile) 0).
      * destruct (Scraper.enrich w ck rest _) as [[evs_rest r'] s'] eqn:Hrest.
        intros [= <- <- <-].
        apply IH in Hrest as (Hcount & Hups & Hreq).
        split; [by rewrite Hcount; apply post_count_posts|].
        split; [by repeat constructor|].
        intros u [[= <-]|[[=]|[[=]|Hin]]]; [by left|right; by apply Hreq].
      * intros [= <- <- <-]. split; [by apply post_count_posts|].
        split; [by repeat constructor|].
        intros u [[= <-]|[[=]|[]]]. by left.
    + destruct (Scraper.enrich w ck rest s) as [[evs_rest r'] s'] eqn:Hrest.
      intros [= <- <- <-].
      apply IH in Hrest as (Hcount & Hups & Hreq).
      split; [done|]. split; [by repeat constructor|].
      intros u [[= <-]|[[=]|Hin]]; [by left|right; by apply Hreq].
    + intros [= <- <- <-]. split; [done|].
      split; [by repeat constructor|].
      intros u [[= <-]|[]]. by left.
Qed.

Lemma fetch_loop_only_requests hashtag tab ck pages page st :
  Forall (fun e => Props.is_upsert_post e = false
                   /\ Props.is_profile_request e = false)
         (Api.fetch_loop w hashtag tab ck pages page st).1.
Proof.
  revert page st; induction pages as [|pages IH]; intros page st;
    [constructor|].
  fetch_cases w hashtag tab ck page st; simpl;
    repeat constructor; apply IH.
Qed.

(** The shape of a run on SQLite once the fetch has returned. *)
Lemma scrape_hashtag_shape hashtag ck (storage : SQLiteStorage.t) max_pages
      tab dl en evs0 posts :
  Api.fetch_hashtag_posts w hashtag ck max_pages tab
  = (evs0, Returned posts) ->
  let new_posts :=
    Props.new_among posts (SQLiteStorage.get_existing_codes storage) in
  NoDup (Props.codes_of new_posts)
  /\ (forall p, In p new_posts ->
        exists c, Post.code p = Val c
                  /\ SQLiteStorage.keyed (SQLiteStorage.posts storage) !! c
                     = None)
  /\ Scraper.scrape_hashtag w hashtag ck storage max_pages tab dl en
     = match new_posts with
       | [] => (evs0, Returned 0, storage)
       | _ :: _ =>
           match Scraper.store_posts w dl new_posts storage ∅ 0 with
           | (evs1, Raised e, s1) => ((evs0 ++ evs1)%list, Raised e, s1)
           | (evs1, Returned (users_seen, stored), s1) =>
               if en then
                 match Scraper.enrich w ck
                         (Scraper.to_enrich users_seen
                            (SQLiteStorage.get_enriched_users s1)) s1 with
                 | (evs2, Raised e, s2) =>
                     ((evs0 ++ evs1 ++ evs2)%list, Raised e, s2)
                 | (evs2, Returned _, s2) =>
                     ((evs0 ++ evs1 ++ evs2)%list, Returned stored, s2)
                 end
               else ((evs0 ++ evs1)%list, Returned stored, s1)
           end
       end.
Proof.
  intros Hfetch new_posts.
  destruct (fetch_hashtag_posts_distinct w _ _ _ _ _ _ Hfetch)
    as [Hnd Htruthy].
  assert (Forall (fun p => Post.code p <> Absent) posts) as Hpresent.
  { eapply Forall_impl; [exact Htruthy|]. intros p Hp Habs.
    cbv beta in Hp. by rewrite Habs in Hp. }
  destruct (select_new_present posts
              (SQLiteStorage.get_existing_codes storage) Hpresent)
    as [new_posts' Hsel].
  pose proof (select_new_filter _ _ _ Hsel) as Hnew. fold new_posts in Hnew.
  subst new_posts'.
  split; [by apply new_among_NoDup|]. split.
  - intros p Hin. apply filter_In in Hin as [Hin Hfresh].
    rewrite Forall_forall in Htruthy.
    pose proof (Htruthy p (proj2 (list_elem_of_In _ _) Hin)) as Hp.
    destruct (Post.code p) as [| |c] eqn:Hc; try done.
    exists c. split; [done|].
    apply negb_true_iff, bool_decide_eq_false in Hfresh. simpl in Hfresh.
    unfold SQLiteStorage.get_existing_codes in Hfresh.
    rewrite elem_of_key_set_Some in Hfresh.
    by apply eq_None_not_Some.
  - unfold Scraper.scrape_hashtag. rewrite Hfetch.
    change (StorageBackend.get_existing_codes storage)
      with (SQLiteStorage.get_existing_codes storage).
    rewrite Hsel. destruct new_posts as [|p0 ps]; [done|].
    destruct (Scraper.store_posts w dl (p0 :: ps) storage ∅ 0)
      as [[evs1 [[users_seen stored]|e]] s1]; [|done].
    destruct en; [|done].
    change (StorageBackend.get_enriched_users s1)
      with (SQLiteStorage.get_enriched_users s1).
    by destruct (Scraper.enrich w ck _ s1) as [[evs2 [[]|e]] s2].
Qed.

End ScrapeCounts.



(** X11. On the SQLite backend [scrape_hashtag] never requests the profile of
    a user who was already enriched when the run began (storing the new
    posts and their minimal author records does not change who is
    enriched), and with [enrich_users] off it requests no profile at all. *)
Theorem scrape_hashtag_profile_requests `{Host} (w : world)
    (hashtag : string) (ck : cookies) (storage : SQLiteStorage.t)
    (max_pages : Z) (tab : string) (download_images enrich_users : bool) :
  let run :=
    Scraper.scrape_hashtag w hashtag ck storage max_pages tab
                           download_images enrich_users in
  (enrich_users = false ->
   Forall (fun e => Props.is_profile_request e = false) run.1.1)
  /\ (forall u, In (ProfileRequest u) run.1.1 ->
        Some u ∉ SQLiteStorage.get_enriched_users storage).
Proof.
  intros run.
  assert (Forall (fun e => Props.is_profile_request e = false)
            (Api.fetch_hashtag_posts w hashtag ck max_pages tab).1) as Hevs0.
  { eapply Forall_impl; [apply fetch_loop_only_requests|]. by intros e [_ ?]. }
  assert (forall evs u,
            Forall (fun e => Props.is_profile_request e = false) evs ->
            ~ In (ProfileRequest u) evs) as Hnone.
  { intros evs u Hall Hin. rewrite Forall_forall in Hall.
    by specialize (Hall _ (proj2 (list_elem_of_In _ _) Hin)). }
  destruct (Api.fetch_hashtag_posts w hashtag ck max_pages tab)
    as [evs0 [posts|e]] eqn:Hfetch; simpl in Hevs0.
  2:{ subst run. unfold Scraper.scrape_hashtag. rewrite Hfetch. simpl.
      split; [done|]. intros u Hin. by destruct (Hnone _ _ Hevs0 Hin). }
  destruct (scrape_hashtag_shape w hashtag ck storage max_pages tab
              download_images enrich_users evs0 posts Hfetch)
    as (Hnd & Hfresh & Hrun).
  subst run. rewrite Hrun. clear Hrun.
  destruct (Props.new_among posts _) as [|p0 ps] eqn:Hshape.
  { simpl. split; [done|]. intros u Hin. by destruct (Hnone _ _ Hevs0 Hin). }
  rewrite <- Hshape in *.
  destruct (Scraper.store_posts w download_images _ storage ∅ 0)
    as [[evs1 r1] s1] eqn:Hstore.
  apply store_posts_rows in Hstore as (_ & _ & _ & Hevs1 & Hen);
    [|done..].
  destruct r1 as [[users_seen stored]|e].
  2:{ simpl. split.
      - intros _. by apply Forall_app.
      - intros u Hin. apply in_app_or in Hin as [Hin|Hin].
        + by destruct (Hnone _ _ Hevs0 Hin).
        + by destruct (Hnone _ _ Hevs1 Hin). }
  destruct enrich_users.
  - split; [done|].
    destruct (Scraper.enrich w ck _ s1) as [[evs2 r2] s2] eqn:Henrich.
    apply enrich_requests in Henrich as (_ & _ & Hreq).
    intros u Hin.
    assert (In (ProfileRequest u) evs2) as Hin2.
    { destruct r2 as [[]|]; simpl in Hin;
        apply in_app_or in Hin as [Hin|Hin];
        try (by destruct (Hnone _ _ Hevs0 Hin));
        apply in_app_or in Hin as [Hin|Hin];
        try (by destruct (Hnone _ _ Hevs1 Hin)); done. }
    apply Hreq in Hin2. unfold Scraper.to_enrich in Hin2.
    apply filter_In in Hin2 as [_ Hnot].
    apply negb_true_iff, bool_decide_eq_false in Hnot.
    by rewrite Hen in Hnot.
  - simpl. split.
    + intros _. by apply Forall_app.
    + intros u Hin. apply in_app_or in Hin as [Hin|Hin].
      * by destruct (Hnone _ _ Hevs0 Hin).
      * by destruct (Hnone _ _ Hevs1 Hin).
Qed.

Lemma scrape_hashtag_profile_requests_witness :
  let run :=
    @Scraper.scrape_hashtag Spec.ascii_host _ SQLiteStorage.backend
      Examples.authors_feed "beijing" ∅ Examples.db_with_alice 20 "top"
      true true in
  ~ In (ProfileRequest "alice") run.1.1
  /\ In (ProfileRequest "bob") run.1.1.
Proof.
  cbv zeta. split.
  - intros Hin.
    destruct (@scrape_hashtag_profile_requests Spec.ascii_host
                Examples.authors_feed "beijing" ∅ Examples.db_with_alice
                20 "top" true true) as [_ Hreq].
    apply (Hreq "alice" Hin).
    apply enriched_Some. exists Examples.enriched_row.
    split; reflexivity.
  - vm_compute. auto 20.
Defined.

(** X12. When a fetched profile carries no follower count, the enrichment
    loop hands the profile to [upsert_user] and then raises: the
    [TypeError] of the log line that formats the count when [upsert_user]
    returned, and the exception of [upsert_user] when it raised. The users
    after it are neither requested nor enriched. *)
Theorem enrich_raises_without_follower_count {S : Type}
    `{StorageBackend.t S} (w : world) (ck : cookies) (uname : string)
    (rest : list string) (s : S) (sc : Z) (ct : string) (user : Raw.profile) :
  web_profile_info w uname ck = Response sc ct (Some (Some user)) ->
  ok sc = true ->
  Api.edge_count (Raw.p_edge_followed_by user) = None ->
  exists profile msg,
    Api.fetch_user_profile w uname ck
    = ([ProfileRequest uname], Returned (Some profile))
    /\ get (User.followers profile) = None
    /\ Scraper.enrich w ck (uname :: rest) s
       = ([ProfileRequest uname; UpsertUser profile],
          Raised (match (StorageBackend.upsert_user profile s).1 with
                  | Returned _ => Exception "TypeError" msg
                  | Raised e => e
                  end),
          (StorageBackend.upsert_user profile s).2).
Proof.
  intros Hresp Hok Hcount.
  cbn [Scraper.enrich]. unfold Api.fetch_user_profile.
  rewrite Hresp, Hok, Hcount. cbn [negb store get_or User.followers get].
  eexists _, _. split; [reflexivity|]. split; [reflexivity|].
  by destruct (StorageBackend.upsert_user _ s) as [[b|e] s1].
Qed.

Lemma enrich_raises_without_follower_count_witness :
  exists profile msg,
    get (User.followers profile) = None
    /\ (@Scraper.enrich _ SQLiteStorage.backend
          Cases.authors_feed_with_bob ∅ ["bob"] Examples.db_with_alice).1.2
       = Raised (Exception "TypeError" msg).
Proof.
  destruct (@enrich_raises_without_follower_count _
              SQLiteStorage.backend Cases.authors_feed_with_bob ∅ "bob" []
              Examples.db_with_alice 200 "application/json"
              Cases.bob_without_counts eq_refl eq_refl eq_refl)
    as (profile & msg & Hfetch & Hnone & Hrun).
  exists profile, msg. split; [exact Hnone|].
  rewrite Hrun. cbn [fst snd].
  vm_compute in Hfetch. injection Hfetch as <-. reflexivity.
Defined.

Section CommentsEvents.
Context `{Host}.

Lemma comments_loop_no_upsert w post_code media_pk ck pages page acc min_id :
  Forall (fun e => Props.is_upsert_comment e = false)
         (Api.comments_loop w post_code media_pk ck pages page acc min_id).1.
Proof.
  revert page acc min_id; induction pages as [|pages IH];
    intros page acc min_id; [constructor|].
  cbn [Api.comments_loop].
  destruct (comments_api w page _) as [msg|sc ct body];
    [by repeat constructor|].
  destruct (Z.eqb sc 429).
  { specialize (IH (S page) acc min_id).
    destruct (Api.comments_loop w post_code media_pk ck pages _ _ _).
    by repeat constructor. }
  destruct (negb (ok sc)); [by repeat constructor|].
  destruct (negb (contains "json" ct)); [by repeat constructor|].
  destruct body as [result|]; [|by repeat constructor].
  destruct (Api.parse_comments post_code _ acc) as [acc'|e];
    [|by repeat constructor].
  destruct (get (Raw.has_more_comments result)) as [[]|];
    try by repeat constructor.
  destruct (truthy_str (get (Raw.next_min_id result)));
    [|by repeat constructor].
  match goal with
  | |- context [Api.comments_loop w post_code media_pk ck pages ?p ?a ?m] =>
      specialize (IH p a m);
      destruct (Api.comments_loop w post_code media_pk ck pages p a m)
  end.
  by repeat constructor.
Qed.

Lemma fetch_comments_no_upsert w post_code ck max_pages :
  Forall (fun e => Props.is_upsert_comment e = false)
         (Api.fetch_comments w post_code ck max_pages).1.
Proof.
  unfold Api.fetch_comments.
  destruct (Api.shortcode_to_media_pk post_code); [|constructor].
  apply comments_loop_no_upsert.
Qed.

End CommentsEvents.

Section CommentsBatch.
Context `{Host} {S : Type} `{StorageBackend.t S}.

(** [store_comments] upserts the comments in order, under the post's code,
    and all of them when it returns. *)
Lemma store_comments_events code comments (s : S) :
  let run := Scraper.store_comments code comments s in
  (forall c, In (UpsertComment c) run.1.1 -> Comment.post_id c = Val code)
  /\ List.filter Props.is_upsert_comment run.1.1 = run.1.1
  /\ (forall u, run.1.2 = Returned u -> length run.1.1 = length comments).
Proof.
  revert s; induction comments as [|c rest IH]; intros s;
    [by repeat split|].
  cbn [Scraper.store_comments].
  destruct (StorageBackend.upsert_comment _ s) as [[b|e] s1].
  - specialize (IH s1).
    destruct (Scraper.store_comments code rest s1) as [[evs r] s2].
    cbn [fst snd] in *. destruct IH as (IHc & IHf & IHl).
    split; [|split].
    + intros c0 [[= <-]|Hin]; [done|by apply IHc].
    + cbn [List.filter Props.is_upsert_comment]. by rewrite IHf.
    + intros u Hu. cbn [length]. by rewrite (IHl u Hu).
  - cbn [fst snd]. split; [|split; [done|done]].
    intros c0 [[= <-]|[]]. done.
Qed.

Lemma filter_no_upsert_comment evs :
  Forall (fun e => Props.is_upsert_comment e = false) evs ->
  List.filter Props.is_upsert_comment evs = [].
Proof.
  induction 1 as [|e evs He _ IH]; [done|].
  cbn [List.filter]. by rewrite He.
Qed.

Lemma comments_of_posts_total w ck to_scrape (s : S) total :
  let run := Scraper.comments_of_posts w ck to_scrape s total in
  (forall t, run.1.2 = Returned t ->
     t = (total + Z.of_nat (length (List.filter Props.is_upsert_comment
                                                run.1.1)))%Z)
  /\ (forall c, In (UpsertComment c) run.1.1 ->
        exists code n, In (Some code, n) to_scrape
                       /\ Comment.post_id c = Val code).
Proof.
  revert s total; induction to_scrape as [|[code n] rest IH]; intros s total.
  { simpl. split; [intros t [= <-]; lia|done]. }
  cbn [Scraper.comments_of_posts fst].
  destruct code as [code|]; [|simpl; split; [done|done]].
  pose proof (fetch_comments_no_upsert w code ck 3) as Hfetch.
  destruct (Api.fetch_comments w code ck 3) as [evs [comments|e]];
    cbn [fst] in Hfetch.
  2:{ cbn [fst snd]. split; [done|]. intros c Hin.
      rewrite Forall_forall in Hfetch.
      apply list_elem_of_In, Hfetch in Hin. done. }
  pose proof (store_comments_events code comments s) as Hstore.
  cbv zeta in Hstore.
  destruct (Scraper.store_comments code comments s)
    as [[evs_store r_store] s1].
  cbn [fst snd] in Hstore. destruct Hstore as (Hpost & Hfilter & Hall).
  destruct r_store as [[]|e].
  2:{ cbn [fst snd]. split; [done|]. intros c Hin.
      apply in_app_or in Hin as [Hin|Hin].
      - rewrite Forall_forall in Hfetch.
        apply list_elem_of_In, Hfetch in Hin. done.
      - exists code, n. split; [by left|by apply Hpost]. }
  specialize (IH s1 (total + Z.of_nat (length comments))%Z).
  destruct (Scraper.comments_of_posts w ck rest s1 _) as [[evs_rest r] s2].
  cbn [fst snd] in *. destruct IH as [IHt IHc]. split.
  - intros t Ht. rewrite (IHt t Ht).
    rewrite !List.filter_app, (filter_no_upsert_comment _ Hfetch), Hfilter.
    cbn [List.filter Props.is_upsert_comment].
    rewrite app_nil_l, length_app, (Hall tt eq_refl). lia.
  - intros c Hin. apply in_app_or in Hin as [Hin|Hin].
    { rewrite Forall_forall in Hfetch.
      apply list_elem_of_In, Hfetch in Hin. done. }
    apply in_app_or in Hin as [Hin|Hin].
    { exists code, n. split; [by left|by apply Hpost]. }
    destruct Hin as [Hin|Hin]; [done|].
    destruct (IHc c Hin) as (code' & n' & Hin' & Hpost').
    exists code', n'. split; [by right|done].
Qed.

End CommentsBatch.

(** X13. [scrape_comments_batch] over any backend: when it returns, the
    number it returns is the number of comments it handed to
    [upsert_comment]; every comment it upserts carries as [post_id] the code
    of one of the posts the backend named as needing comments; with no
    such post it returns 0 without a request or a write; and when the
    backend's query raises, the exception leaves the call before any request
    or write. *)
Theorem scrape_comments_batch_total `{Host} {S : Type} `{StorageBackend.t S}
    (w : world) (ck : cookies) (storage : S) (limit : Z) :
  let run := Scraper.scrape_comments_batch w ck storage limit in
  (forall total, run.1.2 = Returned total ->
     total = Z.of_nat (length (List.filter Props.is_upsert_comment run.1.1)))
  /\ (forall c, In (UpsertComment c) run.1.1 ->
        exists to_scrape code n,
          StorageBackend.get_posts_needing_comments limit storage
          = Returned to_scrape
          /\ In (Some code, n) to_scrape
          /\ Comment.post_id c = Val code)
  /\ (StorageBackend.get_posts_needing_comments limit storage = Returned [] ->
      run = ([], Returned 0%Z, storage))
  /\ (forall e,
        StorageBackend.get_posts_needing_comments limit storage = Raised e ->
        run = ([], Raised e, storage)).
Proof.
  intros run. subst run. unfold Scraper.scrape_comments_batch.
  destruct (StorageBackend.get_posts_needing_comments limit storage)
    as [[|post rest]|e] eqn:Hposts.
  - simpl. split; [by intros total [= <-]|]. by repeat split.
  - pose proof (comments_of_posts_total w ck (post :: rest) storage 0) as Hrun.
    cbv zeta in Hrun. destruct Hrun as [Ht Hc].
    split; [|split; [|by split]].
    + intros total Htotal. rewrite (Ht total Htotal). lia.
    + intros c Hin. destruct (Hc c Hin) as (code & n & Hin' & Hpost).
      by exists (post :: rest), code, n.
  - simpl. split; [done|]. split; [done|]. split; [done|].
    by intros e' [= <-].
Qed.

Lemma scrape_comments_batch_total_witness :
  let run :=
    @Scraper.scrape_comments_batch Spec.ascii_host _ SQLiteStorage.backend
      Cases.one_comment_each ∅ Cases.db_three_posts 300 in
  run.1.2 = Returned 2%Z
  /\ length (List.filter Props.is_upsert_comment run.1.1) = 2%nat.
Proof.
  cbv zeta.
  assert ((@Scraper.scrape_comments_batch Spec.ascii_host _
             SQLiteStorage.backend Cases.one_comment_each ∅
             Cases.db_three_posts 300).1.2 = Returned 2%Z) as Hrun
    by (vm_compute; reflexivity).
  split; [exact Hrun|].
  destruct (@scrape_comments_batch_total Spec.ascii_host _
              SQLiteStorage.backend Cases.one_comment_each ∅
              Cases.db_three_posts 300) as [Htotal _].
  specialize (Htotal 2%Z Hrun). lia.
Defined.

(** ** Further properties of cookies.py and daemon.py *)

(** X14. [refresh_cookies] and [load_cookies] agree on what a usable cookie
    bag is: when a refresh returns a bag, the bag has a truthy [sessionid],
    the file holds it and loading the file returns the same bag; when a
    refresh raises, the file is as it was; and on a supported platform a
    browser without a [sessionid] ends the refresh with [SystemExit(1)].
    [load_cookies] never returns a bag without a [sessionid]. *)
Theorem refresh_cookies_round_trip (system : string)
    (pycookiecheat browser_cookie3 : result cookies)
    (file : Cookies.cookie_file) :
  let run := Cookies.refresh_cookies system pycookiecheat browser_cookie3
                                     file in
  (forall ck, run.1 = Returned ck ->
     Cookies.has_sessionid ck = true
     /\ run.2 = Cookies.Holds ck
     /\ Cookies.load_cookies run.2 = Returned ck)
  /\ (forall e, run.1 = Raised e -> run.2 = file)
  /\ (forall ck, pycookiecheat = Returned ck -> browser_cookie3 = Returned ck ->
        Cookies.has_sessionid ck = false ->
        run = (Raised (SystemExit 1), file))
  /\ (forall ck, Cookies.load_cookies file = Returned ck ->
        Cookies.has_sessionid ck = true /\ file = Cookies.Holds ck).
Proof.
  intros run. subst run. unfold Cookies.refresh_cookies.
  split; [|split; [|split]].
  - intros ck.
    destruct (_ || _); [|destruct (String.eqb system "Windows")];
      try done;
      match goal with
      | |- context [match ?x with Returned _ => _ | Raised _ => _ end] =>
          destruct x as [ck'|e]; [|done]
      end;
      destruct (Cookies.has_sessionid ck') eqn:Hs; [|done| |done];
      intros [= <-]; simpl; by rewrite Hs.
  - intros e.
    destruct (_ || _); [|destruct (String.eqb system "Windows")];
      try done;
      match goal with
      | |- context [match ?x with Returned _ => _ | Raised _ => _ end] =>
          destruct x as [ck'|e']; [|done]
      end;
      by destruct (Cookies.has_sessionid ck').
  - intros ck -> -> Hs.
    destruct (_ || _); [by rewrite Hs|].
    destruct (String.eqb system "Windows"); [by rewrite Hs|done].
  - intros ck. destruct file as [| |ck']; simpl; try done.
    destruct (Cookies.has_sessionid ck') eqn:Hs; [|done].
    by intros [= <-].
Qed.

Lemma refresh_cookies_round_trip_witness :
  Cookies.load_cookies
    (Cookies.refresh_cookies "Darwin" (Returned {[ "sessionid" := "new" ]})
       (Raised (Exception "ImportError" "No module named browser_cookie3"))
       Cookies.Missing).2
  = Returned {[ "sessionid" := "new" ]}.
Proof.
  destruct (refresh_cookies_round_trip "Darwin"
              (Returned {[ "sessionid" := "new" ]})
              (Raised (Exception "ImportError"
                         "No module named browser_cookie3"))
              Cookies.Missing) as [Hok _].
  destruct (Hok {[ "sessionid" := "new" ]}) as (_ & _ & Hload);
    [reflexivity|exact Hload].
Defined.

Section DaemonTraces.
Context {W : Type} `{Daemon.Env W}.

(** *** Traces without a shutdown call *)

Lemma bind_quiet {A B} (m : @Daemon.M W A) (k : A -> @Daemon.M W B) :
  Props.quiet m -> (forall a, Props.quiet (k a)) ->
  Props.quiet (Daemon.bind m k).
Proof.
  intros Hm Hk s. unfold Daemon.bind. specialize (Hm s).
  destruct (m s) as [[acts [a|e]] s1]; simpl in *; [|done].
  specialize (Hk a s1). destruct (k a s1) as [[acts2 r] s2]; simpl in *.
  by apply Forall_app.
Qed.

Lemma try_except_quiet {A} (body : @Daemon.M W A) (handler : exn -> @Daemon.M W A) :
  Props.quiet body -> (forall e, Props.quiet (handler e)) ->
  Props.quiet (Daemon.try_except body handler).
Proof.
  intros Hm Hk s. unfold Daemon.try_except. specialize (Hm s).
  destruct (body s) as [[acts [a|e]] s1]; simpl in *; [done|].
  destruct (Daemon.is_Exception e); [|done].
  specialize (Hk e s1). destruct (handler e s1) as [[acts2 r] s2]; simpl in *.
  by apply Forall_app.
Qed.

Lemma ret_quiet {A} (a : A) : Props.quiet (Daemon.ret (W:=W) a).
Proof. intros s. constructor. Qed.

Lemma is_running_quiet : Props.quiet Daemon.is_running.
Proof. intros s. constructor. Qed.

Lemma post_count_quiet : Props.quiet Daemon.post_count.
Proof. intros s. by repeat constructor. Qed.

Lemma time_sleep_quiet lo hi : Props.quiet (Daemon.time_sleep lo hi).
Proof. intros s. by repeat constructor. Qed.

Lemma call_scrape_hashtag_quiet tag max_pages tab dl en :
  Props.quiet (Daemon.call_scrape_hashtag tag max_pages tab dl en).
Proof.
  intros s. unfold Daemon.call_scrape_hashtag.
  destruct (Daemon.scrape_hashtag _ _ _ _ _ _ _). by repeat constructor.
Qed.

Lemma call_scrape_comments_batch_quiet limit :
  Props.quiet (Daemon.call_scrape_comments_batch limit).
Proof.
  intros s. unfold Daemon.call_scrape_comments_batch.
  destruct (Daemon.scrape_comments_batch _ _ _). by repeat constructor.
Qed.

Lemma random_shuffle_quiet tags : Props.quiet (Daemon.random_shuffle tags).
Proof.
  intros s. unfold Daemon.random_shuffle.
  destruct (Daemon.shuffle _ _). by repeat constructor.
Qed.

Lemma random_sample_quiet tags k : Props.quiet (Daemon.random_sample tags k).
Proof.
  intros s. unfold Daemon.random_sample.
  destruct (Daemon.sample _ _ _). by repeat constructor.
Qed.

Lemma assign_load_cookies_quiet cookie_file :
  Props.quiet (Daemon.assign_load_cookies cookie_file).
Proof.
  intros s. unfold Daemon.assign_load_cookies.
  destruct (Daemon.load_cookies _ _) as [[ck|e] w]; by repeat constructor.
Qed.

Lemma assign_refresh_cookies_quiet cookie_file :
  Props.quiet (Daemon.assign_refresh_cookies cookie_file).
Proof.
  intros s. unfold Daemon.assign_refresh_cookies.
  destruct (Daemon.refresh_cookies _ _) as [[ck|e] w]; by repeat constructor.
Qed.

Ltac quiet :=
  repeat first
    [ progress intros
    | assumption
    | apply ret_quiet | apply is_running_quiet | apply post_count_quiet
    | apply time_sleep_quiet | apply call_scrape_hashtag_quiet
    | apply call_scrape_comments_batch_quiet | apply random_shuffle_quiet
    | apply random_sample_quiet | apply assign_load_cookies_quiet
    | apply assign_refresh_cookies_quiet
    | match goal with
      | Hq : forall _, Props.quiet _ |- _ => apply Hq
      end
    | apply bind_quiet | apply try_except_quiet
    | match goal with
      | |- Props.quiet (if ?b then _ else _) => destruct b
      | |- Props.quiet (match ?c with
                        | Daemon.NextCycle => _
                        | Daemon.BreakLoop => _
                        end) => destruct c
      end ].

Section Phases.
Variables (cookie_file : string) (target : Z) (download_images : bool).








(** *** Where an exception of class [Exception] can leave the cycle *)

Lemma bind_escapes {A B} Q (m : @Daemon.M W A) (k : A -> @Daemon.M W B) :
  Props.escapes_after Q m -> (forall a, Props.escapes_after Q (k a)) ->
  Props.escapes_after Q (Daemon.bind m k).
Proof.
  intros Hm Hk s e. unfold Daemon.bind. specialize (Hm s).
  destruct (m s) as [[acts [a|e0]] s1]; simpl in *.
  - specialize (Hk a s1 e). destruct (k a s1) as [[acts2 r] s2]; simpl in *.
    intros Hr He. destruct (Hk Hr He) as (pre & x & -> & HQ).
    exists (acts ++ pre)%list, x. by rewrite app_assoc.
  - intros [= <-] He. exact (Hm e0 eq_refl He).
Qed.

Lemma try_except_escapes {A} Q (body : @Daemon.M W A)
      (handler : exn -> @Daemon.M W A) :
  (forall e, Props.escapes_after Q (handler e)) ->
  Props.escapes_after Q (Daemon.try_except body handler).
Proof.
  intros Hh s e. unfold Daemon.try_except.
  destruct (body s) as [[acts [a|e0]] s1]; simpl; [done|].
  destruct (Daemon.is_Exception e0) eqn:Hex.
  - specialize (Hh e0 s1 e).
    destruct (handler e0 s1) as [[acts2 r] s2]; simpl in *.
    intros Hr He. destruct (Hh Hr He) as (pre & x & -> & HQ).
    exists (acts ++ pre)%list, x. by rewrite app_assoc.
  - simpl. intros [= <-] He. congruence.
Qed.

Lemma escapes_weaken {A} (Q Q' : Daemon.action -> Prop) (m : @Daemon.M W A) :
  (forall a, Q a -> Q' a) ->
  Props.escapes_after Q m -> Props.escapes_after Q' m.
Proof.
  intros HQ Hm s e Hr He. destruct (Hm s e Hr He) as (pre & a & Hacts & Ha).
  exists pre, a. split; [done|by apply HQ].
Qed.

Lemma ret_escapes {A} Q (a : A) : Props.escapes_after Q (Daemon.ret (W:=W) a).
Proof. by intros s e. Qed.

Lemma is_running_escapes Q : Props.escapes_after Q Daemon.is_running.
Proof. by intros s e. Qed.

Lemma post_count_escapes Q : Props.escapes_after Q Daemon.post_count.
Proof. by intros s e. Qed.

Lemma time_sleep_escapes Q lo hi :
  Props.escapes_after Q (Daemon.time_sleep lo hi).
Proof. by intros s e. Qed.

Lemma random_shuffle_escapes Q tags :
  Props.escapes_after Q (Daemon.random_shuffle tags).
Proof.
  intros s e. unfold Daemon.random_shuffle. by destruct (Daemon.shuffle _ _).
Qed.

Lemma random_sample_escapes Q tags k :
  Props.escapes_after Q (Daemon.random_sample tags k).
Proof.
  intros s e. unfold Daemon.random_sample. by destruct (Daemon.sample _ _ _).
Qed.

Lemma call_scrape_comments_batch_escapes (Q : Daemon.action -> Prop) limit :
  Q (Daemon.CallScrapeCommentsBatch limit) ->
  Props.escapes_after Q (Daemon.call_scrape_comments_batch limit).
Proof.
  intros HQ s e. unfold Daemon.call_scrape_comments_batch.
  destruct (Daemon.scrape_comments_batch _ _ _) as [r w]. simpl.
  intros _ _. by exists [], (Daemon.CallScrapeCommentsBatch limit).
Qed.

Lemma assign_load_cookies_escapes (Q : Daemon.action -> Prop) :
  Q Daemon.LoadCookies ->
  Props.escapes_after Q (Daemon.assign_load_cookies cookie_file).
Proof.
  intros HQ s e. unfold Daemon.assign_load_cookies.
  destruct (Daemon.load_cookies _ _) as [[ck|e'] w]; simpl; [done|].
  intros _ _. by exists [], Daemon.LoadCookies.
Qed.

Ltac escapes :=
  repeat first
    [ progress intros
    | assumption
    | apply ret_escapes | apply is_running_escapes | apply post_count_escapes
    | apply time_sleep_escapes | apply random_shuffle_escapes
    | apply random_sample_escapes
    | match goal with
      | He : forall _, Props.escapes_after _ _ |- _ => apply He
      end
    | apply bind_escapes | apply try_except_escapes
    | match goal with
      | |- Props.escapes_after _ (if ?b then _ else _) => destruct b
      end ].

Lemma on_scrape_error_escapes e :
  Props.escapes_after (fun a => a = Daemon.LoadCookies)
                      (Daemon.on_scrape_error cookie_file e).
Proof.
  unfold Daemon.on_scrape_error.
  pose proof (assign_load_cookies_escapes (fun a => a = Daemon.LoadCookies)
                                          eq_refl).
  escapes.
Qed.

Lemma phase1_escapes shuffled :
  Props.escapes_after (fun a => a = Daemon.LoadCookies)
    (Daemon.phase1_top_posts cookie_file target download_images shuffled).
Proof.
  induction shuffled as [|tag rest IH]; cbn [Daemon.phase1_top_posts];
    [apply ret_escapes|].
  pose proof on_scrape_error_escapes. escapes.
Qed.

Lemma phase2_escapes :
  Props.escapes_after (fun _ => False) Daemon.phase2_comments.
Proof. unfold Daemon.phase2_comments. escapes. Qed.

Lemma recent_tab_pass_escapes chosen :
  Props.escapes_after (fun _ => False)
                      (Daemon.recent_tab_pass download_images chosen).
Proof.
  induction chosen as [|tag rest IH]; cbn [Daemon.recent_tab_pass];
    [apply ret_escapes|].
  escapes.
Qed.

Lemma phase3_escapes shuffled :
  Props.escapes_after (fun _ => False)
    (Daemon.phase3_recent_tab target download_images shuffled).
Proof.
  unfold Daemon.phase3_recent_tab.
  pose proof recent_tab_pass_escapes. escapes.
Qed.

Lemma cycle_escapes tags :
  Props.escapes_after
    (fun a => a = Daemon.CallScrapeCommentsBatch 500
              \/ a = Daemon.LoadCookies)
    (Daemon.cycle cookie_file target download_images tags).
Proof.
  unfold Daemon.cycle.
  pose proof (call_scrape_comments_batch_escapes
                (fun a => a = Daemon.CallScrapeCommentsBatch 500
                          \/ a = Daemon.LoadCookies) 500 (or_introl eq_refl)).
  assert (forall shuffled,
            Props.escapes_after
              (fun a => a = Daemon.CallScrapeCommentsBatch 500
                        \/ a = Daemon.LoadCookies)
              (Daemon.phase1_top_posts cookie_file target download_images
                                       shuffled)).
  { intros shuffled. eapply escapes_weaken; [|apply phase1_escapes].
    intros a ->. by right. }
  assert (Props.escapes_after
            (fun a => a = Daemon.CallScrapeCommentsBatch 500
                      \/ a = Daemon.LoadCookies)
            Daemon.phase2_comments).
  { eapply escapes_weaken; [|apply phase2_escapes]. done. }
  assert (forall shuffled,
            Props.escapes_after
              (fun a => a = Daemon.CallScrapeCommentsBatch 500
                        \/ a = Daemon.LoadCookies)
              (Daemon.phase3_recent_tab target download_images shuffled)).
  { intros shuffled. eapply escapes_weaken; [|apply phase3_escapes]. done. }
  escapes.
Qed.

End Phases.
End DaemonTraces.

(** X15. The error handling of a daemon cycle: an exception of class
    [Exception] leaves a cycle only from the comment pass of the
    target-reached branch, which has no handler, or from the [load_cookies]
    call that follows a failed cookie refresh; in both cases that call is the
    last action of the cycle. The comment pass of Phase 2 and the recent-tab
    pass of Phase 3 never let such an exception out. *)
Theorem cycle_exception_origin {W : Type} `{Daemon.Env W}
    (cookie_file : string) (target : Z) (download_images : bool) :
  (forall tags s e,
     (Daemon.cycle cookie_file target download_images tags s).1.2 = Raised e ->
     Daemon.is_Exception e = true ->
     exists pre,
       (Daemon.cycle cookie_file target download_images tags s).1.1
       = (pre ++ [Daemon.CallScrapeCommentsBatch 500])%list
       \/ (Daemon.cycle cookie_file target download_images tags s).1.1
          = (pre ++ [Daemon.LoadCookies])%list)
  /\ (forall s e,
        (Daemon.phase2_comments s).1.2 = Raised e ->
        Daemon.is_Exception e = false)
  /\ (forall chosen s e,
        (Daemon.recent_tab_pass download_images chosen s).1.2 = Raised e ->
        Daemon.is_Exception e = false).
Proof.
  split; [|split].
  - intros tags s e Hr He.
    destruct (cycle_escapes cookie_file target download_images tags s e Hr He)
      as (pre & a & Hacts & [->| ->]); exists pre; [by left|by right].
  - intros s e Hr. destruct (Daemon.is_Exception e) eqn:He; [|done].
    by destruct (phase2_escapes s e Hr He) as (? & ? & _ & []).
  - intros chosen s e Hr. destruct (Daemon.is_Exception e) eqn:He; [|done].
    by destruct (recent_tab_pass_escapes download_images chosen s e Hr He)
      as (? & ? & _ & []).
Qed.

Lemma cycle_exception_origin_witness :
  exists pre,
    (Daemon.cycle "ig_cookies.json" 5 true ["beijing"]
       (Daemon.mk_dstate Cases.desk_locked_out ∅)).1.1
    = (pre ++ [Daemon.CallScrapeCommentsBatch 500])%list
    \/ (Daemon.cycle "ig_cookies.json" 5 true ["beijing"]
          (Daemon.mk_dstate Cases.desk_locked_out ∅)).1.1
       = (pre ++ [Daemon.LoadCookies])%list.
Proof.
  destruct (@cycle_exception_origin _ Cases.desk_env "ig_cookies.json" 5 true)
    as [Hcycle _].
  apply (Hcycle ["beijing"] (Daemon.mk_dstate Cases.desk_locked_out ∅)
                (Exception "JSONDecodeError" "Expecting value"));
    reflexivity.
Defined.

Section Shutdown.
Context {W : Type} `{Daemon.Env W}.


End Shutdown.



(** X17. One iteration of Phase 1 whose [scrape_hashtag] call raises. An
    exception outside class [Exception] ends the pass at once. An
    [Exception] that does not look like an expired session is logged: the
    pass sleeps 10 to 25 seconds and goes on with the remaining hashtags and
    the same cookies. One that looks like an expired session triggers a
    cookie refresh: when the refresh returns, the pass goes on with the new
    cookies; when the refresh ends with an exception outside class
    [Exception] (the [SystemExit] of [refresh_cookies]), the pass ends with it
    and neither the one-hour sleep nor [load_cookies] is reached. *)
Theorem phase1_error_step {W : Type} `{Daemon.Env W} (cookie_file : string)
    (target : Z) (download_images : bool) (tag : string)
    (rest : list string) (s : Daemon.dstate) (e : exn) (w1 : W) :
  Daemon.running (Daemon.world s) = true ->
  Daemon.get_post_count (Daemon.world s) < target ->
  Daemon.scrape_hashtag tag (Daemon.cookies_now s) 20 "top" download_images
                        false (Daemon.world s)
  = (Raised e, w1) ->
  let n := Daemon.get_post_count (Daemon.world s) in
  let call := Daemon.CallScrapeHashtag tag 20 "top" download_images false in
  let phase1 := Daemon.phase1_top_posts cookie_file target download_images in
  (Daemon.is_Exception e = false ->
   phase1 (tag :: rest) s
   = ([Daemon.GetPostCount n; call], Raised e,
      Daemon.mk_dstate w1 (Daemon.cookies_now s)))
  /\ (Daemon.is_Exception e = true -> Daemon.session_expired e = false ->
      phase1 (tag :: rest) s
      = Props.after
          [Daemon.GetPostCount n; call; Daemon.TimeSleep 10000 25000]
          (phase1 rest
             (Daemon.mk_dstate (Daemon.sleep 10000 25000 w1)
                               (Daemon.cookies_now s))))
  /\ (forall ck w2,
        Daemon.is_Exception e = true -> Daemon.session_expired e = true ->
        Daemon.refresh_cookies cookie_file w1 = (Returned ck, w2) ->
        phase1 (tag :: rest) s
        = Props.after
            [Daemon.GetPostCount n; call; Daemon.RefreshCookies;
             Daemon.TimeSleep 10000 25000]
            (phase1 rest
               (Daemon.mk_dstate (Daemon.sleep 10000 25000 w2) ck)))
  /\ (forall e' w2,
        Daemon.is_Exception e = true -> Daemon.session_expired e = true ->
        Daemon.refresh_cookies cookie_file w1 = (Raised e', w2) ->
        Daemon.is_Exception e' = false ->
        phase1 (tag :: rest) s
        = ([Daemon.GetPostCount n; call; Daemon.RefreshCookies], Raised e',
           Daemon.mk_dstate w2 (Daemon.cookies_now s))).
Proof.
  intros Hrun Hn Hscrape n call phase1. subst n call phase1.
  apply Z.leb_gt in Hn.
  repeat split; intros;
    cbn [Daemon.phase1_top_posts];
    unfold Daemon.bind, Daemon.is_running, Daemon.post_count,
      Daemon.try_except, Daemon.call_scrape_hashtag, Daemon.on_scrape_error,
      Daemon.try_except, Daemon.assign_refresh_cookies, Daemon.ret,
      Daemon.time_sleep, Props.after;
    rewrite Hrun; cbn [negb fst snd app]; rewrite Hn, Hscrape;
    repeat match goal with
           | Heq : _ = _ |- _ =>
               rewrite Heq; clear Heq;
               cbn [Daemon.world Daemon.cookies_now fst snd app]
           end;
    try done;
    by destruct (Daemon.phase1_top_posts _ _ _ rest _) as [[acts r] s'].
Qed.

Lemma phase1_error_step_witness :
  Daemon.phase1_top_posts "ig_cookies.json" 5 true ["beijing"; "shanghai"]
    (Daemon.mk_dstate Cases.desk_logged_out {[ "sessionid" := "old" ]})
  = ([Daemon.GetPostCount 0;
      Daemon.CallScrapeHashtag "beijing" 20 "top" true false;
      Daemon.RefreshCookies],
     Raised (SystemExit 1),
     Daemon.mk_dstate Cases.desk_logged_out {[ "sessionid" := "old" ]}).
Proof.
  destruct (@phase1_error_step _ Cases.desk_env "ig_cookies.json" 5 true
              "beijing" ["shanghai"]
              (Daemon.mk_dstate Cases.desk_logged_out
                                {[ "sessionid" := "old" ]})
              (Exception "HTTPError" "401 Unauthorized")
              Cases.desk_logged_out eq_refl eq_refl eq_refl)
    as (_ & _ & _ & Hexit).
  exact (Hexit (SystemExit 1) Cases.desk_logged_out eq_refl eq_refl eq_refl
               eq_refl).
Defined.
